(** * Defects4J mining pipeline: parser, log synthesizer and JSONL exporter

    A shallow embedding of the text-processing core of the repository
    (defects_manager.py, mining_buggy_code_logs.py,
    synthetic_log_generator.py, dataset_exporter.py, utils.py) together
    with the properties its specification states about it (C1 to C10)
    and further properties the code shows (X1 to X21): of the manager
    that runs the tool, of the synthesizer, of the two exporters and of
    the pipeline that ties them together.

    Modelling conventions.
    - A Python [str] is a list of characters.  Characters are the code
      points 0..255 (the type [ascii]); text outside that range is not
      modelled.
    - [re] patterns are terms of the type [Re.regex], run by a
      backtracking matcher with Python's priorities (greedy repetition,
      left alternative first, leftmost match for [re.search]).
    - A [datetime] is a count of microseconds; [isoformat] and the shortest
      decimal form of a float belong to Python's library and are
      parameters of the development.
    - [Optional] fields are [option]s, dictionaries that are only built
      and serialised are association lists in insertion order.
    - Code that runs the tool, reads the clock or touches files passes a
      state of the machine along; the tool, the clock and the file
      system are parameters, and a call that raises is [Fault]: a run
      of the tool whose output does not decode, a file that cannot be
      read, a directory that cannot be made. *)

From Stdlib Require Import Ascii String Bool Arith ZArith Lia List.
From Stdlib Require Import DecimalString DecimalZ.
Import Corelib.Init.Datatypes ListNotations.

Set Implicit Arguments.

(* ================================================================= *)
(** ** Python strings *)

Definition str := list ascii.

Definition chars (s : string) : str := list_ascii_of_string s.

Definition NL : ascii := "010"%char.
Definition DQ : ascii := "034"%char.          (* the double quote *)
Definition BSL : ascii := "092"%char.         (* the backslash *)
Definition CR : ascii := "013"%char.

Definition code (c : ascii) : nat := nat_of_ascii c.

(** [str.isspace] on one character, which is also the class [\s] of a
    [str] pattern: TAB..CR, FS..US, space, NEL and NBSP. *)
Definition is_space (c : ascii) : bool :=
  let n := code c in
  ((9 <=? n) && (n <=? 13)) || ((28 <=? n) && (n <=? 32))
  || (n =? 133) || (n =? 160).

(** The class [.] without [re.DOTALL]. *)
Definition not_newline (c : ascii) : bool := negb (Ascii.eqb c NL).

(** The class [[ \t]]. *)
Definition is_blank (c : ascii) : bool :=
  Ascii.eqb c " "%char || Ascii.eqb c "009"%char.

Fixpoint str_eqb (a b : str) : bool :=
  match a, b with
  | [], [] => true
  | x :: a', y :: b' => Ascii.eqb x y && str_eqb a' b'
  | _, _ => false
  end.

(** [s.startswith(p)] *)
Fixpoint starts_with (p s : str) : bool :=
  match p, s with
  | [], _ => true
  | x :: p', y :: s' => Ascii.eqb x y && starts_with p' s'
  | _ :: _, [] => false
  end.

(** [p in s] *)
Fixpoint contains (p s : str) : bool :=
  starts_with p s ||
  match s with
  | [] => false
  | _ :: s' => contains p s'
  end.

(** [str.lower] on one code point below 256: A..Z and the Latin-1 capitals
    (all of 192..222 but the multiplication sign 215) move up by 32. *)
Definition lower_char (c : ascii) : ascii :=
  let n := code c in
  if ((65 <=? n) && (n <=? 90))
     || ((192 <=? n) && (n <=? 222) && negb (n =? 215))
  then ascii_of_nat (n + 32) else c.

Definition lower (s : str) : str := map lower_char s.

(** [s.lstrip(cs)] for a character class. *)
Fixpoint lstrip_by (p : ascii -> bool) (s : str) : str :=
  match s with
  | c :: s' => if p c then lstrip_by p s' else s
  | [] => []
  end.

Definition rstrip_by (p : ascii -> bool) (s : str) : str :=
  rev (lstrip_by p (rev s)).

Definition is_crlf (c : ascii) : bool := Ascii.eqb c CR || Ascii.eqb c NL.

(** [s.lstrip("\r\n")], [s.rstrip()], [s.strip()] *)
Definition lstrip_crlf (s : str) : str := lstrip_by is_crlf s.
Definition rstrip (s : str) : str := rstrip_by is_space s.
Definition strip (s : str) : str := lstrip_by is_space (rstrip s).

(** Truth value of a string: non-empty. *)
Definition truthy (s : str) : bool :=
  match s with [] => false | _ :: _ => true end.

(** [s.replace(old, new)] for a non-empty [old]: leftmost occurrences,
    not overlapping. *)
Fixpoint replace_loop (old new : str) (skip : nat) (s : str) : str :=
  match s with
  | [] => []
  | c :: s' =>
      match skip with
      | S k => replace_loop old new k s'
      | 0 => if starts_with old s
             then new ++ replace_loop old new (length old - 1) s'
             else c :: replace_loop old new 0 s'
      end
  end.

Definition replace (old new s : str) : str := replace_loop old new 0 s.

(** [s.split(sep)[0]]: the text before the first occurrence of [sep]. *)
Fixpoint split_head (sep s : str) : str :=
  match s with
  | [] => []
  | c :: s' => if starts_with sep s then [] else c :: split_head sep s'
  end.

(** [sep.join(parts)] *)
Fixpoint join (sep : str) (parts : list str) : str :=
  match parts with
  | [] => []
  | [p] => p
  | p :: ps => p ++ sep ++ join sep ps
  end.

(** [str(n)] for an [int]: decimal digits, a minus sign when negative. *)
Definition str_of_int (z : Z) : str :=
  list_ascii_of_string (NilZero.string_of_int (Z.to_int z)).

(** [int(s)] on such a text. *)
Definition int_of_str (s : str) : option Z :=
  option_map Z.of_int (NilZero.int_of_string (string_of_list_ascii s)).

(* ================================================================= *)
(** ** The fragment of [re] the parser uses *)

Module Re.

Inductive regex : Type :=
| Eps : regex
| Chr : (ascii -> bool) -> regex          (* a character or a class *)
| Seq : regex -> regex -> regex
| Alt : regex -> regex -> regex           (* left branch first *)
| Star : regex -> regex                   (* greedy [*] *)
| Bol : regex                             (* [^] under re.MULTILINE *)
| Eol : regex                             (* [$] under re.MULTILINE *)
| NotAhead : regex -> regex               (* [(?!...)] *)
| Group : nat -> regex -> regex.          (* capturing group *)

(** A position of the matcher: the character before it (none at the
    start of the subject), the text still to read, and the groups
    captured on the current path. *)
Record mstate : Type := MState {
  ms_prev : option ascii;
  ms_rest : str;
  ms_caps : list (nat * str)
}.

Definition at_bol (st : mstate) : bool :=
  match ms_prev st with
  | None => true
  | Some c => Ascii.eqb c NL
  end.

Definition at_eol (st : mstate) : bool :=
  match ms_rest st with
  | [] => true
  | c :: _ => Ascii.eqb c NL
  end.

(** Text read between two positions of one path. *)
Definition consumed (st st' : mstate) : str :=
  firstn (length (ms_rest st) - length (ms_rest st')) (ms_rest st).

Definition set_cap (n : nat) (st st' : mstate) : mstate :=
  MState (ms_prev st') (ms_rest st') ((n, consumed st st') :: ms_caps st').

Definition progress (st st' : mstate) : bool :=
  length (ms_rest st') <? length (ms_rest st).

(** The matcher is written in continuation-passing style: [k] is the
    rest of the pattern and answers with the final position of a match;
    [None] makes the matcher try its next choice. *)
Definition cont := mstate -> option mstate.

(** Greedy iteration of a body matcher [m]: one more round first, the
    continuation after it.  A round has to read at least one character;
    every starred body of this development does. *)
Fixpoint star_loop (m : mstate -> cont -> option mstate)
         (n : nat) (st : mstate) (k : cont) : option mstate :=
  match n with
  | 0 => k st
  | S n' =>
      match m st (fun st' => if progress st st'
                             then star_loop m n' st' k else None) with
      | Some a => Some a
      | None => k st
      end
  end.

Fixpoint rmatch (r : regex) (st : mstate) (k : cont) : option mstate :=
  match r with
  | Eps => k st
  | Chr p =>
      match ms_rest st with
      | c :: s' => if p c then k (MState (Some c) s' (ms_caps st))
                   else None
      | [] => None
      end
  | Seq r1 r2 => rmatch r1 st (fun st' => rmatch r2 st' k)
  | Alt r1 r2 =>
      match rmatch r1 st k with
      | Some a => Some a
      | None => rmatch r2 st k
      end
  | Star r' => star_loop (rmatch r') (length (ms_rest st)) st k
  | Bol => if at_bol st then k st else None
  | Eol => if at_eol st then k st else None
  | NotAhead r' =>
      match rmatch r' st Some with
      | Some _ => None
      | None => k st
      end
  | Group n r' => rmatch r' st (fun st' => k (set_cap n st st'))
  end.

(** Derived forms. *)
Definition Plus (r : regex) : regex := Seq r (Star r).      (* [r+] *)
Definition Opt (r : regex) : regex := Alt r Eps.            (* [r?] *)
Definition Lit (w : str) : regex :=                         (* literal *)
  fold_right (fun c r => Seq (Chr (Ascii.eqb c)) r) Eps w.

(** A match object: where the match starts in the subject and the
    position at its end (which carries the groups). *)
Record rmatch_obj : Type := MatchObj {
  m_start : nat;
  m_final : mstate
}.

(** [re.search] from a position on: the leftmost start that matches. *)
Fixpoint search_at (r : regex) (off : nat) (prev : option ascii)
         (s : str) : option rmatch_obj :=
  match rmatch r (MState prev s []) Some with
  | Some e => Some (MatchObj off e)
  | None =>
      match s with
      | [] => None
      | c :: s' => search_at r (S off) (Some c) s'
      end
  end.

Definition search (r : regex) (s : str) : option rmatch_obj :=
  search_at r 0 None s.

(** [m.group(n)]; [None] when the group took no part in the match. *)
Fixpoint lookup_cap (n : nat) (caps : list (nat * str)) : option str :=
  match caps with
  | [] => None
  | (i, w) :: caps' => if Nat.eqb i n then Some w else lookup_cap n caps'
  end.

Definition group (n : nat) (m : rmatch_obj) : option str :=
  lookup_cap n (ms_caps (m_final m)).

(** [s[m.end():]] *)
Definition after (m : rmatch_obj) : str := ms_rest (m_final m).

(** [re.findall] for a pattern with one group: the group of every match,
    scanning on from the end of the previous match ([''] for a group
    that took no part).  After a match that read nothing the scan moves
    one character on. *)
Fixpoint findall_loop (fuel : nat) (r : regex) (prev : option ascii)
         (s : str) : list str :=
  match fuel with
  | 0 => []
  | S fuel' =>
      match search_at r 0 prev s with
      | None => []
      | Some m =>
          let g := match group 1 m with Some w => w | None => [] end in
          let st := m_final m in
          let s0 := skipn (m_start m) s in
          if length (ms_rest st) <? length s0
          then g :: findall_loop fuel' r (ms_prev st) (ms_rest st)
          else match s0 with
               | [] => [g]
               | c :: s1 => g :: findall_loop fuel' r (Some c) s1
               end
      end
  end.

Definition findall (r : regex) (s : str) : list str :=
  findall_loop (S (length s)) r None s.

End Re.

Import Re.

(** Right-nested concatenation of the parts of a pattern. *)
Definition seqs (rs : list regex) : regex := fold_right Seq Eps rs.

Definition ch (c : ascii) : regex := Chr (Ascii.eqb c).
Definition space : regex := Chr is_space.          (* [\s] *)
Definition dot : regex := Chr not_newline.         (* [.] *)

(* ================================================================= *)
(** ** defects_manager.py: the output parser *)

(** What a Python function does: it returns a value, or it faults, which
    stands for a raised exception ([re.findall] given [None]) and for
    [None] stored where the record declares a [str]. *)
Inductive outcome (A : Type) : Type :=
| Ok : A -> outcome A
| Fault : outcome A.
Arguments Fault {A}.

Definition bind {A B : Type} (x : outcome A) (f : A -> outcome B)
  : outcome B :=
  match x with
  | Ok a => f a
  | Fault => Fault
  end.

Notation "x <- e ;; k" := (bind e (fun x => k))
  (at level 61, e at next level, right associativity).

(** [m.group(1)] used as a string. *)
Definition group1 (m : rmatch_obj) : outcome str :=
  match group 1 m with
  | Some w => Ok w
  | None => Fault
  end.

(** The dictionary [_parse_bug_info] returns. *)
Record info : Type := Info {
  info_triggering_tests : list str;
  info_bug_report_url : str;
  info_patch : str;
  info_modified_classes : list str
}.

(** [(?:^[ \t].*\n)+]: a run of indented, newline-terminated lines. *)
Definition line_re : regex := seqs [Bol; Chr is_blank; Star dot; ch NL].
Definition indented_lines : regex := Plus line_re.

(** [r"Root cause in triggering tests:\s*\n((?:^[ \t].*\n)+)"] *)
Definition tests_header : str := chars "Root cause in triggering tests:".
Definition tests_re : regex :=
  seqs [Lit tests_header; Star space; ch NL; Group 1 indented_lines].

(** [r"Bug report url:\s*(.+)"] *)
Definition url_header : str := chars "Bug report url:".
Definition url_re : regex :=
  seqs [Lit url_header; Star space; Group 1 (Plus dot)].

(** [r"List of modified sources:\s*\n((?:^[ \t].*\n)+)"] *)
Definition sources_header : str := chars "List of modified sources:".
Definition sources_re : regex :=
  seqs [Lit sources_header; Star space; ch NL; Group 1 indented_lines].

(** [r"^\s*-\s*(.+)$"] *)
Definition bullet_re : regex :=
  seqs [Bol; Star space; ch "-"; Star space; Group 1 (Plus dot); Eol].

(** [r"^\s*-\s+(?!->)(.+)$"] *)
Definition test_bullet_re : regex :=
  seqs [Bol; Star space; ch "-"; Plus space; NotAhead (Lit (chars "->"));
       Group 1 (Plus dot); Eol].

(** The body the two copies of [_parse_bug_info] share; they differ in the
    pattern [tests_bullet] that reads the triggering-tests block.  The
    [print] calls are left out. *)
Definition parse_bug_info_with (tests_bullet : regex) (info_output : str)
  : outcome info :=
  tests <-
    match search tests_re info_output with
    | Some tests_match =>
        block <- group1 tests_match ;;
        Ok (findall tests_bullet block)
    | None => Ok []
    end ;;
  url <-
    match search url_re info_output with
    | Some url_match => group1 url_match
    | None => Ok []
    end ;;
  sources <-
    match search sources_re info_output with
    | Some sources_match =>
        sources_block <- group1 sources_match ;;
        Ok (findall bullet_re sources_block)
    | None => Ok []
    end ;;
  Ok (Info tests url [] sources).

Module DefectsManager.
(** defects_manager.py, lines 78-146 *)
Definition _parse_bug_info (info_output : str) : outcome info :=
  parse_bug_info_with test_bullet_re info_output.
End DefectsManager.

Module MiningBuggyCodeLogs.
(** mining_buggy_code_logs.py, lines 151-217 *)
Definition _parse_bug_info (info_output : str) : outcome info :=
  parse_bug_info_with bullet_re info_output.
End MiningBuggyCodeLogs.

(** [_extract_error_from_failing_tests], the same text in both files. *)
Definition test_name_variants (test_name : str) : list str :=
  [ test_name;
    replace (chars "::") (chars ".") test_name;
    if contains (chars "::") test_name
    then split_head (chars "::") test_name else test_name ].

(** The header pattern of the loop, under (?m): [^], three dashes, [\s*],
    the escaped variant, then optionally [\s+] and group 1 = the rest of
    the line, then [$]. *)
Definition header_re (variant : str) : regex :=
  seqs [Bol; Lit (chars "---"); Star space; Lit variant;
       Opt (Seq (Plus space) (Group 1 (Star dot))); Eol].

(** [r"(?m)^---\s"] *)
Definition next_header_re : regex := seqs [Bol; Lit (chars "---"); space].

(** One round of the loop over the variants: [None] is [continue] (or
    falling out of the [if] at the end of the body). *)
Definition extract_variant (content variant : str) : option str :=
  match search (header_re variant) content with
  | None => None
  | Some header_match =>
      let header_extra :=
        match group 1 header_match with Some e => e | None => [] end in
      let tail := after header_match in          (* content[start_pos:] *)
      let section :=                             (* content[start_pos:end_pos] *)
        match search next_header_re tail with
        | Some next_header => firstn (m_start next_header) tail
        | None => tail
        end in
      let rest_block := rstrip (lstrip_crlf section) in
      let error_section :=
        if truthy header_extra
        then rstrip header_extra ++ [NL] ++ rest_block
        else rest_block in
      if truthy (strip error_section) then Some error_section else None
  end.

Fixpoint first_some (content : str) (variants : list str) : option str :=
  match variants with
  | [] => None
  | variant :: rest =>
      match extract_variant content variant with
      | Some error_section => Some error_section
      | None => first_some content rest
      end
  end.

Definition _extract_error_from_failing_tests (content test_name : str)
  : option str :=
  first_some content (test_name_variants test_name).

(* ================================================================= *)
(** ** utils.py: the records *)

(** An instant: microseconds since the start of the calendar. *)
Definition datetime := Z.

(** [t + timedelta(seconds=n)] *)
Definition plus_seconds (t : datetime) (n : Z) : datetime :=
  (t + n * 1000000)%Z.

Section Pipeline.

(** Python's floats, and the two library functions on instants and
    floats that turn them into text. *)
Variable pyfloat : Type.
Variable isoformat : datetime -> str.
Variable float_repr : pyfloat -> str.

(** The values a metadata dictionary or an exported record holds. *)
Unset Elimination Schemes.
Inductive pyval : Type :=
| PNone : pyval
| PStr : str -> pyval
| PInt : Z -> pyval
| PFloat : pyfloat -> pyval
| PList : list pyval -> pyval
| PDict : list (str * pyval) -> pyval.
Set Elimination Schemes.

Definition pydict := list (str * pyval).

Record Defects4JBug : Type := {
  project : str;
  bug_id : str;
  triggering_tests : list str;
  bug_report_url : str;
  patch : str;
  modified_classes : list str;
  checkout_path : option str
}.

Record TestOutput : Type := {
  test_name : str;
  status : str;
  error_message : option str;
  stack_trace : option str;
  execution_time : pyfloat;
  timestamp : datetime
}.

Record LogEntry : Type := {
  log_timestamp : str;
  level : str;
  source : str;
  message : str;
  metadata : option pydict
}.

Record SyntheticDebugSession : Type := {
  bug_info : Defects4JBug;
  test_outputs : list TestOutput;
  log_sequence : list LogEntry;
  investigation_timeline : list str;
  root_cause_summary : str
}.

(** The record [get_bug_info] builds from the dictionary. *)
Definition bug_of_info (project bug_id : str) (i : info) : Defects4JBug :=
  {| project := project; bug_id := bug_id;
     triggering_tests := info_triggering_tests i;
     bug_report_url := info_bug_report_url i;
     patch := info_patch i;
     modified_classes := info_modified_classes i;
     checkout_path := None |}.

Definition opt_str (o : option str) : pyval :=
  match o with Some s => PStr s | None => PNone end.

(** Truth value of an [Optional[str]]. *)
Definition truthy_opt (o : option str) : bool :=
  match o with Some s => truthy s | None => false end.

Definition is_fail (t : TestOutput) : bool :=
  str_eqb (status t) (chars "FAIL").

Definition len {A : Type} (l : list A) : Z := Z.of_nat (length l).

(* =============================================================== *)
(** ** synthetic_log_generator.py *)

Record SyntheticLogGenerator : Type := { base_time : datetime }.

(** [__init__]: the only place that reads the clock. *)
Definition init (now : datetime) : SyntheticLogGenerator :=
  {| base_time := now |}.

Definition phase : Type := (list LogEntry * list str)%type.

Definition _generate_setup_phase (self : SyntheticLogGenerator)
           (bug : Defects4JBug) (test_outputs : list TestOutput) : phase :=
  let t := base_time self in
  let logs := [] in
  let steps := [] in
  let logs := logs ++ [
    {| log_timestamp := isoformat t;
       level := chars "INFO";
       source := chars "build";
       message := chars "Building " ++ project bug ++ chars " project (bug "
                  ++ bug_id bug ++ chars ")";
       metadata := Some [ (chars "project", PStr (project bug));
                          (chars "bug_id", PStr (bug_id bug)) ] |} ] in
  let steps := steps ++ [
    chars "Started investigating " ++ project bug ++ chars " bug #"
    ++ bug_id bug ] in
  let t := plus_seconds t 5 in
  let logs := logs ++ [
    {| log_timestamp := isoformat t;
       level := chars "INFO";
       source := chars "test_runner";
       message := chars "Running test suite ("
                  ++ str_of_int (len test_outputs) ++ chars " tests)";
       metadata := Some [ (chars "test_count",
                           PInt (len test_outputs)) ] |} ] in
  let steps := steps ++ [ chars "Executed test suite to reproduce issue" ] in
  (logs, steps).

(** The state the loop of the failure phase updates. *)
Record loop_state : Type := {
  ls_t : datetime;
  ls_logs : list LogEntry;
  ls_steps : list str
}.

(** One round of [for i, test_output in enumerate(test_outputs)]. *)
Definition failure_step (st : loop_state) (test_output : TestOutput)
  : loop_state :=
  if is_fail test_output then
    let t := plus_seconds (ls_t st) 2 in
    let logs := ls_logs st ++ [
      {| log_timestamp := isoformat t;
         level := chars "ERROR";
         source := chars "test";
         message := chars "Test failed: " ++ test_name test_output;
         metadata := Some [
           (chars "test_name", PStr (test_name test_output));
           (chars "error", opt_str (error_message test_output));
           (chars "execution_time",
            PFloat (execution_time test_output)) ] |} ] in
    let '(t, logs) :=
      match stack_trace test_output with
      | Some trace =>
          if truthy trace then
            let t := plus_seconds t 1 in
            (t, logs ++ [
              {| log_timestamp := isoformat t;
                 level := chars "ERROR";
                 source := chars "test";
                 message := chars "Stack trace for "
                            ++ test_name test_output;
                 metadata := Some [
                   (chars "stack_trace",
                    PStr (firstn 500 trace)) ] |} ])
          else (t, logs)
      | None => (t, logs)
      end in
    {| ls_t := t; ls_logs := logs;
       ls_steps := ls_steps st ++ [
         chars "Identified failing test: " ++ test_name test_output ] |}
  else st.

Definition _generate_failure_phase (self : SyntheticLogGenerator)
           (bug : Defects4JBug) (test_outputs : list TestOutput) : phase :=
  let st := fold_left failure_step test_outputs
              {| ls_t := plus_seconds (base_time self) 10;
                 ls_logs := []; ls_steps := [] |} in
  (ls_logs st, ls_steps st).

(** One round of [for i, class_name in enumerate(bug.modified_classes[:3])]. *)
Definition investigation_step (st : loop_state) (class_name : str)
  : loop_state :=
  let t := plus_seconds (ls_t st) 10 in
  {| ls_t := t;
     ls_logs := ls_logs st ++ [
       {| log_timestamp := isoformat t;
          level := chars "DEBUG";
          source := chars "debugger";
          message := chars "Examining class: " ++ class_name;
          metadata := Some [
            (chars "class", PStr class_name);
            (chars "methods_checked",
             PList [PStr (chars "method1"); PStr (chars "method2")]) ] |} ];
     ls_steps := ls_steps st ++ [ chars "Analyzed " ++ class_name ] |}.

Definition _generate_investigation_phase (self : SyntheticLogGenerator)
           (bug : Defects4JBug) : phase :=
  let t := plus_seconds (base_time self) 60 in       (* minutes=1 *)
  let logs := [
    {| log_timestamp := isoformat t;
       level := chars "DEBUG";
       source := chars "debugger";
       message := chars "Starting code investigation";
       metadata := Some [
         (chars "modified_classes",
          PList (map PStr (modified_classes bug))) ] |} ] in
  let steps := [ chars "Began examining modified classes" ] in
  let st := fold_left investigation_step (firstn 3 (modified_classes bug))
              {| ls_t := t; ls_logs := logs; ls_steps := steps |} in
  (ls_logs st, ls_steps st).

Definition _infer_root_cause_from_patch (patch : str) : str :=
  if negb (truthy patch) then chars "Logic error in implementation"
  else if contains (chars "null") (lower patch)
  then chars "Null pointer handling issue"
  else if contains (chars "bound") (lower patch)
          || contains (chars "index") (lower patch)
  then chars "Array bounds or indexing error"
  else if contains (chars "assert") (lower patch)
  then chars "Assertion or validation error"
  else if contains (chars "==") patch || contains (chars "!=") patch
  then chars "Comparison or equality check error"
  else chars "Logic error in implementation".

Definition _generate_discovery_phase (self : SyntheticLogGenerator)
           (bug : Defects4JBug) : phase :=
  let t := plus_seconds (base_time self) 120 in      (* minutes=2 *)
  let root_cause_hint := _infer_root_cause_from_patch (patch bug) in
  let logs := [
    {| log_timestamp := isoformat t;
       level := chars "INFO";
       source := chars "debugger";
       message := chars "Root cause identified: " ++ root_cause_hint;
       metadata := Some [ (chars "bug_url",
                           PStr (bug_report_url bug)) ] |} ] in
  let steps := [ chars "Discovered root cause: " ++ root_cause_hint ] in
  let t := plus_seconds t 5 in
  let logs := logs ++ [
    {| log_timestamp := isoformat t;
       level := chars "DEBUG";
       source := chars "debugger";
       message := chars "Analyzing patch differences";
       metadata := Some [ (chars "modified_files",
                           PInt (len (modified_classes bug))) ] |} ] in
  let steps := steps ++ [ chars "Reviewed patch to understand fix" ] in
  (logs, steps).

Definition _generate_resolution_phase (self : SyntheticLogGenerator)
           (bug : Defects4JBug) : phase :=
  let t := plus_seconds (base_time self) 180 in      (* minutes=3 *)
  let logs := [
    {| log_timestamp := isoformat t;
       level := chars "INFO";
       source := chars "vcs";
       message := chars "Applying patch to fix bug";
       metadata := Some [ (chars "bug_id", PStr (bug_id bug)) ] |} ] in
  let steps := [ chars "Applied patch from fixed version" ] in
  let t := plus_seconds t 10 in
  let logs := logs ++ [
    {| log_timestamp := isoformat t;
       level := chars "INFO";
       source := chars "test_runner";
       message := chars "Re-running tests after fix";
       metadata := Some [ (chars "expected_result",
                           PStr (chars "PASS")) ] |} ] in
  let steps := steps ++ [ chars "Verified fix by re-running tests" ] in
  let t := plus_seconds t 5 in
  let logs := logs ++ [
    {| log_timestamp := isoformat t;
       level := chars "INFO";
       source := chars "test";
       message := chars "All tests passing after fix";
       metadata := Some [ (chars "status",
                           PStr (chars "SUCCESS")) ] |} ] in
  let steps := steps ++ [ chars "Confirmed all tests now pass" ] in
  (logs, steps).

Definition _generate_root_cause_summary (bug : Defects4JBug)
           (test_outputs : list TestOutput) : str :=
  let failed_tests := filter is_fail test_outputs in
  let summary := chars "Bug in " ++ project bug ++ chars " (#"
                 ++ bug_id bug ++ chars "): " in
  let summary := summary ++ str_of_int (len failed_tests)
                 ++ chars " test(s) failed. " in
  let summary := summary ++ chars "Root cause located in "
                 ++ join (chars ", ") (firstn 2 (modified_classes bug))
                 ++ chars ". " in
  match failed_tests with
  | first :: _ =>
      match error_message first with
      | Some msg =>
          if truthy msg
          then summary ++ chars "Error: " ++ firstn 100 msg ++ chars "..."
          else summary
      | None => summary
      end
  | [] => summary
  end.

Definition generate_debug_session (self : SyntheticLogGenerator)
           (bug : Defects4JBug) (test_outputs : list TestOutput)
  : SyntheticDebugSession :=
  let log_sequence := [] in
  let investigation_timeline := [] in
  let '(phase1_logs, phase1_steps) :=
    _generate_setup_phase self bug test_outputs in
  let log_sequence := log_sequence ++ phase1_logs in
  let investigation_timeline := investigation_timeline ++ phase1_steps in
  let '(phase2_logs, phase2_steps) :=
    _generate_failure_phase self bug test_outputs in
  let log_sequence := log_sequence ++ phase2_logs in
  let investigation_timeline := investigation_timeline ++ phase2_steps in
  let '(phase3_logs, phase3_steps) :=
    _generate_investigation_phase self bug in
  let log_sequence := log_sequence ++ phase3_logs in
  let investigation_timeline := investigation_timeline ++ phase3_steps in
  let '(phase4_logs, phase4_steps) :=
    _generate_discovery_phase self bug in
  let log_sequence := log_sequence ++ phase4_logs in
  let investigation_timeline := investigation_timeline ++ phase4_steps in
  let '(phase5_logs, phase5_steps) :=
    _generate_resolution_phase self bug in
  let log_sequence := log_sequence ++ phase5_logs in
  let investigation_timeline := investigation_timeline ++ phase5_steps in
  let root_cause := _generate_root_cause_summary bug test_outputs in
  {| bug_info := bug;
     test_outputs := test_outputs;
     log_sequence := log_sequence;
     investigation_timeline := investigation_timeline;
     root_cause_summary := root_cause |}.

(* ================================================================= *)
(** ** dataset_exporter.py *)

(** [json.dumps]: the escape of one character of a string. *)
Definition hex_digit (n : nat) : ascii :=
  nth n (chars "0123456789abcdef") "0"%char.

Definition escape_char (c : ascii) : str :=
  let n := code c in
  if Ascii.eqb c DQ then [BSL; DQ]
  else if Ascii.eqb c BSL then [BSL; BSL]
  else if Ascii.eqb c NL then [BSL; "n"%char]
  else if Ascii.eqb c CR then [BSL; "r"%char]
  else if Ascii.eqb c "009"%char then [BSL; "t"%char]
  else if Ascii.eqb c "008"%char then [BSL; "b"%char]
  else if Ascii.eqb c "012"%char then [BSL; "f"%char]
  else if (32 <=? n) && (n <=? 126) then [c]
  else [BSL; "u"%char; "0"%char; "0"%char;
        hex_digit (n / 16); hex_digit (n mod 16)].

Definition encode_str (s : str) : str :=
  DQ :: flat_map escape_char s ++ [DQ].

(** [json.dumps(v)] with the default separators. *)
Fixpoint dumps (v : pyval) : str :=
  match v with
  | PNone => chars "null"
  | PStr s => encode_str s
  | PInt z => str_of_int z
  | PFloat x => float_repr x
  | PList l => "["%char :: join (chars ", ") (map dumps l) ++ ["]"%char]
  | PDict d =>
      "{"%char
      :: join (chars ", ")
           (map (fun kv => let '(k, v) := kv in
                           encode_str k ++ chars ": " ++ dumps v) d)
      ++ ["}"%char]
  end.

(** [asdict(log)] *)
Definition asdict_log (log : LogEntry) : pyval :=
  PDict [ (chars "timestamp", PStr (log_timestamp log));
          (chars "level", PStr (level log));
          (chars "source", PStr (source log));
          (chars "message", PStr (message log));
          (chars "metadata", match metadata log with
                             | Some d => PDict d
                             | None => PNone
                             end) ].

(** The record [export_to_jsonl] writes for a session. *)
Definition jsonl_entry (session : SyntheticDebugSession) : pyval :=
  PDict [ (chars "bug_id",
           PStr (project (bug_info session) ++ chars "_"
                 ++ bug_id (bug_info session)));
          (chars "project", PStr (project (bug_info session)));
          (chars "logs", PList (map asdict_log (log_sequence session)));
          (chars "timeline",
           PList (map PStr (investigation_timeline session)));
          (chars "root_cause", PStr (root_cause_summary session)) ].

(** [export_to_jsonl]: the text of the file after the loop, every
    [f.write] adding to what is there. *)
Definition export_to_jsonl (sessions : list SyntheticDebugSession) : str :=
  fold_left (fun f session => f ++ dumps (jsonl_entry session) ++ [NL])
            sessions [].

End Pipeline.

Arguments PNone {pyfloat}.
Arguments PStr {pyfloat} _.
Arguments PInt {pyfloat} _.
Arguments PList {pyfloat} _.
Arguments PDict {pyfloat} _.
Arguments opt_str {pyfloat} _.
Arguments _generate_investigation_phase {pyfloat} isoformat self bug.
Arguments _generate_discovery_phase {pyfloat} isoformat self bug.
Arguments _generate_resolution_phase {pyfloat} isoformat self bug.

(* ================================================================= *)
(** ** Notions the specification uses *)

(** [w] occurs in [s]. *)
Definition occurs (w s : str) : Prop :=
  exists pre post, s = pre ++ w ++ post.

(** The keyword [kw] (given in lower case) occurs in [s] in some mix of
    upper and lower case. *)
Definition mentions (kw s : str) : Prop :=
  exists pre mid post, s = pre ++ mid ++ post /\ lower mid = kw.

Section SpecNotions.
Variable pyfloat : Type.
Variable isoformat : datetime -> str.

(** Number of outcomes with status FAIL, and of those among them that
    carry a (non-empty) stack trace. *)
Definition count_fail (outs : list (TestOutput pyfloat)) : nat :=
  length (filter (@is_fail pyfloat) outs).

Definition has_trace (t : TestOutput pyfloat) : bool :=
  is_fail t && truthy_opt (stack_trace t).

Definition count_traces (outs : list (TestOutput pyfloat)) : nat :=
  length (filter has_trace outs).

(** The entries of the failure phase, by recursion over the outcomes,
    for a phase whose clock stands at [t]. *)
Definition failure_entry (t : datetime) (o : TestOutput pyfloat) : LogEntry pyfloat :=
  {| log_timestamp := isoformat t;
     level := chars "ERROR";
     source := chars "test";
     message := chars "Test failed: " ++ test_name o;
     metadata := Some [
       (chars "test_name", PStr (test_name o));
       (chars "error", opt_str (error_message o));
       (chars "execution_time", PFloat (execution_time o)) ] |}.

Definition trace_entry (t : datetime) (o : TestOutput pyfloat) (trace : str)
  : LogEntry pyfloat :=
  {| log_timestamp := isoformat t;
     level := chars "ERROR";
     source := chars "test";
     message := chars "Stack trace for " ++ test_name o;
     metadata := Some [ (chars "stack_trace",
                         PStr (firstn 500 trace)) ] |}.

Fixpoint failure_entries (t : datetime) (outs : list (TestOutput pyfloat))
  : list (LogEntry pyfloat) :=
  match outs with
  | [] => []
  | o :: outs' =>
      if is_fail o then
        match stack_trace o with
        | Some (c :: trace) =>
            failure_entry (plus_seconds t 2) o
            :: trace_entry (plus_seconds t 3) o (c :: trace)
            :: failure_entries (plus_seconds t 3) outs'
        | _ => failure_entry (plus_seconds t 2) o
               :: failure_entries (plus_seconds t 2) outs'
        end
      else failure_entries t outs'
  end.

Definition failure_steps (outs : list (TestOutput pyfloat)) : list str :=
  map (fun o => chars "Identified failing test: " ++ test_name o)
      (filter (@is_fail pyfloat) outs).

(** The entries of the investigation phase: the start entry, and the
    per-class entries by recursion over the classes. *)
Definition start_entry (self : SyntheticLogGenerator) (bug : Defects4JBug)
  : LogEntry pyfloat :=
  {| log_timestamp := isoformat (plus_seconds (base_time self) 60);
     level := chars "DEBUG";
     source := chars "debugger";
     message := chars "Starting code investigation";
     metadata := Some [
       (chars "modified_classes",
        PList (map PStr (modified_classes bug))) ] |}.

Definition class_entry (t : datetime) (class_name : str)
  : LogEntry pyfloat :=
  {| log_timestamp := isoformat t;
     level := chars "DEBUG";
     source := chars "debugger";
     message := chars "Examining class: " ++ class_name;
     metadata := Some [
       (chars "class", PStr class_name);
       (chars "methods_checked",
        PList [PStr (chars "method1"); PStr (chars "method2")]) ] |}.

Fixpoint class_entries (t : datetime) (classes : list str)
  : list (LogEntry pyfloat) :=
  match classes with
  | [] => []
  | c :: classes' =>
      class_entry (plus_seconds t 10) c
      :: class_entries (plus_seconds t 10) classes'
  end.

(** Seconds after the session start at which the entries of the failure
    phase are stamped, for a phase whose clock stands [d] seconds in. *)
Fixpoint failure_offsets (d : Z) (outs : list (TestOutput pyfloat)) : list Z :=
  match outs with
  | [] => []
  | o :: outs' =>
      if is_fail o then
        if truthy_opt (stack_trace o)
        then (d + 2) :: (d + 3) :: failure_offsets (d + 3) outs'
        else (d + 2) :: failure_offsets (d + 2) outs'
      else failure_offsets d outs'
  end%Z.

(** The same for [n] per-class entries of the investigation phase. *)
Fixpoint class_offsets (d : Z) (n : nat) : list Z :=
  match n with
  | 0 => []
  | S n' => (d + 10)%Z :: class_offsets (d + 10)%Z n'
  end.

(** Seconds after the session start of every entry of a session. *)
Definition schedule (bug : Defects4JBug) (outs : list (TestOutput pyfloat))
  : list Z :=
  ([0; 5] ++ failure_offsets 10 outs
   ++ 60 :: class_offsets 60 (Nat.min 3 (length (modified_classes bug)))
   ++ [120; 125] ++ [180; 190; 195])%Z.

(** A log entry without its time stamp. *)
Definition unstamped (e : LogEntry pyfloat) : str * str * str * option (pydict pyfloat) :=
  (level e, source e, message e, metadata e).

(** The fixed part of the root-cause summary. *)
Definition summary_template (bug : Defects4JBug) (outs : list (TestOutput pyfloat))
  : str :=
  chars "Bug in " ++ project bug ++ chars " (#" ++ bug_id bug
  ++ chars "): " ++ str_of_int (Z.of_nat (count_fail outs))
  ++ chars " test(s) failed. " ++ chars "Root cause located in "
  ++ join (chars ", ") (firstn 2 (modified_classes bug)) ++ chars ". ".

(** The excerpt of an error message the summary appends. *)
Definition excerpt (msg : str) : str :=
  chars "Error: " ++ firstn 100 msg ++ chars "...".

(** The root-cause summary as the specification words it: the template,
    and the excerpt of the error message of a failing outcome whenever
    some failing outcome carries one. *)
Definition summary_as_specified (bug : Defects4JBug)
           (outs : list (TestOutput pyfloat)) (summary : str) : Prop :=
  ((exists o msg, In o outs /\ is_fail o = true
                  /\ error_message o = Some msg /\ msg <> []) ->
   exists o msg, In o outs /\ is_fail o = true
                 /\ error_message o = Some msg /\ msg <> []
                 /\ summary = summary_template bug outs ++ excerpt msg)
  /\ (~ (exists o msg, In o outs /\ is_fail o = true
                       /\ error_message o = Some msg /\ msg <> []) ->
      summary = summary_template bug outs).

(** The message the summary quotes: that of the first failing outcome,
    when it has a non-empty one. *)
Definition quoted_message (outs : list (TestOutput pyfloat)) : option str :=
  match find (@is_fail pyfloat) outs with
  | Some o =>
      match error_message o with
      | Some (c :: msg) => Some (c :: msg)
      | _ => None
      end
  | None => None
  end.

End SpecNotions.

Arguments class_entry {pyfloat} isoformat t class_name.
Arguments class_entries {pyfloat} isoformat t classes.
Arguments start_entry {pyfloat} isoformat self bug.

(* ================================================================= *)
(** ** What a pattern matches, and where the matcher backtracks *)

(** [matches r st st']: the pattern [r] can read from position [st] to
    position [st'].  The matcher only ever answers through such a path. *)
Inductive matches : regex -> mstate -> mstate -> Prop :=
| M_Eps st : matches Eps st st
| M_Chr p c s prev caps :
    p c = true ->
    matches (Chr p) (MState prev (c :: s) caps) (MState (Some c) s caps)
| M_Seq r1 r2 st st1 st2 :
    matches r1 st st1 -> matches r2 st1 st2 -> matches (Seq r1 r2) st st2
| M_AltL r1 r2 st st' : matches r1 st st' -> matches (Alt r1 r2) st st'
| M_AltR r1 r2 st st' : matches r2 st st' -> matches (Alt r1 r2) st st'
| M_Star0 r st : matches (Star r) st st
| M_StarS r st st1 st2 :
    matches r st st1 -> progress st st1 = true ->
    matches (Star r) st1 st2 -> matches (Star r) st st2
| M_Bol st : at_bol st = true -> matches Bol st st
| M_Eol st : at_eol st = true -> matches Eol st st
| M_NotAhead r st : rmatch r st Some = None -> matches (NotAhead r) st st
| M_Group n r st st' :
    matches r st st' -> matches (Group n r) st (set_cap n st st').

(** The choices of a greedy star over a character class [p], as a
    recursion over the text: read on while [p] holds, and come back to
    each position, the farthest first, when the continuation refuses. *)
Fixpoint backtrack (p : ascii -> bool) (prev : option ascii) (s : str)
         (caps : list (nat * str)) (k : cont) : option mstate :=
  match s with
  | c :: s' =>
      if p c then
        match backtrack p (Some c) s' caps k with
        | Some e => Some e
        | None => k (MState prev s caps)
        end
      else k (MState prev s caps)
  | [] => k (MState prev [] caps)
  end.

(** The text after a run of the class does not go on with the class. *)
Definition stops (p : ascii -> bool) (b : str) : Prop :=
  match b with
  | [] => True
  | c :: _ => p c = false
  end.

(** The position after reading [w] from a position whose previous
    character is [prev]. *)
Fixpoint prev_after (prev : option ascii) (w : str) : option ascii :=
  match w with
  | [] => prev
  | c :: w' => prev_after (Some c) w'
  end.

(** A position at the start of the subject or just after a newline. *)
Definition line_start (prev : option ascii) : Prop :=
  prev = None \/ prev = Some NL.

(** Where [w] first occurs in [s] (the length of [s] when it does not). *)
Fixpoint scan (w s : str) : nat :=
  if starts_with w s then 0
  else match s with
       | [] => 0
       | _ :: s' => S (scan w s')
       end.

(** [w] occurs in [s] for the first time after [pre]. *)
Definition first_occurrence (w pre s : str) : Prop :=
  (exists post, s = pre ++ w ++ post)
  /\ forall pre' post', s = pre' ++ w ++ post' -> length pre <= length pre'.

(* ================================================================= *)
(** ** Well-formed output of [defects4j info] *)

(** A line of the triggering-tests block: a bulleted test identifier, or
    the exception detail that follows one. *)
Inductive block_line : Type :=
| TestLine (indent sep name : str)          (* indent [-] sep name *)
| DetailLine (indent detail : str).         (* indent [-->] detail *)

Definition line_text (l : block_line) : str :=
  match l with
  | TestLine indent sep name => indent ++ "-"%char :: sep ++ name
  | DetailLine indent detail => indent ++ chars "-->" ++ detail
  end.

(** Lines, each with its newline. *)
Definition unlines (ls : list str) : str :=
  concat (map (fun l => l ++ [NL]) ls).

Definition render_block (lines : list block_line) : str :=
  unlines (map line_text lines).

(** A non-empty run of spaces and tabs. *)
Definition blanks (s : str) : Prop := s <> [] /\ forallb is_blank s = true.

(** Text without a newline. *)
Definition one_line (s : str) : Prop := forallb not_newline s = true.

(** An indented line: a space or a tab, then text on one line. *)
Definition indented (l : str) : Prop :=
  exists b body, l = b :: body /\ is_blank b = true /\ one_line body.

(** A test identifier: text on one line that begins with a character
    other than white space and does not begin with [->]. *)
Definition identifier (name : str) : Prop :=
  one_line name /\ starts_with (chars "->") name = false
  /\ exists c n, name = c :: n /\ is_space c = false.

Definition line_ok (l : block_line) : Prop :=
  match l with
  | TestLine indent sep name => blanks indent /\ blanks sep /\ identifier name
  | DetailLine indent detail => blanks indent /\ one_line detail
  end.

(** The bulleted identifiers of a block, in their order. *)
Definition test_names (lines : list block_line) : list str :=
  flat_map (fun l => match l with
                     | TestLine _ _ name => [name]
                     | DetailLine _ _ => []
                     end) lines.

(** [text] is tool-info text whose first triggering-tests header stands
    after [pre] and is followed by the block [lines]; [post], the text
    after the block, does not begin with a space or a tab. *)
Record well_formed_info (pre : str) (lines : list block_line)
       (post text : str) : Prop := {
  wf_text : text = pre ++ tests_header ++ NL :: render_block lines ++ post;
  wf_first : first_occurrence tests_header pre text;
  wf_nonempty : lines <> [];
  wf_lines : Forall line_ok lines;
  wf_post : stops is_blank post
}.

(* ================================================================= *)
(** ** Well-formed failing-tests reports *)

(** An entry of the report: the header line [--- name], which may go on
    with a space and a note, and the lines of the body. *)
Record entry : Type := Entry {
  entry_name : str;
  entry_note : option str;
  entry_body : list str
}.

Definition header_line (e : entry) : str :=
  chars "--- " ++ entry_name e
  ++ match entry_note e with
     | Some note => " "%char :: note
     | None => []
     end.

Definition render_entry (e : entry) : str :=
  unlines (header_line e :: entry_body e).

Definition render_report (es : list entry) : str :=
  concat (map render_entry es).















(** The part of an identifier before its first [::]. *)
Definition class_part (t : str) : str := split_head (chars "::") t.





(* ================================================================= *)
(** ** The look-up in the words of the specification *)

(** The lines of a text; a newline ends a line. *)
Fixpoint lines_of (s : str) : list str :=
  match s with
  | [] => []
  | c :: s' =>
      if Ascii.eqb c NL then [] :: lines_of s'
      else match lines_of s' with
           | [] => [[c]]
           | l :: ls => (c :: l) :: ls
           end
  end.











(* ================================================================= *)
(** ** Reading a JSONL file back *)

(** The repository only writes the file.  The reader is Python's
    [json.loads] applied to each line of the file; its model below reads
    the JSON that [json.dumps] writes: [null], strings, integers, floats,
    arrays and objects, with white space between the tokens. *)

Section Reader.

Variable pyfloat : Type.

(** [float(token)] on the text of a number. *)
Variable float_of_str : str -> option pyfloat.

Definition is_json_ws (c : ascii) : bool :=
  Ascii.eqb c " "%char || Ascii.eqb c "009"%char
  || Ascii.eqb c NL || Ascii.eqb c CR.

Definition skip_ws (s : str) : str := lstrip_by is_json_ws s.

Definition is_digit (c : ascii) : bool :=
  (48 <=? code c) && (code c <=? 57).

(** The characters of an integer. *)
Definition is_int_char (c : ascii) : bool :=
  is_digit c || Ascii.eqb c "-"%char.

(** The characters of a number, of [NaN] and of [Infinity]. *)
Definition is_num_char (c : ascii) : bool :=
  is_digit c || contains [c] (chars "+-.eENaInfity").

(** The characters such a token starts with. *)
Definition is_num_start (c : ascii) : bool :=
  is_digit c || contains [c] (chars "-NI").

(** The longest prefix in a class, and the rest. *)
Fixpoint span (p : ascii -> bool) (s : str) : str * str :=
  match s with
  | c :: s' => if p c then let '(a, b) := span p s' in (c :: a, b)
               else ([], s)
  | [] => ([], [])
  end.

Definition unhex (c : ascii) : option nat :=
  let n := code c in
  if (48 <=? n) && (n <=? 57) then Some (n - 48)
  else if (97 <=? n) && (n <=? 102) then Some (n - 87)
  else if (65 <=? n) && (n <=? 70) then Some (n - 55)
  else None.

(** The code point of [\uXXXX], when it is one of a character of the
    model. *)
Definition unescape_u (h1 h2 h3 h4 : ascii) : option ascii :=
  match unhex h1, unhex h2, unhex h3, unhex h4 with
  | Some a, Some b, Some c, Some d =>
      let n := a * 4096 + b * 256 + c * 16 + d in
      if n <? 256 then Some (ascii_of_nat n) else None
  | _, _, _, _ => None
  end.

Definition cons_char (c : ascii) (r : option (str * str))
  : option (str * str) :=
  match r with
  | Some (s, rest) => Some (c :: s, rest)
  | None => None
  end.

(** The characters of a string and the text after its closing quote; the
    opening quote has been read. *)
Fixpoint parse_chars (s : str) : option (str * str) :=
  match s with
  | [] => None
  | c :: s1 =>
      if Ascii.eqb c DQ then Some ([], s1)
      else if Ascii.eqb c BSL then
        match s1 with
        | e :: s2 =>
            if Ascii.eqb e DQ then cons_char DQ (parse_chars s2)
            else if Ascii.eqb e BSL then cons_char BSL (parse_chars s2)
            else if Ascii.eqb e "/"%char
            then cons_char "/"%char (parse_chars s2)
            else if Ascii.eqb e "n"%char then cons_char NL (parse_chars s2)
            else if Ascii.eqb e "r"%char then cons_char CR (parse_chars s2)
            else if Ascii.eqb e "t"%char
            then cons_char "009"%char (parse_chars s2)
            else if Ascii.eqb e "b"%char
            then cons_char "008"%char (parse_chars s2)
            else if Ascii.eqb e "f"%char
            then cons_char "012"%char (parse_chars s2)
            else if Ascii.eqb e "u"%char then
              match s2 with
              | h1 :: h2 :: h3 :: h4 :: s6 =>
                  match unescape_u h1 h2 h3 h4 with
                  | Some x => cons_char x (parse_chars s6)
                  | None => None
                  end
              | _ => None
              end
            else None
        | [] => None
        end
      else if 32 <=? code c then cons_char c (parse_chars s1)
      else None
  end.

(** A number: an integer when the token reads as one, a float otherwise. *)
Definition parse_number (s : str) : option (pyval pyfloat * str) :=
  let '(token, rest) := span is_num_char s in
  match int_of_str token with
  | Some z => Some (PInt z, rest)
  | None =>
      match float_of_str token with
      | Some x => Some (PFloat x, rest)
      | None => None
      end
  end.

(** A value and the text after it.  [parse_elems] reads the elements of
    an array after the first bracket, [parse_members] the members of an
    object after the first brace, up to the closing one. *)
Fixpoint parse_value (fuel : nat) (s : str)
  : option (pyval pyfloat * str) :=
  match fuel with
  | 0 => None
  | S fuel' =>
      match s with
      | [] => None
      | c :: s1 =>
          if Ascii.eqb c DQ then
            match parse_chars s1 with
            | Some (w, rest) => Some (PStr w, rest)
            | None => None
            end
          else if Ascii.eqb c "["%char then
            match skip_ws s1 with
            | c1 :: s2 =>
                if Ascii.eqb c1 "]"%char then Some (PList [], s2)
                else match parse_elems fuel' (c1 :: s2) with
                     | Some (l, rest) => Some (PList l, rest)
                     | None => None
                     end
            | [] => None
            end
          else if Ascii.eqb c "{"%char then
            match skip_ws s1 with
            | c1 :: s2 =>
                if Ascii.eqb c1 "}"%char then Some (PDict [], s2)
                else match parse_members fuel' (c1 :: s2) with
                     | Some (d, rest) => Some (PDict d, rest)
                     | None => None
                     end
            | [] => None
            end
          else if starts_with (chars "null") s
          then Some (PNone, skipn 4 s)
          else if is_num_start c then parse_number s
          else None
      end
  end
with parse_elems (fuel : nat) (s : str)
  : option (list (pyval pyfloat) * str) :=
  match fuel with
  | 0 => None
  | S fuel' =>
      match parse_value fuel' s with
      | Some (v, rest) =>
          match skip_ws rest with
          | c :: s1 =>
              if Ascii.eqb c ","%char then
                match parse_elems fuel' (skip_ws s1) with
                | Some (l, rest') => Some (v :: l, rest')
                | None => None
                end
              else if Ascii.eqb c "]"%char then Some ([v], s1)
              else None
          | [] => None
          end
      | None => None
      end
  end
with parse_members (fuel : nat) (s : str)
  : option (list (str * pyval pyfloat) * str) :=
  match fuel with
  | 0 => None
  | S fuel' =>
      match s with
      | c :: s1 =>
          if Ascii.eqb c DQ then
            match parse_chars s1 with
            | Some (k, rest) =>
                match skip_ws rest with
                | c1 :: s2 =>
                    if Ascii.eqb c1 ":"%char then
                      match parse_value fuel' (skip_ws s2) with
                      | Some (v, rest') =>
                          match skip_ws rest' with
                          | c2 :: s3 =>
                              if Ascii.eqb c2 ","%char then
                                match parse_members fuel' (skip_ws s3) with
                                | Some (d, rest'') =>
                                    Some ((k, v) :: d, rest'')
                                | None => None
                                end
                              else if Ascii.eqb c2 "}"%char
                              then Some ([(k, v)], s3)
                              else None
                          | [] => None
                          end
                      | None => None
                      end
                    else None
                | [] => None
                end
            | None => None
            end
          else None
      | [] => None
      end
  end.

(** [json.loads(line)]: one value, white space around it, nothing more. *)
Definition loads (line : str) : option (pyval pyfloat) :=
  match parse_value (S (length line)) (skip_ws line) with
  | Some (v, rest) =>
      match skip_ws rest with
      | [] => Some v
      | _ :: _ => None
      end
  | None => None
  end.

(** Reading the file back: every line through [json.loads]. *)
Definition read_jsonl (content : str) : list (option (pyval pyfloat)) :=
  map loads (lines_of content).

(** The keys of a record. *)
Definition keys_of (v : pyval pyfloat) : option (list str) :=
  match v with
  | PDict d => Some (map fst d)
  | _ => None
  end.

(** What the text after a number has to begin with for the number to end
    there: nothing, or a character that no number has. *)
Definition delimited (rest : str) : Prop := stops is_num_char rest.

End Reader.

Arguments loads {pyfloat} float_of_str line.
Arguments read_jsonl {pyfloat} float_of_str content.
Arguments parse_value {pyfloat} float_of_str fuel s.
Arguments parse_elems {pyfloat} float_of_str fuel s.
Arguments parse_members {pyfloat} float_of_str fuel s.
Arguments parse_number {pyfloat} float_of_str s.

(** The text of a member of an object. *)
Definition member_text (pyfloat : Type) (float_repr : pyfloat -> str)
           (kv : str * pyval pyfloat) : str :=
  let '(k, v) := kv in encode_str k ++ chars ": " ++ dumps float_repr v.

(** The text of a value, followed by text that no number runs into, reads
    back as the value and leaves that text. *)
Definition reads_back (pyfloat : Type) (float_repr : pyfloat -> str)
           (float_of_str : str -> option pyfloat) (v : pyval pyfloat)
  : Prop :=
  forall fuel rest,
    length (dumps float_repr v) <= fuel -> delimited rest ->
    parse_value float_of_str fuel (dumps float_repr v ++ rest)
    = Some (v, rest).

(** What the round trip asks of the two library functions on floats: the
    text of a float reads back as the float, it is made of the characters
    of numbers, begins like a number and is not the text of an integer. *)
Definition float_text_ok (pyfloat : Type) (float_repr : pyfloat -> str)
           (float_of_str : str -> option pyfloat) : Prop :=
  forall x,
    float_of_str (float_repr x) = Some x
    /\ int_of_str (float_repr x) = None
    /\ forallb is_num_char (float_repr x) = true
    /\ exists c w, float_repr x = c :: w /\ is_num_start c = true.

(** The first character of the text of a value. *)
Definition begins_value (c : ascii) : Prop :=
  is_json_ws c = false /\ Ascii.eqb c "]"%char = false
  /\ Ascii.eqb c "}"%char = false.

(* ================================================================= *)
(** ** Notions for the chronology and the levels of a log *)

(** Instants that never go back: each is at most the next. *)
Fixpoint ascending (l : list Z) : bool :=
  match l with
  | x :: l' => match l' with
               | y :: _ => (x <=? y)%Z && ascending l'
               | [] => true
               end
  | [] => true
  end.

(** An entry of level ERROR. *)
Definition is_error {pyfloat : Type} (e : LogEntry pyfloat) : bool :=
  str_eqb (level e) (chars "ERROR").

(** An entry whose level is one of INFO, DEBUG and ERROR and that carries
    a metadata dictionary. *)
Definition level_ok {pyfloat : Type} (e : LogEntry pyfloat) : Prop :=
  In (level e) [chars "INFO"; chars "DEBUG"; chars "ERROR"]
  /\ metadata e <> None.

(** What the entry [e] quotes of a stack trace: the text [w] under the
    key [stack_trace] of its metadata. *)
Definition quotes_trace {pyfloat : Type} (e : LogEntry pyfloat) (w : str)
  : Prop :=
  exists md, metadata e = Some md /\ In (chars "stack_trace", PStr w) md.

(* ================================================================= *)
(** ** defects_manager.py: running the tool and reading its files *)

(** [s.split(c)] for a separator of one character: the pieces between
    the separators, one more than there are separators. *)
Fixpoint split_on (c : ascii) (s : str) : list str :=
  match s with
  | [] => [[]]
  | x :: s' =>
      if Ascii.eqb x c then [] :: split_on c s'
      else match split_on c s' with
           | l :: ls => (x :: l) :: ls
           | [] => [[x]]
           end
  end.

(** The class [[a-zA-Z0-9_.$:]]. *)
Definition is_test_char (c : ascii) : bool :=
  let n := code c in
  ((97 <=? n) && (n <=? 122)) || ((65 <=? n) && (n <=? 90))
  || ((48 <=? n) && (n <=? 57))
  || Ascii.eqb c "_" || Ascii.eqb c "." || Ascii.eqb c "$"
  || Ascii.eqb c ":".

(** [r"^  - ([a-zA-Z0-9_.$:]+)$"] under re.MULTILINE *)
Definition failing_re : regex :=
  seqs [Bol; Lit (chars "  - "); Group 1 (Plus (Chr is_test_char)); Eol].

(** What [subprocess.run] returns. *)
Record CompletedProcess : Type := {
  returncode : Z;
  stdout : str;
  stderr : str
}.

(** The list [get_all_projects] falls back on. *)
Definition default_projects : list str :=
  [ chars "Chart"; chars "Closure"; chars "Lang"; chars "Math";
    chars "Mockito"; chars "Time" ].

Record Defects4JManager : Type := {
  defects4j_home : str;
  projects : list str
}.

Section Manager.

Variable pyfloat : Type.
Variable float_zero : pyfloat.               (* the float [0.0] *)

(** The machine the manager runs on.  A [world] is its state: the
    files, the clock, what the tool is going to answer.  Running a
    command and reading the clock move the world on; looking at a file
    does not.  [print] writes to no file the manager reads and is left
    out.  A call that raises is [Fault]; an exception that nothing
    catches goes on to the caller. *)
Variable world : Type.
Variable path : Type.                        (* pathlib.Path *)
Variable path_str : path -> str.             (* [str(p)] *)
Variable path_div : path -> str -> path.     (* [p / name] *)

(** [subprocess.run(cmd, shell=True, ...)] without [check]: the
    completed process, or [Fault] when the call itself raises, as it
    does under [text=True] when what the command wrote does not decode
    (UnicodeDecodeError). *)
Variable run : str -> world -> outcome CompletedProcess * world.
(** [datetime.now()] *)
Variable now : world -> datetime * world.
(** [p.exists()] *)
Variable path_exists : path -> world -> bool.
(** [open(p, "r").read()] *)
Variable read_text : path -> world -> outcome str.
(** [p.mkdir(parents=True, exist_ok=True)] *)
Variable mkdir : path -> world -> outcome unit * world.

(** [get_all_projects].  With [check=True] a non-zero exit status raises
    CalledProcessError, which the [except] clause answers with the
    default list; the clause catches nothing else. *)
Definition get_all_projects (w : world) : outcome (list str) * world :=
  let cmd := chars "defects4j pids" in
  match run cmd w with
  | (Fault, w) => (Fault, w)
  | (Ok result, w) =>
      if (returncode result =? 0)%Z then
        let projects := split_on NL (strip (stdout result)) in
        let projects :=
          map strip (filter (fun p => truthy (strip p)) projects) in
        (Ok projects, w)
      else (Ok default_projects, w)
  end.

(** [__init__] *)
Definition manager_init (home : option str) (w : world)
  : outcome Defects4JManager * world :=
  let home :=
    match home with
    | Some h => if truthy h then h else chars "/path/to/defects4j"
    | None => chars "/path/to/defects4j"
    end in
  match get_all_projects w with
  | (Fault, w) => (Fault, w)
  | (Ok projects, w) =>
      (Ok {| defects4j_home := home; projects := projects |}, w)
  end.

(** [get_bug_info], for either copy of the parser. *)
Definition get_bug_info_with (parse : str -> outcome info)
           (project bug_id : str) (w : world)
  : outcome Defects4JBug * world :=
  let cmd := chars "defects4j info -p " ++ project ++ chars " -b "
             ++ bug_id in
  match run cmd w with
  | (Fault, w) => (Fault, w)
  | (Ok result, w) =>
      (info <- parse (stdout result) ;;
       Ok (bug_of_info project bug_id info), w)
  end.

Definition get_bug_info : str -> str -> world -> outcome Defects4JBug * world :=
  get_bug_info_with DefectsManager._parse_bug_info.

(** [checkout_bug]; [check=True] is not caught here. *)
Definition checkout_bug (project bug_id : str) (work_dir : path)
           (version : str) (w : world) : outcome path * world :=
  let checkout_path :=
    path_div work_dir
      (project ++ chars "_" ++ bug_id ++ chars "_" ++ version) in
  match mkdir checkout_path w with
  | (Fault, w) => (Fault, w)
  | (Ok _, w) =>
      let cmd := chars "defects4j checkout -p " ++ project ++ chars " -v "
                 ++ bug_id ++ version ++ chars " -w "
                 ++ path_str checkout_path in
      match run cmd w with
      | (Fault, w) => (Fault, w)
      | (Ok result, w) =>
          if (returncode result =? 0)%Z then (Ok checkout_path, w)
          else (Fault, w)
      end
  end.

(** [_parse_single_test_result] *)
Definition _parse_single_test_result (test_name stdout stderr : str)
           (w : world) : TestOutput pyfloat * world :=
  let passed := contains (chars "Failing tests: 0") stdout in
  let '(t, w) := now w in
  ({| test_name := test_name;
      status := if passed then chars "PASS" else chars "FAIL";
      error_message := None;
      stack_trace := None;
      execution_time := float_zero;
      timestamp := t |}, w).

(** [_parse_test_output]: one round of the loop reads the clock and
    appends an outcome. *)
Definition _parse_test_output (stdout stderr : str) (w : world)
  : list (TestOutput pyfloat) * world :=
  let failing_match := findall failing_re stdout in
  fold_left
    (fun (st : list (TestOutput pyfloat) * world) test_name =>
       let '(outputs, w) := st in
       let '(t, w) := now w in
       (outputs ++ [ {| test_name := test_name;
                        status := chars "FAIL";
                        error_message := None;
                        stack_trace := None;
                        execution_time := float_zero;
                        timestamp := t |} ], w))
    failing_match ([], w).

(** [output.error_message = msg] *)
Definition set_error_message (output : TestOutput pyfloat)
           (msg : option str) : TestOutput pyfloat :=
  {| test_name := test_name output;
     status := status output;
     error_message := msg;
     stack_trace := stack_trace output;
     execution_time := execution_time output;
     timestamp := timestamp output |}.

(** [_run_single_test], the same in both files but for a [print]. *)
Definition _run_single_test (checkout_path : path) (test_name : str)
           (w : world) : outcome (option (TestOutput pyfloat)) * world :=
  let cmd := chars "cd " ++ path_str checkout_path
             ++ chars " && defects4j test -t " ++ test_name in
  match run cmd w with
  | (Fault, w) => (Fault, w)
  | (Ok result, w) =>
      let '(output, w) :=
        _parse_single_test_result test_name (stdout result) (stderr result)
          w in
      let failing_tests_file :=
        path_div checkout_path (chars "failing_tests") in
      if path_exists failing_tests_file w then
        match read_text failing_tests_file w with
        | Ok failing_content =>
            if contains test_name failing_content then
              if negb (truthy_opt (error_message output)) then
                (Ok (Some (set_error_message output
                             (_extract_error_from_failing_tests
                                failing_content test_name))), w)
              else (Ok (Some output), w)
            else (Ok (Some output), w)
        | Fault => (Fault, w)
        end
      else (Ok (Some output), w)
  end.

(** One round of the loop of [_enrich_with_failure_details]; the loop
    updates the outcomes in place. *)
Definition enrich_output (failing_content : str)
           (output : TestOutput pyfloat) : TestOutput pyfloat :=
  if is_fail output then
    if negb (truthy_opt (error_message output)) then
      set_error_message output
        (_extract_error_from_failing_tests failing_content
           (test_name output))
    else output
  else output.

(** [_enrich_with_failure_details]: when the file cannot be read the
    [except] clause leaves the outcomes as they are. *)
Definition _enrich_with_failure_details
           (outputs : list (TestOutput pyfloat))
           (failing_tests_file : path) (w : world)
  : list (TestOutput pyfloat) :=
  match read_text failing_tests_file w with
  | Ok failing_content => map (enrich_output failing_content) outputs
  | Fault => outputs
  end.

(** The loop of [run_tests] over the tests it was given; an outcome is
    an object and so counts as true. *)
Definition run_specific_tests (checkout_path : path)
           (specific_tests : list str) (w : world)
  : outcome (list (TestOutput pyfloat)) * world :=
  fold_left
    (fun (st : outcome (list (TestOutput pyfloat)) * world) test =>
       match st with
       | (Ok outputs, w) =>
           match _run_single_test checkout_path test w with
           | (Ok (Some output), w) => (Ok (outputs ++ [output]), w)
           | (Ok None, w) => (Ok outputs, w)
           | (Fault, w) => (Fault, w)
           end
       | (Fault, w) => (Fault, w)
       end)
    specific_tests (Ok [], w).

(** [run_tests] of defects_manager.py; [None] and the empty list both
    count as false. *)
Definition run_tests (checkout_path : path)
           (specific_tests : option (list str)) (w : world)
  : outcome (list (TestOutput pyfloat)) * world :=
  match specific_tests with
  | Some (test :: tests) =>
      run_specific_tests checkout_path (test :: tests) w
  | _ =>
      let cmd := chars "cd " ++ path_str checkout_path
                 ++ chars " && defects4j test" in
      match run cmd w with
      | (Fault, w) => (Fault, w)
      | (Ok result, w) =>
          let '(outputs, w) :=
            _parse_test_output (stdout result) (stderr result) w in
          (Ok outputs, w)
      end
  end.

(** [run_tests] of mining_buggy_code_logs.py, which goes on to enrich
    the outcomes. *)
Definition mining_run_tests (checkout_path : path)
           (specific_tests : option (list str)) (w : world)
  : outcome (list (TestOutput pyfloat)) * world :=
  match run_tests checkout_path specific_tests w with
  | (Ok outputs, w) =>
      let failing_tests_file :=
        path_div checkout_path (chars "failing_tests") in
      if path_exists failing_tests_file w
      then (Ok (_enrich_with_failure_details outputs failing_tests_file w),
            w)
      else (Ok outputs, w)
  | (Fault, w) => (Fault, w)
  end.

(** [export_patch] *)
Definition export_patch (project bug_id : str) (w : world)
  : outcome str * world :=
  let cmd := chars "defects4j export -p code.changes -w /tmp/d4j_"
             ++ project ++ chars "_" ++ bug_id in
  match run cmd w with
  | (Fault, w) => (Fault, w)
  | (Ok result, w) =>
      let cmd_diff := chars "defects4j export -p diff -w /tmp/d4j_"
                      ++ project ++ chars "_" ++ bug_id in
      match run cmd_diff w with
      | (Fault, w) => (Fault, w)
      | (Ok result_diff, w) =>
          (Ok (if (returncode result_diff =? 0)%Z
               then stdout result_diff else stdout result), w)
      end
  end.

(** [get_all_bugs] *)
Definition get_all_bugs (project : str) (w : world)
  : outcome (list str) * world :=
  let cmd := chars "defects4j bids -p " ++ project in
  match run cmd w with
  | (Fault, w) => (Fault, w)
  | (Ok result, w) => (Ok (split_on NL (strip (stdout result))), w)
  end.

End Manager.

(* ================================================================= *)
(** ** Notions for the properties of the manager *)

(** The identifier of a line of the form [  - identifier]. *)
Definition failing_name (line : str) : option str :=
  if starts_with (chars "  - ") line then
    let name := skipn 4 line in
    if truthy name && forallb is_test_char name then Some name else None
  else None.

Definition failing_names (lines : list str) : list str :=
  flat_map (fun l => match failing_name l with
                     | Some name => [name]
                     | None => []
                     end) lines.

(** Text that is not empty and neither begins nor ends with white
    space. *)
Definition stripped (w : str) : Prop :=
  is_space (last w NL) = false
  /\ exists c w', w = c :: w' /\ is_space c = false.

(** An outcome as [_parse_test_output] builds it. *)
Definition bare_failure {pyfloat : Type} (float_zero : pyfloat)
           (o : TestOutput pyfloat) : Prop :=
  status o = chars "FAIL" /\ error_message o = None
  /\ stack_trace o = None /\ execution_time o = float_zero.

(** An outcome of a run of every test after the enrichment: status
    FAIL, no stack trace and an error message that, when there is one,
    is not blank. *)
Definition enriched_failure {pyfloat : Type} (o : TestOutput pyfloat)
  : Prop :=
  status o = chars "FAIL" /\ stack_trace o = None
  /\ forall msg, error_message o = Some msg -> strip msg <> [].

(** An outcome of a single test run: it is named after the test, has
    status PASS or FAIL and no stack trace, and its error message, when
    it has one, is not blank. *)
Definition single_outcome {pyfloat : Type} (t : str)
           (o : TestOutput pyfloat) : Prop :=
  test_name o = t
  /\ (status o = chars "PASS" \/ status o = chars "FAIL")
  /\ stack_trace o = None
  /\ forall msg, error_message o = Some msg -> strip msg <> [].

(* ================================================================= *)
(** ** Well-formed blocks under any header *)

(** [text] is tool-info text whose first [header] stands after [pre] and
    is followed by the block [lines]; [post], the text after the block,
    does not begin with a space or a tab. *)
Record well_formed_block (header pre : str) (lines : list block_line)
       (post text : str) : Prop := {
  wfb_text : text = pre ++ header ++ NL :: render_block lines ++ post;
  wfb_first : first_occurrence header pre text;
  wfb_nonempty : lines <> [];
  wfb_lines : Forall line_ok lines;
  wfb_post : stops is_blank post
}.

(** What the pattern [bullet_re] takes from a line: the identifier of a
    bulleted line and, from an exception-detail line, the detail with
    its arrow (the first character of [-->] is read as the bullet). *)
Definition bullet_text (l : block_line) : str :=
  match l with
  | TestLine _ _ name => name
  | DetailLine _ detail => chars "->" ++ detail
  end.

(** A printable character of ASCII: the codes 32 to 126. *)
Definition printable (c : ascii) : bool :=
  (32 <=? code c) && (code c <=? 126).

(* ================================================================= *)
(** ** dataset_exporter.py: the JSON file *)

Section JsonExport.

Variable pyfloat : Type.
Variable float_repr : pyfloat -> str.
(** [str(t)] for an instant, which [default=str] puts in the file. *)
Variable datetime_str : datetime -> str.

(** The newline and the indentation [json.dump(..., indent=2)] writes
    before an item at a depth. *)
Definition newline_indent (level : nat) : str :=
  NL :: repeat " "%char (2 * level).

(** [json.dumps(v, indent=2)] at a depth: an empty list or dictionary on
    one line, the items of another each on a line of its own, a comma
    after each but the last. *)
Fixpoint dumps_indent (level : nat) (v : pyval pyfloat) : str :=
  match v with
  | PNone => chars "null"
  | PStr s => encode_str s
  | PInt z => str_of_int z
  | PFloat x => float_repr x
  | PList [] => chars "[]"
  | PList l =>
      "["%char :: newline_indent (S level)
      ++ join (","%char :: newline_indent (S level))
           (map (dumps_indent (S level)) l)
      ++ newline_indent level ++ ["]"%char]
  | PDict [] => chars "{}"
  | PDict d =>
      "{"%char :: newline_indent (S level)
      ++ join (","%char :: newline_indent (S level))
           (map (fun kv => let '(k, v) := kv in
                           encode_str k ++ chars ": "
                           ++ dumps_indent (S level) v) d)
      ++ newline_indent level ++ ["}"%char]
  end.

(** [asdict(session.bug_info)]; a path is written as its text. *)
Definition asdict_bug (bug : Defects4JBug) : pyval pyfloat :=
  PDict [ (chars "project", PStr (project bug));
          (chars "bug_id", PStr (bug_id bug));
          (chars "triggering_tests",
           PList (map PStr (triggering_tests bug)));
          (chars "bug_report_url", PStr (bug_report_url bug));
          (chars "patch", PStr (patch bug));
          (chars "modified_classes",
           PList (map PStr (modified_classes bug)));
          (chars "checkout_path", opt_str (checkout_path bug)) ].

(** [asdict(t)] for an outcome; the instant is written as its text. *)
Definition asdict_output (t : TestOutput pyfloat) : pyval pyfloat :=
  PDict [ (chars "test_name", PStr (test_name t));
          (chars "status", PStr (status t));
          (chars "error_message", opt_str (error_message t));
          (chars "stack_trace", opt_str (stack_trace t));
          (chars "execution_time", PFloat (execution_time t));
          (chars "timestamp", PStr (datetime_str (timestamp t))) ].

(** The record [export_to_json] builds for a session. *)
Definition json_entry (session : SyntheticDebugSession pyfloat)
  : pyval pyfloat :=
  PDict [ (chars "bug_id",
           PStr (project (bug_info session) ++ chars "_"
                 ++ bug_id (bug_info session)));
          (chars "project", PStr (project (bug_info session)));
          (chars "bug_info", asdict_bug (bug_info session));
          (chars "logs", PList (map (@asdict_log pyfloat)
                                    (log_sequence session)));
          (chars "timeline",
           PList (map PStr (investigation_timeline session)));
          (chars "root_cause", PStr (root_cause_summary session));
          (chars "test_failures",
           PList (map asdict_output (test_outputs session))) ].

(** [export_to_json]: the text of the file. *)
Definition export_to_json (sessions : list (SyntheticDebugSession pyfloat))
  : str :=
  let data := fold_left (fun data session => data ++ [json_entry session])
                        sessions [] in
  dumps_indent 0 (PList data).

End JsonExport.

(** The text of a member of a dictionary at a depth. *)
Definition member_indent (pyfloat : Type) (float_repr : pyfloat -> str)
           (level : nat) (kv : str * pyval pyfloat) : str :=
  let '(k, v) := kv in
  encode_str k ++ chars ": " ++ dumps_indent float_repr level v.

(** The indented text of a value, at any depth and followed by text
    that no number runs into, reads back as the value and leaves that
    text. *)
Definition reads_back_indent (pyfloat : Type) (float_repr : pyfloat -> str)
           (float_of_str : str -> option pyfloat) (v : pyval pyfloat)
  : Prop :=
  forall level fuel rest,
    length (dumps_indent float_repr level v) <= fuel -> delimited rest ->
    parse_value float_of_str fuel (dumps_indent float_repr level v ++ rest)
    = Some (v, rest).

(* ================================================================= *)
(** ** mining_buggy_code_logs.py: the pipeline *)

(** [bug_info.checkout_path = p] and [bug_info.patch = text] *)
Definition set_checkout_path (bug : Defects4JBug) (p : option str)
  : Defects4JBug :=
  {| project := project bug; bug_id := bug_id bug;
     triggering_tests := triggering_tests bug;
     bug_report_url := bug_report_url bug;
     patch := patch bug;
     modified_classes := modified_classes bug;
     checkout_path := p |}.

Definition set_patch (bug : Defects4JBug) (text : str) : Defects4JBug :=
  {| project := project bug; bug_id := bug_id bug;
     triggering_tests := triggering_tests bug;
     bug_report_url := bug_report_url bug;
     patch := text;
     modified_classes := modified_classes bug;
     checkout_path := checkout_path bug |}.

Section Main.

Variable pyfloat : Type.
Variable float_zero : pyfloat.
Variable float_repr : pyfloat -> str.
Variable isoformat : datetime -> str.
Variable datetime_str : datetime -> str.

Variable world : Type.
Variable path : Type.
Variable path_of : str -> path.              (* [Path(text)] *)
Variable path_str : path -> str.
Variable path_div : path -> str -> path.
Variable run : str -> world -> outcome CompletedProcess * world.
Variable now : world -> datetime * world.
Variable path_exists : path -> world -> bool.
Variable read_text : path -> world -> outcome str.
Variable mkdir : path -> world -> outcome unit * world.
(** [p.mkdir(exist_ok=True)] *)
Variable mkdir_exist_ok : path -> world -> outcome unit * world.
(** [open(p, "w")] and what is written through it *)
Variable write_text : path -> str -> world -> outcome unit * world.

(** [get_bug_info] of mining_buggy_code_logs.py *)
Definition mining_get_bug_info
  : str -> str -> world -> outcome Defects4JBug * world :=
  get_bug_info_with run MiningBuggyCodeLogs._parse_bug_info.

(** The body of the [try] statement of [main] for one bug, up to the
    session; the session holds the bug record, which by then carries
    its checkout path and its patch. *)
Definition process_bug (generator : SyntheticLogGenerator)
           (project : str) (work_dir : path) (bug_id : str) (w : world)
  : outcome (SyntheticDebugSession pyfloat) * world :=
  match mining_get_bug_info project bug_id w with
  | (Fault, w) => (Fault, w)
  | (Ok bug_info, w) =>
      match checkout_bug path_str path_div run mkdir
              project bug_id work_dir (chars "b") w with
      | (Fault, w) => (Fault, w)
      | (Ok checkout_path, w) =>
          let bug_info :=
            set_checkout_path bug_info (Some (path_str checkout_path)) in
          match mining_run_tests float_zero path_str path_div run now
                  path_exists read_text checkout_path
                  (Some (triggering_tests bug_info)) w with
          | (Fault, w) => (Fault, w)
          | (Ok test_outputs, w) =>
              match export_patch run project bug_id w with
              | (Fault, w) => (Fault, w)
              | (Ok patch_text, w) =>
                  let bug_info := set_patch bug_info patch_text in
                  (Ok (generate_debug_session isoformat generator bug_info
                         test_outputs), w)
              end
          end
      end
  end.

(** The loop of [main] over the bug ids: a bug whose processing raises
    is passed over by the [except] clause. *)
Definition process_bugs (generator : SyntheticLogGenerator)
           (project : str) (work_dir : path) (bug_ids : list str)
           (w : world) : list (SyntheticDebugSession pyfloat) * world :=
  fold_left
    (fun (st : list (SyntheticDebugSession pyfloat) * world) bug_id =>
       let '(sessions, w) := st in
       match process_bug generator project work_dir bug_id w with
       | (Ok session, w) => (sessions ++ [session], w)
       | (Fault, w) => (sessions, w)
       end)
    bug_ids ([], w).

(** The attempts of the loop: each bug id with what its processing gave
    in the state the loop had reached. *)
Fixpoint attempts (generator : SyntheticLogGenerator) (project : str)
         (work_dir : path) (bug_ids : list str) (w : world)
  : list (str * outcome (SyntheticDebugSession pyfloat)) :=
  match bug_ids with
  | [] => []
  | bug_id :: rest =>
      let '(r, w') := process_bug generator project work_dir bug_id w in
      (bug_id, r) :: attempts generator project work_dir rest w'
  end.

(** The loop of [main] that shows the projects: it asks for the bugs
    of each of them, to count them. *)
Definition show_projects (projects : list str) (w : world)
  : outcome unit * world :=
  fold_left
    (fun (st : outcome unit * world) project =>
       match st with
       | (Ok _, w) =>
           match get_all_bugs run project w with
           | (Ok _, w) => (Ok tt, w)
           | (Fault, w) => (Fault, w)
           end
       | (Fault, w) => (Fault, w)
       end)
    projects (Ok tt, w).

(** The sessions [main] builds before it exports them. *)
Definition main_sessions (w : world)
  : outcome (list (SyntheticDebugSession pyfloat)) * world :=
  let work_dir := path_of (chars "./defects4j_work") in
  match mkdir_exist_ok work_dir w with
  | (Fault, w) => (Fault, w)
  | (Ok _, w) =>
      let output_dir := path_of (chars "./synthetic_logs") in
      match mkdir_exist_ok output_dir w with
      | (Fault, w) => (Fault, w)
      | (Ok _, w) =>
          match manager_init run None w with
          | (Fault, w) => (Fault, w)
          | (Ok d4j, w) =>
              let '(t, w) := now w in
              let generator := init t in
              match show_projects (projects d4j) w with
              | (Fault, w) => (Fault, w)
              | (Ok _, w) =>
                  let project := chars "Lang" in
                  match get_all_bugs run project w with
                  | (Fault, w) => (Fault, w)
                  | (Ok ids, w) =>
                      let bug_ids := firstn 5 ids in
                      let '(sessions, w) :=
                        process_bugs generator project work_dir bug_ids w in
                      (Ok sessions, w)
                  end
              end
          end
      end
  end.

(** [main] of mining_buggy_code_logs.py: the sessions, then the two
    files. *)
Definition main (w : world) : outcome unit * world :=
  match main_sessions w with
  | (Fault, w) => (Fault, w)
  | (Ok sessions, w) =>
      let output_dir := path_of (chars "./synthetic_logs") in
      match write_text (path_div output_dir (chars "debug_sessions.json"))
              (export_to_json float_repr datetime_str sessions) w with
      | (Fault, w) => (Fault, w)
      | (Ok _, w) =>
          write_text (path_div output_dir (chars "debug_sessions.jsonl"))
            (export_to_jsonl float_repr sessions) w
      end
  end.

End Main.

(** The sessions of the attempts that did not raise, in their order. *)
Definition built {pyfloat : Type}
           (tried : list (str * outcome (SyntheticDebugSession pyfloat)))
  : list (SyntheticDebugSession pyfloat) :=
  flat_map (fun a => match snd a with
                     | Ok s => [s]
                     | Fault => []
                     end) tried.

(** A session of a bug of the project [name] that [generator] generated from the
    bug record and the outcomes the session holds; the bug record
    carries a checkout path. *)
Definition session_of {pyfloat : Type} (isoformat : datetime -> str)
           (generator : SyntheticLogGenerator) (name : str)
           (s : SyntheticDebugSession pyfloat) : Prop :=
  project (bug_info s) = name
  /\ checkout_path (bug_info s) <> None
  /\ s = generate_debug_session isoformat generator (bug_info s)
           (test_outputs s).

(** An attempt that did not raise gave a session of the bug it was
    for. *)
Definition attempt_ok {pyfloat : Type} (isoformat : datetime -> str)
           (generator : SyntheticLogGenerator) (name : str)
           (a : str * outcome (SyntheticDebugSession pyfloat)) : Prop :=
  match snd a with
  | Ok s => session_of isoformat generator name s
            /\ bug_id (bug_info s) = fst a
  | Fault => True
  end.

(* ================================================================= *)
(** ** Sample data *)

Module Sample.

(** The pipeline only ever builds outcomes whose [execution_time] is
    [0.0]; a one-point type stands for that float. *)
Definition float0 : Type := unit.

Definition iso (t : datetime) : str := chars "T+" ++ str_of_int t.

Definition bug (classes : list str) : Defects4JBug :=
  {| project := chars "Lang"; bug_id := chars "1";
     triggering_tests := [chars "org.Foo::testBar"];
     bug_report_url := chars "https://issues.example.org/LANG-1";
     patch := chars "if (x == null) return;";
     modified_classes := classes;
     checkout_path := None |}.

Definition outcome_of (name status : string) (error trace : option string)
  : TestOutput float0 :=
  {| test_name := chars name; status := chars status;
     error_message := option_map chars error;
     stack_trace := option_map chars trace;
     execution_time := tt; timestamp := 0%Z |}.

Definition classes4 : list str :=
  [chars "org.A"; chars "org.B"; chars "org.C"; chars "org.D"].

(** Two failing outcomes, of which only the second has a message. *)
Definition silent_then_loud : list (TestOutput float0) :=
  [ outcome_of "org.Foo::testBar" "FAIL" None None;
    outcome_of "org.Foo::testBaz" "FAIL" (Some "boom"%string) None ].

Definition passing : list (TestOutput float0) :=
  [ outcome_of "org.Foo::testBar" "PASS" None None;
    outcome_of "org.Foo::testBaz" "ERROR" (Some "boom"%string) (Some "at x"%string) ].

Definition generator : SyntheticLogGenerator := init 1700000000000000%Z.

(** Output of [defects4j info], cut down to the parts the parser reads. *)
Definition info_pre : str :=
  chars "Summary for Bug: Lang-1" ++ [NL]
  ++ chars "Root cause in triggering tests (below):" ++ [NL].

Definition info_lines : list block_line :=
  [ TestLine (chars " ") (chars " ") (chars "org.Foo::testBar");
    DetailLine (chars "   ") (chars " java.lang.Exc: boom");
    TestLine (chars " ") (chars " ") (chars "org.Foo::testBaz");
    DetailLine (chars "   ") (chars " junit.framework.Failure") ].

Definition info_post : str :=
  chars "--------" ++ [NL]
  ++ chars "List of modified sources:" ++ [NL]
  ++ chars " - org.Foo" ++ [NL]
  ++ chars "--------" ++ [NL].

Definition info_text : str :=
  info_pre ++ tests_header ++ NL :: render_block info_lines ++ info_post.

(** A report of failing tests; the second header carries a note. *)
Definition report : list entry :=
  [ Entry (chars "org.Foo::testBar") None
      [ chars "java.lang.Exc: boom";
        "009"%char :: chars "at a.b(C.java:1)";
        "009"%char :: chars "at d.e(F.java:2)" ];
    Entry (chars "org.Foo.testBaz") (Some (chars "(flaky)"))
      [ chars "junit.framework.Failure" ];
    Entry (chars "org.Qux") None
      [ chars "java.lang.NullPointerException";
        "009"%char :: chars "at q.r(S.java:3)" ] ].

(** The only float of the sample, [0.0], written and read back. *)
Definition float0_repr (x : float0) : str := chars "0.0".

Definition float0_of_str (s : str) : option float0 :=
  if str_eqb s (chars "0.0") then Some tt else None.

Definition sessions : list (SyntheticDebugSession float0) :=
  [ generate_debug_session iso generator (bug classes4) silent_then_loud;
    generate_debug_session iso generator (bug [chars "org.A"]) passing ].

(** A failing outcome with its message and its stack trace. *)
Definition traced : list (TestOutput float0) :=
  [ outcome_of "org.Foo::testBar" "FAIL" (Some "boom"%string)
      (Some "at a.b(C.java:1)"%string) ].

(** A machine for the manager.  Its state counts the commands run and
    the readings of the clock; a path is its text; the tool lists two
    projects and two bugs, describes the bug 1 by [info_text] and
    writes for the bug 2, and for a test testUndecodable, what does not
    decode; it fails the test testBar and passes any other; the file of
    failing tests is there and holds [report]; making a directory
    succeeds. *)
Definition world0 : Type := nat.

Definition path_div0 (p name : str) : str := p ++ "/"%char :: name.

Definition run0 (cmd : str) (w : world0)
  : outcome CompletedProcess * world0 :=
  if str_eqb cmd (chars "defects4j info -p Lang -b 2")
     || contains (chars "testUndecodable") cmd
  then (Fault, S w)
  else
    (Ok {| returncode := 0;
           stdout :=
             if str_eqb cmd (chars "defects4j pids")
             then chars "Lang" ++ NL :: chars "Math" ++ [NL]
             else if starts_with (chars "defects4j bids") cmd
             then chars "1" ++ NL :: chars "2" ++ [NL]
             else if starts_with (chars "defects4j info") cmd
             then info_text
             else if contains (chars "testBar") cmd
             then chars "Failing tests: 1"
             else chars "Failing tests: 0";
           stderr := [] |}, S w).

Definition now0 (w : world0) : datetime * world0 := (Z.of_nat w, S w).

Definition exists0 (p : str) (w : world0) : bool := true.

Definition read0 (p : str) (w : world0) : outcome str :=
  Ok (render_report report).

(** The part of [info_text] before the header of the modified sources,
    and the block under it. *)
Definition sources_pre : str :=
  info_pre ++ tests_header ++ NL :: render_block info_lines
  ++ chars "--------" ++ [NL].

Definition sources_lines : list block_line :=
  [ TestLine (chars " ") (chars " ") (chars "org.Foo") ].

Definition sources_post : str := chars "--------" ++ [NL].

(** Tool-info text with the address of the bug report on the line under
    its header. *)
Definition url_text : str :=
  chars "Summary for Bug: Lang-1" ++ [NL]
  ++ chars "Bug report url:" ++ [NL]
  ++ chars "https://issues.example.org/LANG-1" ++ [NL]
  ++ chars "--------" ++ [NL].

Definition mkdir0 (p : str) (w : world0) : outcome unit * world0 :=
  (Ok tt, w).

(** What [main] builds on this machine. *)
Definition main_result
  : outcome (list (SyntheticDebugSession float0)) * world0 :=
  main_sessions tt iso (fun p : str => p) (fun p : str => p) path_div0
    run0 now0 exists0 read0 mkdir0 mkdir0 0.


End Sample.

(* ================================================================= *)
(** * Properties *)

(* ----------------------------------------------------------------- *)
(** ** Strings *)

Lemma starts_with_iff (p s : str) :
  starts_with p s = true <-> exists post, s = p ++ post.
Proof.
  revert s; induction p as [|x p IH]; intros s; simpl.
  - split; [intros _; now exists s | reflexivity].
  - destruct s as [|y s].
    + split; [discriminate | intros [post H]; discriminate].
    + rewrite andb_true_iff, IH. split.
      * intros [Hxy [post ->]]. apply Ascii.eqb_eq in Hxy. subst y.
        now exists post.
      * intros [post H]. injection H as -> ->. split.
        -- apply Ascii.eqb_refl.
        -- now exists post.
Qed.

Lemma contains_iff (p s : str) : contains p s = true <-> occurs p s.
Proof.
  unfold occurs. induction s as [|c s IH].
  - simpl. rewrite orb_false_r, starts_with_iff. split.
    + intros [post H]. now exists [], post.
    + intros [pre [post H]]. symmetry in H.
      apply app_eq_nil in H as [-> H]. apply app_eq_nil in H as [-> ->].
      now exists [].
  - cbn [contains]. rewrite orb_true_iff, IH, starts_with_iff. split.
    + intros [[post H] | [pre [post H]]].
      * now exists [], post.
      * exists (c :: pre), post. now rewrite H.
    + intros [[|c' pre] [post H]].
      * left. now exists post.
      * right. injection H as -> ->. now exists pre, post.
Qed.

Lemma contains_false_iff (p s : str) :
  contains p s = false <-> ~ occurs p s.
Proof.
  rewrite <- contains_iff. destruct (contains p s); split; intros H;
    try discriminate; try reflexivity; now exfalso.
Qed.

(** [kw in s.lower()] is an occurrence of [kw] in [s] up to case. *)
Lemma contains_lower_iff (kw s : str) :
  contains kw (lower s) = true <-> mentions kw s.
Proof.
  rewrite contains_iff. unfold occurs, mentions, lower. split.
  - intros [pre [post H]].
    apply map_eq_app in H as [pre' [rest [-> [<- H]]]].
    apply map_eq_app in H as [mid [post' [-> [<- <-]]]].
    now exists pre', mid, post'.
  - intros [pre [mid [post [-> <-]]]].
    exists (map lower_char pre), (map lower_char post).
    now rewrite !map_app.
Qed.

Lemma contains_lower_false_iff (kw s : str) :
  contains kw (lower s) = false <-> ~ mentions kw s.
Proof.
  rewrite <- contains_lower_iff.
  destruct (contains kw (lower s)); split; intros H;
    try discriminate; try reflexivity; now exfalso.
Qed.

(* ----------------------------------------------------------------- *)
(** ** Root-cause inference *)

(** C3. Root-cause inference on a patch: the empty patch is a logic error;
    otherwise the keywords are looked for, up to case, in a fixed order of
    precedence: null, then bound or index, then assert, then the
    operators == and !=, and a logic error when none occurs. *)
Theorem infer_root_cause_precedence (patch : str) :
  (patch = [] ->
   _infer_root_cause_from_patch patch
   = chars "Logic error in implementation")
  /\ (patch <> [] ->
      (mentions (chars "null") patch ->
       _infer_root_cause_from_patch patch
       = chars "Null pointer handling issue")
      /\ (~ mentions (chars "null") patch ->
          mentions (chars "bound") patch \/ mentions (chars "index") patch ->
          _infer_root_cause_from_patch patch
          = chars "Array bounds or indexing error")
      /\ (~ mentions (chars "null") patch ->
          ~ mentions (chars "bound") patch ->
          ~ mentions (chars "index") patch ->
          mentions (chars "assert") patch ->
          _infer_root_cause_from_patch patch
          = chars "Assertion or validation error")
      /\ (~ mentions (chars "null") patch ->
          ~ mentions (chars "bound") patch ->
          ~ mentions (chars "index") patch ->
          ~ mentions (chars "assert") patch ->
          occurs (chars "==") patch \/ occurs (chars "!=") patch ->
          _infer_root_cause_from_patch patch
          = chars "Comparison or equality check error")
      /\ (~ mentions (chars "null") patch ->
          ~ mentions (chars "bound") patch ->
          ~ mentions (chars "index") patch ->
          ~ mentions (chars "assert") patch ->
          ~ occurs (chars "==") patch ->
          ~ occurs (chars "!=") patch ->
          _infer_root_cause_from_patch patch
          = chars "Logic error in implementation")).
Proof.
  split.
  - now intros ->.
  - intros Hne. unfold _infer_root_cause_from_patch.
    destruct patch as [|c patch]; [now elim Hne|].
    cbn [truthy negb]. set (p := c :: patch).
    repeat split.
    + intros H. apply contains_lower_iff in H. now rewrite H.
    + intros Hn [H | H]; apply contains_lower_false_iff in Hn;
        apply contains_lower_iff in H; rewrite Hn, H; [reflexivity|].
      now rewrite orb_true_r.
    + intros Hn Hb Hi H.
      apply contains_lower_false_iff in Hn, Hb, Hi.
      apply contains_lower_iff in H. now rewrite Hn, Hb, Hi, H.
    + intros Hn Hb Hi Ha [H | H];
        apply contains_lower_false_iff in Hn, Hb, Hi, Ha;
        apply contains_iff in H; rewrite Hn, Hb, Hi, Ha, H; [reflexivity|].
      now rewrite orb_true_r.
    + intros Hn Hb Hi Ha He Hd.
      apply contains_lower_false_iff in Hn, Hb, Hi, Ha.
      apply contains_false_iff in He, Hd.
      now rewrite Hn, Hb, Hi, Ha, He, Hd.
Qed.

(** The examples of the specification. *)
Example infer_null :
  _infer_root_cause_from_patch (chars "fix: check for null before use")
  = chars "Null pointer handling issue".
Proof. reflexivity. Qed.

Example infer_empty :
  _infer_root_cause_from_patch [] = chars "Logic error in implementation".
Proof. reflexivity. Qed.

Example infer_bound :
  _infer_root_cause_from_patch (chars "array index out of bound")
  = chars "Array bounds or indexing error".
Proof. reflexivity. Qed.

Example infer_null_before_bound :
  _infer_root_cause_from_patch (chars "if (x == NULL) return; // Bounds")
  = chars "Null pointer handling issue".
Proof. reflexivity. Qed.

Lemma infer_root_cause_precedence_witness :
  _infer_root_cause_from_patch (chars "a[i] != Null") 
  = chars "Null pointer handling issue".
Proof.
  apply (proj1 (proj2 (infer_root_cause_precedence (chars "a[i] != Null"))
                  ltac:(discriminate))).
  exists (chars "a[i] != "), (chars "Null"), []. split; reflexivity.
Defined.

(* ----------------------------------------------------------------- *)
(** ** The log synthesizer *)

Lemma plus_seconds_plus (t : datetime) (a b : Z) :
  plus_seconds (plus_seconds t a) b = plus_seconds t (a + b).
Proof. unfold plus_seconds. lia. Qed.

Section GeneratorProperties.
Variable pyfloat : Type.
Variable isoformat : datetime -> str.

Implicit Types (self : SyntheticLogGenerator) (bug : Defects4JBug)
         (outs : list (TestOutput pyfloat)) (o : TestOutput pyfloat).

(** The loop of the failure phase appends, to what it starts from, the
    entries of [failure_entries] and one step per failing outcome. *)
Lemma failure_loop_spec outs :
  forall st : loop_state pyfloat,
    ls_logs (fold_left (failure_step isoformat) outs st)
    = ls_logs st ++ failure_entries isoformat (ls_t st) outs
    /\ ls_steps (fold_left (failure_step isoformat) outs st)
       = ls_steps st ++ failure_steps outs.
Proof.
  induction outs as [|o outs IH]; intros st; cbn [fold_left].
  - unfold failure_steps. cbn. now rewrite !app_nil_r.
  - destruct (IH (failure_step isoformat st o)) as [IHl IHs].
    rewrite IHl, IHs. clear IH IHl IHs.
    unfold failure_step, failure_steps.
    cbn [failure_entries filter].
    destruct (is_fail o) eqn:Hf; [|now split].
    destruct (stack_trace o) as [[|c trace]|]; cbn [truthy ls_logs ls_t ls_steps map];
      rewrite <- ?app_assoc, ?plus_seconds_plus; split; reflexivity.
Qed.

Lemma failure_phase_spec self bug outs :
  _generate_failure_phase isoformat self bug outs
  = (failure_entries isoformat (plus_seconds (base_time self) 10) outs,
     failure_steps outs).
Proof.
  unfold _generate_failure_phase.
  destruct (failure_loop_spec outs
              {| ls_t := plus_seconds (base_time self) 10;
                 ls_logs := []; ls_steps := [] |}) as [Hl Hs].
  now rewrite Hl, Hs.
Qed.

Lemma failure_entries_length outs :
  forall t, length (failure_entries isoformat t outs)
            = count_fail outs + count_traces outs.
Proof.
  unfold count_fail, count_traces.
  induction outs as [|o outs IH]; intros t; [reflexivity|].
  cbn [failure_entries filter]. unfold has_trace at 1.
  destruct (is_fail o); cbn [andb]; [|apply IH].
  destruct (stack_trace o) as [[|c trace]|]; cbn [truthy_opt truthy length];
    rewrite IH; lia.
Qed.

Lemma failure_entries_stamps outs :
  forall t d,
    map (@log_timestamp pyfloat)
        (failure_entries isoformat (plus_seconds t d) outs)
    = map (fun k => isoformat (plus_seconds t k)) (failure_offsets d outs).
Proof.
  induction outs as [|o outs IH]; intros t d; [reflexivity|].
  cbn [failure_entries failure_offsets].
  destruct (is_fail o); [|apply IH].
  destruct (stack_trace o) as [[|c trace]|]; cbn [truthy_opt truthy map];
    rewrite ?plus_seconds_plus, <- ?IH, ?plus_seconds_plus; reflexivity.
Qed.

Lemma failure_entries_unstamped outs :
  forall t t',
    map (@unstamped pyfloat) (failure_entries isoformat t outs)
    = map (@unstamped pyfloat) (failure_entries isoformat t' outs).
Proof.
  induction outs as [|o outs IH]; intros t t'; [reflexivity|].
  cbn [failure_entries].
  destruct (is_fail o); [|apply IH].
  destruct (stack_trace o) as [[|c trace]|]; cbn [map];
    [ rewrite (IH _ (plus_seconds t' 2))
    | rewrite (IH _ (plus_seconds t' 3))
    | rewrite (IH _ (plus_seconds t' 2)) ]; reflexivity.
Qed.

Lemma failure_steps_length outs :
  length (failure_steps outs) = count_fail outs.
Proof. unfold failure_steps, count_fail. now rewrite length_map. Qed.

Lemma investigation_loop_spec (classes : list str) :
  forall st : loop_state pyfloat,
    ls_logs (fold_left (investigation_step isoformat) classes st)
    = ls_logs st ++ class_entries isoformat (ls_t st) classes
    /\ ls_steps (fold_left (investigation_step isoformat) classes st)
       = ls_steps st ++ map (fun c => chars "Analyzed " ++ c) classes.
Proof.
  induction classes as [|c classes IH]; intros st; cbn [fold_left].
  - cbn. now rewrite !app_nil_r.
  - destruct (IH (investigation_step isoformat st c)) as [IHl IHs].
    rewrite IHl, IHs. cbn [investigation_step ls_logs ls_t ls_steps
                            class_entries map].
    rewrite <- !app_assoc. split; reflexivity.
Qed.

Lemma investigation_phase_spec self bug :
  _generate_investigation_phase (pyfloat:=pyfloat) isoformat self bug
  = (start_entry isoformat self bug
     :: class_entries isoformat (plus_seconds (base_time self) 60)
                      (firstn 3 (modified_classes bug)),
     chars "Began examining modified classes"
     :: map (fun c => chars "Analyzed " ++ c)
            (firstn 3 (modified_classes bug))).
Proof.
  unfold _generate_investigation_phase.
  destruct (investigation_loop_spec (firstn 3 (modified_classes bug))
              {| ls_t := plus_seconds (base_time self) 60;
                 ls_logs := [start_entry isoformat self bug];
                 ls_steps := [chars "Began examining modified classes"] |})
    as [Hl Hs].
  unfold start_entry in *. now rewrite Hl, Hs.
Qed.

Lemma class_entries_length (classes : list str) :
  forall t, length (class_entries (pyfloat:=pyfloat) isoformat t classes)
            = length classes.
Proof.
  induction classes as [|c classes IH]; intros t; cbn; [|rewrite IH];
    reflexivity.
Qed.

End GeneratorProperties.

Section SessionProperties.
Variable pyfloat : Type.
Variable isoformat : datetime -> str.

Implicit Types (self : SyntheticLogGenerator) (bug : Defects4JBug)
         (outs : list (TestOutput pyfloat)) (o : TestOutput pyfloat).

Local Abbreviation setup := (_generate_setup_phase isoformat).
Local Abbreviation failure := (_generate_failure_phase isoformat).
Local Abbreviation investigation :=
  (_generate_investigation_phase (pyfloat:=pyfloat) isoformat).
Local Abbreviation discovery :=
  (_generate_discovery_phase (pyfloat:=pyfloat) isoformat).
Local Abbreviation resolution :=
  (_generate_resolution_phase (pyfloat:=pyfloat) isoformat).

(** A session is the five phases one after the other. *)
Lemma session_phases self bug outs :
  let s := generate_debug_session isoformat self bug outs in
  log_sequence s
  = fst (setup self bug outs) ++ fst (failure self bug outs)
    ++ fst (investigation self bug) ++ fst (discovery self bug)
    ++ fst (resolution self bug)
  /\ investigation_timeline s
     = snd (setup self bug outs) ++ snd (failure self bug outs)
       ++ snd (investigation self bug) ++ snd (discovery self bug)
       ++ snd (resolution self bug).
Proof.
  unfold generate_debug_session.
  rewrite failure_phase_spec, investigation_phase_spec.
  cbn [fst snd log_sequence investigation_timeline
       _generate_setup_phase _generate_discovery_phase
       _generate_resolution_phase app].
  rewrite <- !app_assoc. split; reflexivity.
Qed.

(** C5. With more than three modified classes the investigation phase
    is the start entry, whose metadata lists every modified class, and
    then one entry for each of the first three classes, in order, ten
    seconds apart; the timeline has the matching four steps.  Classes
    after the third leave no entry. *)
Theorem investigation_caps_at_three self bug :
  3 < length (modified_classes bug) ->
  exists c1 c2 c3 rest,
    modified_classes bug = c1 :: c2 :: c3 :: rest /\ rest <> []
    /\ _generate_investigation_phase (pyfloat:=pyfloat) isoformat self bug
       = ([ start_entry isoformat self bug;
            class_entry isoformat (plus_seconds (base_time self) 70) c1;
            class_entry isoformat (plus_seconds (base_time self) 80) c2;
            class_entry isoformat (plus_seconds (base_time self) 90) c3 ],
          [ chars "Began examining modified classes";
            chars "Analyzed " ++ c1;
            chars "Analyzed " ++ c2;
            chars "Analyzed " ++ c3 ])
    /\ metadata (start_entry (pyfloat:=pyfloat) isoformat self bug)
       = Some [ (chars "modified_classes",
                 PList (map PStr (c1 :: c2 :: c3 :: rest))) ].
Proof.
  intros Hlen. rewrite investigation_phase_spec.
  destruct (modified_classes bug) as [|c1 [|c2 [|c3 [|c4 rest]]]] eqn:Hc;
    cbn in Hlen; try lia.
  exists c1, c2, c3, (c4 :: rest).
  split; [reflexivity|]. split; [discriminate|].
  unfold start_entry. rewrite Hc.
  cbn [firstn class_entries map metadata].
  rewrite !plus_seconds_plus. split; reflexivity.
Qed.

Lemma no_failures_filter outs :
  (forall o, In o outs -> is_fail o = false) ->
  filter (@is_fail pyfloat) outs = [].
Proof.
  induction outs as [|o outs IH]; intros H; [reflexivity|].
  cbn [filter]. rewrite (H o (or_introl eq_refl)).
  apply IH. intros o' Ho'. apply H. now right.
Qed.

Lemma no_failures_entries outs :
  (forall o, In o outs -> is_fail o = false) ->
  forall t, failure_entries isoformat t outs = [].
Proof.
  induction outs as [|o outs IH]; intros H t; [reflexivity|].
  cbn [failure_entries]. rewrite (H o (or_introl eq_refl)).
  apply IH. intros o' Ho'. apply H. now right.
Qed.

(** C6. When no outcome has status FAIL the failure phase adds no log
    entry and no timeline step, and the session is the other four
    phases with their fixed numbers of entries: two for the setup, one
    plus one per modified class up to three for the investigation, two
    for the discovery and three for the resolution. *)
Theorem no_failures_session self bug outs :
  (forall o, In o outs -> is_fail o = false) ->
  let s := generate_debug_session isoformat self bug outs in
  _generate_failure_phase isoformat self bug outs = ([], [])
  /\ log_sequence s
     = fst (setup self bug outs) ++ fst (investigation self bug)
       ++ fst (discovery self bug) ++ fst (resolution self bug)
  /\ investigation_timeline s
     = snd (setup self bug outs) ++ snd (investigation self bug)
       ++ snd (discovery self bug) ++ snd (resolution self bug)
  /\ (length (fst (setup self bug outs)) = 2
      /\ length (snd (setup self bug outs)) = 2)
  /\ (length (fst (investigation self bug))
      = 1 + Nat.min 3 (length (modified_classes bug))
      /\ length (snd (investigation self bug))
         = 1 + Nat.min 3 (length (modified_classes bug)))
  /\ (length (fst (discovery self bug)) = 2
      /\ length (snd (discovery self bug)) = 2)
  /\ (length (fst (resolution self bug)) = 3
      /\ length (snd (resolution self bug)) = 3).
Proof.
  intros Hnone s.
  assert (Hphase : _generate_failure_phase isoformat self bug outs
                   = ([], [])).
  { rewrite failure_phase_spec, no_failures_entries by assumption.
    unfold failure_steps. now rewrite no_failures_filter. }
  destruct (session_phases self bug outs) as [Hl Ht].
  fold s in Hl, Ht. rewrite Hphase in Hl, Ht.
  repeat split; try assumption; try reflexivity;
    rewrite investigation_phase_spec;
    cbn [fst snd length];
    rewrite ?class_entries_length, ?length_map, length_firstn; reflexivity.
Qed.

(** C10. The log of a session has 2 + f + s + 1 + min(3, c) + 2 + 3
    entries and its timeline 2 + f + 1 + min(3, c) + 2 + 3 steps, for f
    outcomes with status FAIL, s of them with a stack trace and c
    modified classes; the session carries the outcomes it was given. *)
Theorem session_lengths self bug outs :
  let s := generate_debug_session isoformat self bug outs in
  let f := count_fail outs in
  let st := count_traces outs in
  let c := length (modified_classes bug) in
  length (log_sequence s) = 2 + f + st + 1 + Nat.min 3 c + 2 + 3
  /\ length (investigation_timeline s) = 2 + f + 1 + Nat.min 3 c + 2 + 3
  /\ test_outputs s = outs.
Proof.
  intros s f st c.
  destruct (session_phases self bug outs) as [Hl Ht]. fold s in Hl, Ht.
  rewrite Hl, Ht.
  rewrite failure_phase_spec, investigation_phase_spec.
  rewrite !length_app.
  cbn [fst snd length app _generate_setup_phase _generate_discovery_phase
       _generate_resolution_phase].
  rewrite failure_entries_length, failure_steps_length,
    class_entries_length, length_map, !length_firstn.
  fold f st c. clearbody f st c.
  split; [lia | split; [lia | reflexivity]].
Qed.

End SessionProperties.

Section SummaryProperties.
Variable pyfloat : Type.
Variable isoformat : datetime -> str.

Implicit Types (self : SyntheticLogGenerator) (bug : Defects4JBug)
         (outs : list (TestOutput pyfloat)) (o : TestOutput pyfloat).

Lemma find_filter_head outs :
  find (@is_fail pyfloat) outs = hd_error (filter (@is_fail pyfloat) outs).
Proof.
  induction outs as [|o outs IH]; [reflexivity|].
  cbn [find filter]. now destruct (is_fail o).
Qed.

(** C4, as the code has it. The root-cause summary is the fixed
    template, with the number of outcomes with status FAIL and the first
    two modified classes joined by a comma; when the first failing
    outcome carries a non-empty error message, the summary ends with
    the first 100 characters of that message, labelled and followed by
    an ellipsis, and with nothing more otherwise. *)
Theorem root_cause_summary_template bug outs :
  _generate_root_cause_summary bug outs
  = summary_template bug outs
    ++ match quoted_message outs with
       | Some msg => excerpt msg
       | None => []
       end.
Proof.
  unfold _generate_root_cause_summary, quoted_message, summary_template,
    count_fail, len, excerpt.
  rewrite find_filter_head.
  destruct (filter (@is_fail pyfloat) outs) as [|o failed]; cbn [hd_error].
  - now rewrite !app_nil_r, <- !app_assoc.
  - destruct (error_message o) as [[|c msg]|]; cbn [truthy];
      rewrite ?app_nil_r, <- !app_assoc; reflexivity.
Qed.

End SummaryProperties.

(** C4, as the specification words it, fails: of two failing outcomes only
    the second has an error message, and the summary quotes none. *)
Lemma summary_any_message_counterexample :
  ~ summary_as_specified (Sample.bug Sample.classes4) Sample.silent_then_loud
      (_generate_root_cause_summary (Sample.bug Sample.classes4)
                                    Sample.silent_then_loud).
Proof.
  intros [H _].
  destruct H as (o & msg & _ & _ & _ & _ & Heq).
  - exists (Sample.outcome_of "org.Foo::testBaz" "FAIL" (Some "boom"%string) None),
      (chars "boom").
    repeat split; [right; left; reflexivity | discriminate].
  - change (_generate_root_cause_summary (Sample.bug Sample.classes4)
              Sample.silent_then_loud)
      with (summary_template (Sample.bug Sample.classes4)
              Sample.silent_then_loud ++ []) in Heq.
    apply app_inv_head in Heq. discriminate Heq.
Qed.

Lemma investigation_caps_at_three_witness :
  exists c1 c2 c3 rest,
    Sample.classes4 = c1 :: c2 :: c3 :: rest /\ rest <> []
    /\ _generate_investigation_phase (pyfloat:=Sample.float0) Sample.iso
         Sample.generator (Sample.bug Sample.classes4)
       = ([ start_entry Sample.iso Sample.generator
              (Sample.bug Sample.classes4);
            class_entry Sample.iso
              (plus_seconds (base_time Sample.generator) 70) c1;
            class_entry Sample.iso
              (plus_seconds (base_time Sample.generator) 80) c2;
            class_entry Sample.iso
              (plus_seconds (base_time Sample.generator) 90) c3 ],
          [ chars "Began examining modified classes";
            chars "Analyzed " ++ c1;
            chars "Analyzed " ++ c2;
            chars "Analyzed " ++ c3 ])
    /\ metadata (start_entry (pyfloat:=Sample.float0) Sample.iso
                   Sample.generator (Sample.bug Sample.classes4))
       = Some [ (chars "modified_classes",
                 PList (map PStr (c1 :: c2 :: c3 :: rest))) ].
Proof.
  apply (@investigation_caps_at_three Sample.float0 Sample.iso
           Sample.generator (Sample.bug Sample.classes4)).
  simpl. lia.
Defined.

Lemma no_failures_session_witness :
  _generate_failure_phase Sample.iso Sample.generator
    (Sample.bug Sample.classes4) Sample.passing = ([], []).
Proof.
  apply (@no_failures_session Sample.float0 Sample.iso Sample.generator
           (Sample.bug Sample.classes4) Sample.passing).
  intros o [<- | [<- | []]]; reflexivity.
Defined.

Section Determinism.
Variable pyfloat : Type.
Variable isoformat : datetime -> str.

Implicit Types (self : SyntheticLogGenerator) (bug : Defects4JBug)
         (outs : list (TestOutput pyfloat)).

Lemma plus_seconds_0 (t : datetime) : plus_seconds t 0 = t.
Proof. unfold plus_seconds. lia. Qed.

Lemma class_entries_stamps (classes : list str) :
  forall t d,
    map (@log_timestamp pyfloat)
        (class_entries isoformat (plus_seconds t d) classes)
    = map (fun k => isoformat (plus_seconds t k))
          (class_offsets d (length classes)).
Proof.
  induction classes as [|c classes IH]; intros t d; [reflexivity|].
  cbn [class_entries class_offsets length map log_timestamp class_entry].
  now rewrite plus_seconds_plus, IH.
Qed.

Lemma class_entries_unstamped (classes : list str) :
  forall t t',
    map (@unstamped pyfloat) (class_entries isoformat t classes)
    = map (@unstamped pyfloat) (class_entries isoformat t' classes).
Proof.
  induction classes as [|c classes IH]; intros t t'; [reflexivity|].
  cbn [class_entries map].
  now rewrite (IH _ (plus_seconds t' 10)).
Qed.

(** C9. Generation is a function of the bug record, the outcomes and the
    session start held by the generator: generators with the same start
    build the same session.  Every entry is stamped with the start moved
    by an offset that the bug record and the outcomes fix, and the start
    shows nowhere else: apart from the stamps, the log, and with it the
    timeline and the root-cause summary, are the same for any two
    starts.  (The generator has no other input: no clock and no file is
    within its reach.) *)
Theorem generation_deterministic self1 self2 bug outs :
  let s1 := generate_debug_session isoformat self1 bug outs in
  let s2 := generate_debug_session isoformat self2 bug outs in
  (base_time self1 = base_time self2 -> s1 = s2)
  /\ map (@log_timestamp pyfloat) (log_sequence s1)
     = map (fun d => isoformat (plus_seconds (base_time self1) d))
           (schedule bug outs)
  /\ map (@unstamped pyfloat) (log_sequence s1)
     = map (@unstamped pyfloat) (log_sequence s2)
  /\ investigation_timeline s1 = investigation_timeline s2
  /\ root_cause_summary s1 = root_cause_summary s2.
Proof.
  intros s1 s2.
  destruct (session_phases isoformat self1 bug outs) as [Hl1 Ht1].
  destruct (session_phases isoformat self2 bug outs) as [Hl2 Ht2].
  fold s1 in Hl1, Ht1. fold s2 in Hl2, Ht2.
  rewrite failure_phase_spec, investigation_phase_spec in Hl1, Ht1, Hl2, Ht2.
  cbn [fst snd] in Hl1, Ht1, Hl2, Ht2.
  split; [|split; [|split; [|split]]].
  - intros Hb. subst s1 s2. destruct self1, self2. cbn in Hb.
    now subst.
  - rewrite Hl1. unfold schedule.
    cbn [app map _generate_setup_phase fst log_timestamp].
    rewrite plus_seconds_0. do 2 f_equal.
    rewrite !map_app. f_equal; [apply failure_entries_stamps|].
    cbn [app map start_entry log_timestamp]. f_equal.
    rewrite !map_app, class_entries_stamps, length_firstn. f_equal.
    cbn. now rewrite !plus_seconds_plus.
  - rewrite Hl1, Hl2, !map_app.
    f_equal. f_equal; [apply failure_entries_unstamped|].
    f_equal. cbn [map]. f_equal. apply class_entries_unstamped.
  - now rewrite Ht1, Ht2.
  - reflexivity.
Qed.

End Determinism.

Lemma generation_deterministic_witness :
  generate_debug_session Sample.iso Sample.generator
    (Sample.bug Sample.classes4) Sample.silent_then_loud
  = generate_debug_session Sample.iso (init 1700000000000000%Z)
      (Sample.bug Sample.classes4) Sample.silent_then_loud.
Proof.
  apply (@generation_deterministic Sample.float0 Sample.iso Sample.generator
           (init 1700000000000000%Z) (Sample.bug Sample.classes4)
           Sample.silent_then_loud).
  reflexivity.
Defined.

(* ----------------------------------------------------------------- *)
(** ** The matcher *)

Lemma star_loop_sound (m : mstate -> cont -> option mstate) (r : regex) :
  (forall st k e, m st k = Some e ->
                  exists st', matches r st st' /\ k st' = Some e) ->
  forall n st k e,
    star_loop m n st k = Some e ->
    exists st', matches (Star r) st st' /\ k st' = Some e.
Proof.
  intros Hm. induction n as [|n IH]; intros st k e H; cbn [star_loop] in H.
  - exists st. split; [constructor | assumption].
  - destruct (m st _) as [a|] eqn:Hbody.
    + injection H as ->.
      apply Hm in Hbody as [st1 [H1 Hk]].
      destruct (progress st st1) eqn:Hp; [|discriminate].
      apply IH in Hk as [st2 [H2 Hk]].
      exists st2. split; [|assumption].
      eapply M_StarS; eassumption.
    + exists st. split; [constructor | assumption].
Qed.

(** An answer of the matcher is an answer of its continuation at the end
    of a path of the pattern. *)
Lemma rmatch_sound (r : regex) :
  forall st k e,
    rmatch r st k = Some e ->
    exists st', matches r st st' /\ k st' = Some e.
Proof.
  induction r as [|p|r1 IH1 r2 IH2|r1 IH1 r2 IH2|r IH| | |r IH|n r IH];
    intros st k e H; cbn [rmatch] in H.
  - exists st. split; [constructor | assumption].
  - destruct st as [prev [|c s] caps]; cbn in H; [discriminate|].
    destruct (p c) eqn:Hp; [|discriminate].
    eexists. split; [now constructor | eassumption].
  - apply IH1 in H as [st1 [H1 H]]. apply IH2 in H as [st2 [H2 H]].
    exists st2. split; [econstructor; eassumption | assumption].
  - destruct (rmatch r1 st k) as [a|] eqn:Hl.
    + injection H as ->. apply IH1 in Hl as [st' [H1 Hk]].
      exists st'. split; [now apply M_AltL | assumption].
    + apply IH2 in H as [st' [H2 Hk]].
      exists st'. split; [now apply M_AltR | assumption].
  - eapply star_loop_sound; eassumption.
  - destruct (at_bol st) eqn:Hb; [|discriminate].
    exists st. split; [now constructor | assumption].
  - destruct (at_eol st) eqn:Hb; [|discriminate].
    exists st. split; [now constructor | assumption].
  - destruct (rmatch r st Some) eqn:Hn; [discriminate|].
    exists st. split; [now constructor | assumption].
  - apply IH in H as [st' [H1 Hk]].
    exists (set_cap n st st'). split; [now constructor | assumption].
Qed.

(** [re.search] answers with a match of the pattern that starts somewhere
    in the subject. *)
Lemma search_at_sound (r : regex) (s : str) :
  forall off prev m,
    search_at r off prev s = Some m ->
    exists pre s1 prev1,
      s = pre ++ s1 /\ m_start m = off + length pre
      /\ matches r (MState prev1 s1 []) (m_final m).
Proof.
  induction s as [|c s IH]; intros off prev m H; cbn [search_at] in H.
  - destruct (rmatch r _ Some) as [e|] eqn:Hm; [|discriminate].
    injection H as <-. apply rmatch_sound in Hm as [st' [Hm [= ->]]].
    exists [], [], prev. cbn. repeat split; [lia | assumption].
  - destruct (rmatch r _ Some) as [e|] eqn:Hm.
    + injection H as <-. apply rmatch_sound in Hm as [st' [Hm [= ->]]].
      exists [], (c :: s), prev. cbn. repeat split; [lia | assumption].
    + apply IH in H as (pre & s1 & prev1 & -> & Hs & Hm').
      exists (c :: pre), s1, prev1. cbn. repeat split; [lia | assumption].
Qed.

Lemma matches_Eps_inv st st' : matches Eps st st' -> st' = st.
Proof. intros H. now inversion H. Qed.

Lemma matches_Chr_inv p st st' :
  matches (Chr p) st st' ->
  exists c, p c = true /\ ms_rest st = c :: ms_rest st'
            /\ ms_prev st' = Some c /\ ms_caps st' = ms_caps st.
Proof. intros H. inversion H; subst. exists c. now repeat split. Qed.

Lemma matches_Seq_inv r1 r2 st st2 :
  matches (Seq r1 r2) st st2 ->
  exists st1, matches r1 st st1 /\ matches r2 st1 st2.
Proof. intros H. inversion H; subst. eauto. Qed.

Lemma matches_Group_inv n r st st' :
  matches (Group n r) st st' ->
  exists st1, matches r st st1 /\ st' = set_cap n st st1.
Proof. intros H. inversion H; subst. eauto. Qed.

Lemma matches_Lit (w : str) :
  forall st st', matches (Lit w) st st' ->
                 ms_rest st = w ++ ms_rest st' /\ ms_caps st' = ms_caps st.
Proof.
  induction w as [|c w IH]; intros st st' H; cbn in H.
  - apply matches_Eps_inv in H. subst. now split.
  - apply matches_Seq_inv in H as [st1 [H1 H2]].
    apply matches_Chr_inv in H1 as (c' & Hc & Hr & _ & Hcaps).
    apply Ascii.eqb_eq in Hc. subst c'.
    apply IH in H2 as [H2 H3]. rewrite Hr, H2, H3, Hcaps. now split.
Qed.

(** A pattern that begins with a literal only matches where the literal
    stands. *)
Lemma search_Lit_occurs (w : str) (r : regex) (s : str) (m : rmatch_obj) :
  search (Seq (Lit w) r) s = Some m -> occurs w s.
Proof.
  intros H. apply search_at_sound in H as (pre & s1 & prev1 & -> & _ & H).
  apply matches_Seq_inv in H as [st1 [H1 _]].
  apply matches_Lit in H1 as [H1 _]. cbn in H1. subst s1.
  now exists pre, (ms_rest st1).
Qed.

Lemma search_Lit_none (w : str) (r : regex) (s : str) :
  ~ occurs w s -> search (Seq (Lit w) r) s = None.
Proof.
  intros Hno. destruct (search _ s) as [m|] eqn:H; [|reflexivity].
  elim Hno. eapply search_Lit_occurs, H.
Qed.

(** A match of a pattern that ends with group 1 has its group 1. *)
Lemma matches_ends_with_group (r : regex) st st' :
  matches (Seq (Group 1 r) Eps) st st' ->
  exists w, lookup_cap 1 (ms_caps st') = Some w.
Proof.
  intros H. apply matches_Seq_inv in H as [st1 [H1 H2]].
  apply matches_Eps_inv in H2. subst st'.
  apply matches_Group_inv in H1 as [st2 [_ ->]].
  cbn. eauto.
Qed.

(* ----------------------------------------------------------------- *)
(** ** The bug-metadata parser never faults *)

Lemma block_group_present (h : str) (s : str) (m : rmatch_obj) :
  search (seqs [Lit h; Star space; ch NL; Group 1 indented_lines]) s
  = Some m ->
  exists w, group1 m = Ok w.
Proof.
  intros H. apply search_at_sound in H as (pre & s1 & prev1 & _ & _ & H).
  cbn [seqs fold_right] in H.
  apply matches_Seq_inv in H as [st1 [_ H]].
  apply matches_Seq_inv in H as [st2 [_ H]].
  apply matches_Seq_inv in H as [st3 [_ H]].
  apply matches_ends_with_group in H as [w Hw].
  exists w. unfold group1, group. now rewrite Hw.
Qed.

Lemma url_group_present (s : str) (m : rmatch_obj) :
  search url_re s = Some m -> exists w, group1 m = Ok w.
Proof.
  intros H. apply search_at_sound in H as (pre & s1 & prev1 & _ & _ & H).
  unfold url_re in H. cbn [seqs fold_right] in H.
  apply matches_Seq_inv in H as [st1 [_ H]].
  apply matches_Seq_inv in H as [st2 [_ H]].
  apply matches_ends_with_group in H as [w Hw].
  exists w. unfold group1, group. now rewrite Hw.
Qed.

Lemma parse_bug_info_with_total (tests_bullet : regex) (info_output : str) :
  exists i,
    parse_bug_info_with tests_bullet info_output = Ok i
    /\ (~ occurs tests_header info_output -> info_triggering_tests i = [])
    /\ (~ occurs url_header info_output -> info_bug_report_url i = [])
    /\ (~ occurs sources_header info_output -> info_modified_classes i = [])
    /\ info_patch i = [].
Proof.
  unfold parse_bug_info_with.
  assert (Ht : exists tests,
             match search tests_re info_output with
             | Some tests_match =>
                 block <- group1 tests_match ;; Ok (findall tests_bullet block)
             | None => Ok []
             end = Ok tests
             /\ (~ occurs tests_header info_output -> tests = [])).
  { destruct (search tests_re info_output) as [m|] eqn:Hs.
    - destruct (block_group_present _ _ Hs) as [w Hw]. rewrite Hw.
      eexists. split; [reflexivity|]. intros Hno.
      unfold tests_re in Hs. cbn [seqs fold_right] in Hs.
      now rewrite search_Lit_none in Hs.
    - now exists []. }
  assert (Hu : exists url,
             match search url_re info_output with
             | Some url_match => group1 url_match
             | None => Ok []
             end = Ok url
             /\ (~ occurs url_header info_output -> url = [])).
  { destruct (search url_re info_output) as [m|] eqn:Hs.
    - destruct (url_group_present _ Hs) as [w Hw]. rewrite Hw.
      eexists. split; [reflexivity|]. intros Hno.
      unfold url_re in Hs. cbn [seqs fold_right] in Hs.
      now rewrite search_Lit_none in Hs.
    - now exists []. }
  assert (Hc : exists sources,
             match search sources_re info_output with
             | Some sources_match =>
                 sources_block <- group1 sources_match ;;
                 Ok (findall bullet_re sources_block)
             | None => Ok []
             end = Ok sources
             /\ (~ occurs sources_header info_output -> sources = [])).
  { destruct (search sources_re info_output) as [m|] eqn:Hs.
    - destruct (block_group_present _ _ Hs) as [w Hw]. rewrite Hw.
      eexists. split; [reflexivity|]. intros Hno.
      unfold sources_re in Hs. cbn [seqs fold_right] in Hs.
      now rewrite search_Lit_none in Hs.
    - now exists []. }
  destruct Ht as (tests & -> & Ht), Hu as (url & -> & Hu),
    Hc as (sources & -> & Hc).
  eexists. split; [reflexivity|]. cbn. auto.
Qed.

(** C7. On any text the parser of defects_manager.py returns a record and
    does not fault.  In that record the triggering tests are empty when
    the text has no triggering-tests header, the URL is the empty string
    when it has no bug-report-url label, the modified classes are empty
    when it has no modified-sources header, and the patch is the empty
    string. *)
Theorem parse_bug_info_total (info_output : str) :
  exists i,
    DefectsManager._parse_bug_info info_output = Ok i
    /\ (~ occurs tests_header info_output -> info_triggering_tests i = [])
    /\ (~ occurs url_header info_output -> info_bug_report_url i = [])
    /\ (~ occurs sources_header info_output -> info_modified_classes i = [])
    /\ info_patch i = [].
Proof. apply parse_bug_info_with_total. Qed.

Lemma parse_bug_info_total_witness :
  DefectsManager._parse_bug_info (chars "defects4j: unknown project")
  = Ok (Info [] [] [] []).
Proof.
  destruct (parse_bug_info_total (chars "defects4j: unknown project"))
    as (i & Hi & Ht & Hu & Hc & Hp).
  rewrite Hi. destruct i as [tests url patch sources]. cbn in *.
  rewrite Ht, Hu, Hc, Hp; [reflexivity | | |];
    apply contains_false_iff; reflexivity.
Defined.

(* ----------------------------------------------------------------- *)
(** ** How the matcher runs on literals and greedy classes *)

Lemma rmatch_Lit_eq (w : str) :
  forall prev s caps k,
    rmatch (Lit w) (MState prev (w ++ s) caps) k
    = k (MState (prev_after prev w) s caps).
Proof.
  induction w as [|c w IH]; intros prev s caps k; [reflexivity|].
  cbn [Lit fold_right rmatch app ms_rest ms_caps].
  rewrite Ascii.eqb_refl. apply IH.
Qed.

Lemma rmatch_Lit_fail (w : str) :
  forall st k, starts_with w (ms_rest st) = false ->
               rmatch (Lit w) st k = None.
Proof.
  induction w as [|c w IH]; intros [prev s caps] k H; [discriminate|].
  cbn [Lit fold_right rmatch ms_rest ms_caps] in *.
  destruct s as [|c' s]; [reflexivity|].
  cbn [starts_with] in H. destruct (Ascii.eqb c c'); [|reflexivity].
  apply IH. exact H.
Qed.

Lemma star_loop_chr (p : ascii -> bool) (s : str) :
  forall n prev caps k,
    length s <= n ->
    star_loop (rmatch (Chr p)) n (MState prev s caps) k
    = backtrack p prev s caps k.
Proof.
  induction s as [|c s IH]; intros n prev caps k Hn.
  - destruct n; reflexivity.
  - destruct n as [|n]; [cbn in Hn; lia|].
    cbn [star_loop rmatch ms_rest ms_caps backtrack].
    destruct (p c); [|reflexivity].
    unfold progress. cbn [ms_rest length].
    rewrite (proj2 (Nat.ltb_lt _ _) (Nat.lt_succ_diag_r _)).
    rewrite IH by (cbn in Hn; lia). reflexivity.
Qed.

(** A greedy star over a class makes the choices of [backtrack]. *)
Lemma rmatch_star_chr (p : ascii -> bool) prev s caps k :
  rmatch (Star (Chr p)) (MState prev s caps) k = backtrack p prev s caps k.
Proof. cbn [rmatch ms_rest]. now apply star_loop_chr. Qed.

(** The farthest position first: when the continuation accepts after the
    whole run, that is the answer. *)
Lemma backtrack_greedy (p : ascii -> bool) (a : str) :
  forall prev b caps k e,
    forallb p a = true -> stops p b ->
    k (MState (prev_after prev a) b caps) = Some e ->
    backtrack p prev (a ++ b) caps k = Some e.
Proof.
  induction a as [|c a IH]; intros prev b caps k e Ha Hb Hk.
  - cbn in *. destruct b as [|c b]; [assumption|].
    cbn [backtrack]. cbn in Hb. now rewrite Hb.
  - cbn [forallb] in Ha. apply andb_prop in Ha as [Hc Ha].
    cbn [app backtrack]. rewrite Hc.
    now rewrite (IH (Some c) b caps k e Ha Hb Hk).
Qed.

(** When the continuation refuses at every position of the run, so does
    the star. *)
Lemma backtrack_none (p : ascii -> bool) (a : str) :
  forall prev b caps k,
    forallb p a = true -> stops p b ->
    (forall a1 a2, a = a1 ++ a2 ->
                   k (MState (prev_after prev a1) (a2 ++ b) caps) = None) ->
    backtrack p prev (a ++ b) caps k = None.
Proof.
  induction a as [|c a IH]; intros prev b caps k Ha Hb Hk.
  - specialize (Hk [] [] eq_refl). cbn in *.
    destruct b as [|c b]; [assumption|].
    cbn [backtrack]. cbn in Hb. now rewrite Hb.
  - cbn [forallb] in Ha. apply andb_prop in Ha as [Hc Ha].
    cbn [app backtrack]. rewrite Hc.
    rewrite (IH (Some c) b caps k Ha Hb).
    + apply (Hk [] (c :: a) eq_refl).
    + intros a1 a2 ->. apply (Hk (c :: a1) a2 eq_refl).
Qed.

(** When the continuation refuses at every position but the first, the
    answer is its answer there. *)
Lemma backtrack_first (p : ascii -> bool) (a : str) prev b caps k :
  forallb p a = true -> stops p b ->
  (forall a1 a2, a = a1 ++ a2 -> a1 <> [] ->
                 k (MState (prev_after prev a1) (a2 ++ b) caps) = None) ->
  backtrack p prev (a ++ b) caps k = k (MState prev (a ++ b) caps).
Proof.
  intros Ha Hb Hk. destruct a as [|c a].
  - cbn. destruct b as [|c b]; [reflexivity|].
    cbn [backtrack]. cbn in Hb. now rewrite Hb.
  - cbn [forallb] in Ha. apply andb_prop in Ha as [Hc Ha].
    cbn [app backtrack]. rewrite Hc.
    rewrite backtrack_none; [reflexivity | assumption | assumption |].
    intros a1 a2 ->. apply (Hk (c :: a1) a2 eq_refl). discriminate.
Qed.

(* ----------------------------------------------------------------- *)
(** ** Character classes *)

Lemma is_blank_cases c :
  is_blank c = true -> c = " "%char \/ c = "009"%char.
Proof.
  unfold is_blank. rewrite orb_true_iff, !Ascii.eqb_eq. tauto.
Qed.

Lemma blank_is_space c : is_blank c = true -> is_space c = true.
Proof. intros H. now destruct (is_blank_cases _ H) as [-> | ->]. Qed.

Lemma blank_not_newline c : is_blank c = true -> not_newline c = true.
Proof. intros H. now destruct (is_blank_cases _ H) as [-> | ->]. Qed.

Lemma blank_not_dash c : is_blank c = true -> Ascii.eqb "-" c = false.
Proof. intros H. now destruct (is_blank_cases _ H) as [-> | ->]. Qed.

Lemma blank_not_NL c : is_blank c = true -> Ascii.eqb NL c = false.
Proof. intros H. now destruct (is_blank_cases _ H) as [-> | ->]. Qed.

Lemma forallb_blank_space s :
  forallb is_blank s = true -> forallb is_space s = true.
Proof.
  rewrite !forallb_forall. intros H c Hc. apply blank_is_space. now apply H.
Qed.

Lemma forallb_blank_one_line s :
  forallb is_blank s = true -> one_line s.
Proof.
  unfold one_line. rewrite !forallb_forall. intros H c Hc.
  apply blank_not_newline. now apply H.
Qed.

Lemma not_newline_NL c : not_newline c = true -> Ascii.eqb NL c = false.
Proof.
  unfold not_newline. rewrite negb_true_iff, Ascii.eqb_sym. tauto.
Qed.

Lemma one_line_app a b : one_line a -> one_line b -> one_line (a ++ b).
Proof. unfold one_line. rewrite forallb_app. now intros -> ->. Qed.

Lemma prev_after_app prev a b :
  prev_after prev (a ++ b) = prev_after (prev_after prev a) b.
Proof. revert prev. induction a as [|c a IH]; intros prev; cbn; auto. Qed.

(* ----------------------------------------------------------------- *)
(** ** Steps of the matcher *)

Lemma rmatch_Seq r1 r2 st k :
  rmatch (Seq r1 r2) st k = rmatch r1 st (fun st' => rmatch r2 st' k).
Proof. reflexivity. Qed.

Lemma rmatch_Eps st k : rmatch Eps st k = k st.
Proof. reflexivity. Qed.

Lemma rmatch_Chr_ok p c prev s caps k :
  p c = true ->
  rmatch (Chr p) (MState prev (c :: s) caps) k = k (MState (Some c) s caps).
Proof. intros H. cbn. now rewrite H. Qed.

Lemma rmatch_Chr_no p c prev s caps k :
  p c = false -> rmatch (Chr p) (MState prev (c :: s) caps) k = None.
Proof. intros H. cbn. now rewrite H. Qed.

Lemma rmatch_Chr_end p prev caps k :
  rmatch (Chr p) (MState prev [] caps) k = None.
Proof. reflexivity. Qed.

Lemma rmatch_Bol_ok st k : at_bol st = true -> rmatch Bol st k = k st.
Proof. intros H. cbn. now rewrite H. Qed.

Lemma rmatch_Bol_no st k : at_bol st = false -> rmatch Bol st k = None.
Proof. intros H. cbn. now rewrite H. Qed.

Lemma rmatch_Eol_ok st k : at_eol st = true -> rmatch Eol st k = k st.
Proof. intros H. cbn. now rewrite H. Qed.

Lemma rmatch_Group n r st k :
  rmatch (Group n r) st k = rmatch r st (fun st' => k (set_cap n st st')).
Proof. reflexivity. Qed.

Lemma rmatch_Plus r st k :
  rmatch (Plus r) st k = rmatch r st (fun st' => rmatch (Star r) st' k).
Proof. reflexivity. Qed.

(** When the continuation refuses everywhere but after the whole run, the
    answer is its answer there. *)
Lemma backtrack_last (p : ascii -> bool) (a : str) :
  forall prev b caps k,
    forallb p a = true -> stops p b ->
    (forall a1 a2, a = a1 ++ a2 -> a2 <> [] ->
                   k (MState (prev_after prev a1) (a2 ++ b) caps) = None) ->
    backtrack p prev (a ++ b) caps k
    = k (MState (prev_after prev a) b caps).
Proof.
  induction a as [|c a IH]; intros prev b caps k Ha Hb Hk.
  - cbn. destruct b as [|c b]; [reflexivity|].
    cbn [backtrack]. cbn in Hb. now rewrite Hb.
  - cbn [forallb] in Ha. apply andb_prop in Ha as [Hc Ha].
    cbn [app backtrack prev_after]. rewrite Hc.
    rewrite IH; try assumption.
    + destruct (k _) eqn:Hend; [reflexivity|].
      apply (Hk [] (c :: a) eq_refl). discriminate.
    + intros a1 a2 -> Hne. now apply (Hk (c :: a1) a2 eq_refl).
Qed.

Lemma search_at_hit r off prev s e :
  rmatch r (MState prev s []) Some = Some e ->
  search_at r off prev s = Some (MatchObj off e).
Proof. intros H. destruct s; cbn [search_at]; now rewrite H. Qed.

(** [re.search] passes over a prefix none of whose positions matches. *)
Lemma search_at_skip r (pre : str) :
  forall off prev s,
    (forall pre1 pre2, pre = pre1 ++ pre2 -> pre2 <> [] ->
       rmatch r (MState (prev_after prev pre1) (pre2 ++ s) []) Some = None) ->
    search_at r off prev (pre ++ s)
    = search_at r (off + length pre) (prev_after prev pre) s.
Proof.
  induction pre as [|c pre IH]; intros off prev s H.
  - cbn. now rewrite Nat.add_0_r.
  - pose proof (H [] (c :: pre) eq_refl ltac:(discriminate)) as H0.
    cbn [app prev_after] in H0. cbn [app search_at]. rewrite H0.
    rewrite IH.
    + cbn [length prev_after]. f_equal. lia.
    + intros pre1 pre2 -> Hne. now apply (H (c :: pre1) pre2 eq_refl).
Qed.

Lemma search_at_shift r (s : str) :
  forall off prev,
    search_at r (S off) prev s
    = option_map (fun m => MatchObj (S (m_start m)) (m_final m))
                 (search_at r off prev s).
Proof.
  induction s as [|c s IH]; intros off prev; cbn [search_at].
  - now destruct (rmatch r _ Some).
  - destruct (rmatch r _ Some); [reflexivity | apply IH].
Qed.

(* ----------------------------------------------------------------- *)
(** ** The block of indented lines *)

Lemma line_start_bol prev s caps :
  line_start prev -> at_bol (MState prev s caps) = true.
Proof. intros [-> | ->]; reflexivity. Qed.

(** At the start of an indented line the line pattern reads the line and
    its newline, and nothing else. *)
Lemma rmatch_line (b : ascii) (body s : str) prev caps k :
  line_start prev -> is_blank b = true -> one_line body ->
  rmatch line_re (MState prev (b :: body ++ NL :: s) caps) k
  = k (MState (Some NL) s caps).
Proof.
  intros Hp Hb Hbody. unfold line_re, dot, ch. cbn [seqs fold_right].
  rewrite rmatch_Seq, rmatch_Bol_ok by now apply line_start_bol.
  rewrite rmatch_Seq, rmatch_Chr_ok by assumption.
  rewrite rmatch_Seq, rmatch_star_chr.
  rewrite backtrack_last; try assumption.
  - rewrite rmatch_Seq. rewrite rmatch_Chr_ok.
    + reflexivity.
    + apply Ascii.eqb_refl.
  - reflexivity.
  - intros a1 [|c a2] -> Hne; [now elim Hne|].
    rewrite rmatch_Seq. cbn [app]. apply rmatch_Chr_no.
    apply not_newline_NL. unfold one_line in Hbody.
    rewrite forallb_app in Hbody. apply andb_prop in Hbody as [_ Hbody].
    cbn in Hbody. now apply andb_prop in Hbody as [Hbody _].
Qed.

Lemma rmatch_line_stop (post : str) prev caps k :
  stops is_blank post -> rmatch line_re (MState prev post caps) k = None.
Proof.
  intros Hpost. unfold line_re, dot, ch. cbn [seqs fold_right].
  rewrite rmatch_Seq. cbn [rmatch]. destruct (at_bol _); [|reflexivity].
  cbn [ms_rest]. destruct post as [|c post]; [reflexivity|].
  cbn in Hpost. now rewrite Hpost.
Qed.

Lemma star_lines (ls : list str) :
  forall n prev post caps k e,
    Forall indented ls -> line_start prev -> stops is_blank post ->
    length (unlines ls ++ post) <= n ->
    k (MState (match ls with [] => prev | _ => Some NL end) post caps)
    = Some e ->
    star_loop (rmatch line_re) n (MState prev (unlines ls ++ post) caps) k
    = Some e.
Proof.
  induction ls as [|l ls IH]; intros n prev post caps k e Hls Hp Hpost Hn Hk.
  - cbn [unlines map concat app]. destruct n as [|n]; [assumption|].
    cbn [star_loop]. now rewrite rmatch_line_stop.
  - inversion Hls as [|? ? (b & body & -> & Hb & Hbody) Hls']; subst.
    unfold unlines in *. cbn [map concat] in *.
    rewrite <- !app_assoc in *. cbn [app] in *.
    destruct n as [|n]; [cbn in Hn; lia|].
    cbn [star_loop]. rewrite rmatch_line by assumption.
    unfold progress. cbn [ms_rest length].
    match goal with
    | |- context [?a <? ?b] =>
        replace (a <? b) with true
          by (symmetry; apply Nat.ltb_lt; rewrite (length_app body);
              cbn [length]; lia)
    end.
    rewrite (IH n (Some NL) post caps k e); try assumption.
    + reflexivity.
    + now right.
    + cbn [length] in Hn. rewrite (length_app body) in Hn.
      cbn [length] in Hn. lia.
    + now destruct ls.
Qed.

Lemma one_line_cons c s : not_newline c = true -> one_line s -> one_line (c :: s).
Proof. unfold one_line. cbn. now intros -> ->. Qed.

Lemma line_ok_indented l : line_ok l -> indented (line_text l).
Proof.
  destruct l as [indent sep name | indent detail]; cbn [line_ok line_text].
  - intros ([Hne Hi] & [_ Hs] & Hn & _).
    destruct indent as [|b indent]; [now elim Hne|].
    cbn in Hi. apply andb_prop in Hi as [Hb Hi].
    exists b, (indent ++ "-"%char :: sep ++ name). repeat split; try assumption.
    apply one_line_app; [now apply forallb_blank_one_line|].
    apply one_line_cons; [reflexivity|].
    apply one_line_app; [now apply forallb_blank_one_line | assumption].
  - intros ([Hne Hi] & Hd).
    destruct indent as [|b indent]; [now elim Hne|].
    cbn in Hi. apply andb_prop in Hi as [Hb Hi].
    exists b, (indent ++ chars "-->" ++ detail). repeat split; try assumption.
    apply one_line_app; [now apply forallb_blank_one_line|].
    apply one_line_app; [reflexivity | assumption].
Qed.

(** Every line of a block is its indent, a dash and the rest. *)
Lemma line_ok_dash l :
  line_ok l ->
  exists indent rest,
    line_text l = indent ++ "-"%char :: rest /\ forallb is_blank indent = true.
Proof.
  destruct l as [indent sep name | indent detail]; cbn [line_ok line_text].
  - intros ([_ Hi] & _). now exists indent, (sep ++ name).
  - intros ([_ Hi] & _). now exists indent, (chars "->" ++ detail).
Qed.

Lemma first_occurrence_no_earlier (w pre1 pre2 rest : str) :
  first_occurrence w (pre1 ++ pre2) ((pre1 ++ pre2) ++ w ++ rest) ->
  pre2 <> [] ->
  starts_with w (pre2 ++ w ++ rest) = false.
Proof.
  intros [_ Hfirst] Hne.
  destruct (starts_with w (pre2 ++ w ++ rest)) eqn:Hs; [|reflexivity].
  apply starts_with_iff in Hs as [post' Hs].
  specialize (Hfirst pre1 post').
  rewrite <- app_assoc, Hs in Hfirst. specialize (Hfirst eq_refl).
  rewrite length_app in Hfirst. destruct pre2; [now elim Hne|].
  cbn in Hfirst. lia.
Qed.

Lemma consumed_app prev prev' (w s : str) caps caps' :
  consumed (MState prev (w ++ s) caps) (MState prev' s caps') = w.
Proof.
  unfold consumed. cbn [ms_rest]. rewrite length_app.
  replace (length w + length s - length s) with (length w) by lia.
  now rewrite firstn_app, Nat.sub_diag, firstn_all, app_nil_r.
Qed.

(** On well-formed text the search for the triggering-tests section finds
    the block, whole, as its group 1. *)
Lemma search_tests_block pre lines post text :
  well_formed_info pre lines post text ->
  exists m, search tests_re text = Some m
            /\ group1 m = Ok (render_block lines).
Proof.
  intros [-> Hfirst Hne Hlines Hpost].
  exists (MatchObj (0 + length pre)
            (MState (Some NL) post [(1, render_block lines)])).
  split; [|reflexivity].
  unfold search. rewrite search_at_skip.
  2:{ intros pre1 pre2 -> Hne2. unfold tests_re. cbn [seqs fold_right].
      rewrite rmatch_Seq. apply rmatch_Lit_fail. cbn [ms_rest].
      replace (NL :: render_block lines ++ post)
        with ([NL] ++ render_block lines ++ post) in * by reflexivity.
      eapply first_occurrence_no_earlier; [|assumption].
      rewrite <- !app_assoc in *. exact Hfirst. }
  apply search_at_hit.
  unfold tests_re, space, ch. cbn [seqs fold_right].
  rewrite rmatch_Seq, rmatch_Lit_eq.
  destruct lines as [|l lines]; [now elim Hne|].
  inversion Hlines as [|? ? Hl Hlines']; subst.
  destruct (line_ok_dash _ Hl) as (indent & rest & Htext & Hindent).
  pose proof (line_ok_indented _ Hl) as (b & body & Hb & Hblank & Hbody).
  rewrite rmatch_Seq, rmatch_star_chr.
  unfold render_block, unlines. cbn [map concat].
  rewrite <- !app_assoc. cbn [app].
  set (tail := concat (map (fun l0 => l0 ++ [NL]) (map line_text lines))
               ++ post).
  assert (Hshape : line_text l ++ NL :: tail
                   = indent ++ "-"%char :: rest ++ NL :: tail)
    by (rewrite Htext, <- app_assoc; reflexivity).
  rewrite Hshape.
  change (NL :: indent ++ "-"%char :: rest ++ NL :: tail)
    with ((NL :: indent) ++ "-"%char :: rest ++ NL :: tail).
  rewrite backtrack_first.
  - cbn [app]. rewrite rmatch_Seq, rmatch_Chr_ok by apply Ascii.eqb_refl.
    rewrite <- Hshape.
    rewrite rmatch_Seq, rmatch_Group. unfold indented_lines.
    rewrite rmatch_Plus. rewrite Hb. cbn [app].
    rewrite rmatch_line; [|now right|assumption|assumption].
    cbn [rmatch ms_rest]. subst tail.
    apply (star_lines (ls := map line_text lines)).
    + clear -Hlines'. induction Hlines'; cbn; constructor;
        [now apply line_ok_indented | assumption].
    + now right.
    + assumption.
    + reflexivity.
    + cbn [rmatch]. f_equal. unfold set_cap. cbn [ms_prev ms_rest ms_caps].
      f_equal.
      * now destruct (map line_text lines).
      * f_equal. f_equal.
        fold (unlines (map line_text lines)).
        replace (b :: body ++ NL :: unlines (map line_text lines) ++ post)
          with ((b :: body ++ NL :: unlines (map line_text lines)) ++ post)
          by (cbn; now rewrite <- !app_assoc).
        apply consumed_app.
  - cbn [forallb]. rewrite (forallb_blank_space _ Hindent). reflexivity.
  - reflexivity.
  - intros a1 a2 Hsplit Ha1. rewrite rmatch_Seq.
    destruct a1 as [|c a1]; [now elim Ha1|].
    injection Hsplit as <- Hindent'. subst indent.
    rewrite forallb_app in Hindent. apply andb_prop in Hindent as [_ Ha2].
    destruct a2 as [|c2 a2]; cbn [app].
    + now apply rmatch_Chr_no.
    + apply rmatch_Chr_no. cbn in Ha2. apply andb_prop in Ha2 as [Hc2 _].
      now apply blank_not_NL.
Qed.

(* ----------------------------------------------------------------- *)
(** ** The bullets of the block *)

Lemma prev_after_last (c : ascii) (w : str) prev d :
  prev_after prev (c :: w) = Some (last (c :: w) d).
Proof.
  revert c prev. induction w as [|c' w IH]; intros c prev; [reflexivity|].
  change (prev_after prev (c :: c' :: w))
    with (prev_after (Some c) (c' :: w)).
  now rewrite IH.
Qed.

Lemma one_line_last (c : ascii) (w : str) :
  one_line (c :: w) -> not_newline (last (c :: w) NL) = true.
Proof.
  unfold one_line. rewrite forallb_forall. intros H. apply H.
  destruct (exists_last (l := c :: w) ltac:(discriminate)) as (w' & x & Hx).
  rewrite Hx, last_last. apply in_or_app. right. now left.
Qed.

Lemma starts_with_arrow_app (name rest : str) :
  starts_with (chars "->") name = false -> one_line name -> name <> [] ->
  starts_with (chars "->") (name ++ NL :: rest) = false.
Proof.
  intros Hs Hone Hne. destruct name as [|c1 [|c2 name]]; [now elim Hne| |].
  - cbn [chars list_ascii_of_string starts_with app].
    destruct (Ascii.eqb "-" c1); reflexivity.
  - exact Hs.
Qed.

(** At the start of a bulleted line the pattern of defects_manager.py
    matches up to the end of the line, with the identifier as group 1. *)
Lemma rmatch_test_line prev (indent sep name s : str) :
  line_start prev -> blanks indent -> blanks sep -> identifier name ->
  rmatch test_bullet_re
    (MState prev (indent ++ "-"%char :: sep ++ name ++ NL :: s) []) Some
  = Some (MState (Some (last name NL)) (NL :: s) [(1, name)]).
Proof.
  intros Hp [_ Hi] [Hsne Hs] (Hone & Harrow & c & n & -> & Hc).
  unfold test_bullet_re, space, dot, ch. cbn [seqs fold_right].
  rewrite rmatch_Seq, rmatch_Bol_ok by now apply line_start_bol.
  rewrite rmatch_Seq, rmatch_star_chr.
  apply backtrack_greedy; [now apply forallb_blank_space | reflexivity |].
  rewrite rmatch_Seq, rmatch_Chr_ok by reflexivity.
  destruct sep as [|s0 sep]; [now elim Hsne|].
  cbn [forallb] in Hs. apply andb_prop in Hs as [Hs0 Hs].
  rewrite rmatch_Seq, rmatch_Plus. cbn [app].
  rewrite rmatch_Chr_ok by now apply blank_is_space.
  rewrite rmatch_star_chr.
  apply backtrack_greedy; [now apply forallb_blank_space | exact Hc |].
  rewrite rmatch_Seq. cbn [rmatch].
  rewrite rmatch_Lit_fail
    by (cbn [ms_rest]; apply (starts_with_arrow_app (name := c :: n));
        [assumption | assumption | discriminate]).
  pose proof Hone as Hone'. unfold one_line in Hone'. cbn [forallb] in Hone'.
  apply andb_prop in Hone' as [Hc' Hn].
  rewrite rmatch_Plus, rmatch_Chr_ok by exact Hc'.
  rewrite rmatch_star_chr.
  erewrite backtrack_greedy; [reflexivity | exact Hn | reflexivity |].
  cbn [at_eol set_cap ms_rest]. rewrite Ascii.eqb_refl.
  unfold set_cap. cbn [ms_prev ms_rest ms_caps]. f_equal. f_equal.
  - exact (@prev_after_last c n None NL).
  - f_equal. f_equal.
    change (c :: n ++ NL :: s) with ((c :: n) ++ NL :: s).
    apply consumed_app.
Qed.

(** At the start of an exception-detail line it does not match. *)
Lemma rmatch_detail_line prev (indent rest : str) :
  line_start prev -> forallb is_blank indent = true ->
  rmatch test_bullet_re
    (MState prev (indent ++ chars "--" ++ rest) []) Some = None.
Proof.
  intros Hp Hi.
  unfold test_bullet_re, space, dot, ch. cbn [seqs fold_right].
  rewrite rmatch_Seq, rmatch_Bol_ok by now apply line_start_bol.
  rewrite rmatch_Seq, rmatch_star_chr.
  apply backtrack_none; [now apply forallb_blank_space | reflexivity |].
  intros a1 a2 ->. rewrite rmatch_Seq.
  rewrite forallb_app in Hi. apply andb_prop in Hi as [_ Ha2].
  destruct a2 as [|c a2]; cbn [app].
  - cbn [chars list_ascii_of_string app].
    rewrite rmatch_Chr_ok by reflexivity.
    rewrite rmatch_Seq, rmatch_Plus. now apply rmatch_Chr_no.
  - apply rmatch_Chr_no. cbn in Ha2. apply andb_prop in Ha2 as [Hc _].
    now apply blank_not_dash.
Qed.

(** Inside a line no pattern anchored at a line start matches. *)
Lemma rmatch_mid_line r c s caps k :
  not_newline c = true -> rmatch (Seq Bol r) (MState (Some c) s caps) k = None.
Proof.
  intros Hc. rewrite rmatch_Seq. apply rmatch_Bol_no. cbn.
  unfold not_newline in Hc. now apply negb_true_iff in Hc.
Qed.

(** [re.findall] passes over a position that does not match. *)
Lemma findall_skip r fuel prev c s :
  rmatch r (MState prev (c :: s) []) Some = None ->
  findall_loop fuel r prev (c :: s) = findall_loop fuel r (Some c) s.
Proof.
  intros H. destruct fuel as [|fuel]; [reflexivity|].
  cbn [findall_loop search_at]. rewrite H.
  rewrite (search_at_shift r s 0 (Some c)).
  destruct (search_at r 0 (Some c) s) as [m|]; reflexivity.
Qed.

Lemma findall_rest_of_line r fuel (w : str) :
  forall c s,
    not_newline c = true -> one_line w ->
    findall_loop fuel (Seq Bol r) (Some c) (w ++ NL :: s)
    = findall_loop fuel (Seq Bol r) (Some NL) s.
Proof.
  induction w as [|x w IH]; intros c s Hc Hw; cbn [app].
  - apply findall_skip. now apply rmatch_mid_line.
  - rewrite findall_skip by now apply rmatch_mid_line.
    unfold one_line in Hw. cbn in Hw. apply andb_prop in Hw as [Hx Hw].
    now apply IH.
Qed.

Lemma findall_end r fuel prev :
  rmatch r (MState prev [] []) Some = None ->
  findall_loop fuel r prev [] = [].
Proof.
  intros H. destruct fuel as [|fuel]; [reflexivity|].
  cbn [findall_loop search_at]. now rewrite H.
Qed.

(** Over a well-formed block [re.findall] with the pattern of
    defects_manager.py collects the identifiers of the bulleted lines. *)
Lemma findall_block (lines : list block_line) :
  forall fuel prev,
    Forall line_ok lines -> line_start prev -> length lines < fuel ->
    findall_loop fuel test_bullet_re prev (render_block lines)
    = test_names lines.
Proof.
  induction lines as [|l lines IH]; intros fuel prev Hok Hp Hfuel.
  - apply findall_end. destruct Hp as [-> | ->]; reflexivity.
  - inversion Hok as [|? ? Hl Hok']; subst.
    unfold render_block, unlines. cbn [map concat test_names flat_map].
    fold (unlines (map line_text lines)). fold (render_block lines).
    fold (test_names lines).
    destruct l as [indent sep name | indent detail];
      cbn [line_ok line_text] in *.
    + destruct Hl as (Hi & Hs & Hname).
      destruct fuel as [|fuel]; [lia|].
      cbn [findall_loop].
      assert (Hshape : ((indent ++ "-"%char :: sep ++ name) ++ [NL])
                         ++ render_block lines
                       = indent ++ "-"%char :: sep ++ name
                           ++ NL :: render_block lines)
        by (rewrite <- !app_assoc; cbn [app]; now rewrite <- !app_assoc).
      rewrite Hshape.
      erewrite search_at_hit by (apply rmatch_test_line; assumption).
      cbn [m_final m_start group ms_caps lookup_cap Nat.eqb skipn ms_rest
           ms_prev].
      match goal with
      | |- context [?a <? ?b] =>
          replace (a <? b) with true
            by (symmetry; apply Nat.ltb_lt; rewrite !length_app;
                cbn [length]; rewrite !length_app; cbn [length]; lia)
      end.
      cbn [app]. f_equal.
      destruct Hname as (Hone & _ & c & n & -> & _).
      unfold test_bullet_re. cbn [seqs fold_right].
      rewrite findall_skip
        by (apply rmatch_mid_line; apply (one_line_last Hone)).
      apply IH; [assumption | now right | cbn in Hfuel; lia].
    + destruct Hl as ([Hne Hi] & Hd).
      assert (Hshape : ((indent ++ chars "-->" ++ detail) ++ [NL])
                         ++ render_block lines
                       = indent ++ chars "--"
                           ++ (">"%char :: detail ++ NL :: render_block lines))
        by (rewrite <- !app_assoc; reflexivity).
      rewrite Hshape.
      destruct indent as [|b indent]; [now elim Hne|].
      cbn [app].
      rewrite findall_skip
        by (apply (@rmatch_detail_line prev (b :: indent)); assumption).
      cbn [forallb] in Hi. apply andb_prop in Hi as [Hb Hi].
      replace (indent ++ chars "--"
                 ++ ">"%char :: detail ++ NL :: render_block lines)
        with ((indent ++ chars "-->" ++ detail) ++ NL :: render_block lines)
        by (rewrite <- !app_assoc; reflexivity).
      unfold test_bullet_re. cbn [seqs fold_right].
      rewrite findall_rest_of_line.
      * apply IH; [assumption | now right | cbn in Hfuel; lia].
      * now apply blank_not_newline.
      * apply one_line_app; [now apply forallb_blank_one_line|].
        apply one_line_app; [reflexivity | assumption].
Qed.

Lemma render_block_length (lines : list block_line) :
  length lines <= length (render_block lines).
Proof.
  unfold render_block, unlines.
  induction lines as [|l lines IH]; cbn [map concat length]; [lia|].
  rewrite !length_app. cbn [length]. lia.
Qed.

(** X1.  C1 for the parser of defects_manager.py: on well-formed tool-info
    text it returns, as triggering tests, the identifiers of the bulleted
    lines of the block in the order of the text; the exception-detail
    lines, which begin with an arrow, give no test. *)
Theorem triggering_tests_in_order pre lines post text :
  well_formed_info pre lines post text ->
  exists i, DefectsManager._parse_bug_info text = Ok i
            /\ info_triggering_tests i = test_names lines.
Proof.
  intros Hwf.
  destruct (search_tests_block Hwf) as (m & Hm & Hg).
  destruct (parse_bug_info_with_total test_bullet_re text) as (i & Hi & _).
  exists i. split; [exact Hi|].
  unfold DefectsManager._parse_bug_info.
  unfold parse_bug_info_with in Hi. rewrite Hm, Hg in Hi. cbn [bind] in Hi.
  destruct (match search url_re text with
            | Some url_match => group1 url_match
            | None => Ok []
            end) as [url|]; [|discriminate].
  cbn [bind] in Hi.
  destruct (match search sources_re text with
            | Some sources_match =>
                sources_block <- group1 sources_match ;;
                Ok (findall bullet_re sources_block)
            | None => Ok []
            end) as [sources|]; [|discriminate].
  cbn [bind] in Hi. injection Hi as <-. cbn [info_triggering_tests].
  unfold findall. apply findall_block.
  - apply Hwf.
  - now left.
  - pose proof (render_block_length lines). lia.
Qed.

Lemma scan_le (w : str) (pre' : str) :
  forall s post', s = pre' ++ w ++ post' -> scan w s <= length pre'.
Proof.
  induction pre' as [|c pre' IH]; intros s post' ->.
  - cbn [app]. destruct (w ++ post') eqn:E; cbn [scan];
      rewrite <- E, (proj2 (starts_with_iff w (w ++ post')))
        by (now exists post'); cbn; lia.
  - cbn [app scan length]. destruct (starts_with w _); [lia|].
    specialize (IH _ post' eq_refl). lia.
Qed.

Lemma first_occurrence_scan (w pre post : str) :
  scan w (pre ++ w ++ post) = length pre ->
  first_occurrence w pre (pre ++ w ++ post).
Proof.
  intros Hscan. split; [now exists post|].
  intros pre' post' H. rewrite <- Hscan. now apply scan_le with post'.
Qed.

Lemma triggering_tests_in_order_witness :
  exists i, DefectsManager._parse_bug_info Sample.info_text = Ok i
            /\ info_triggering_tests i
               = [chars "org.Foo::testBar"; chars "org.Foo::testBaz"].
Proof.
  apply (@triggering_tests_in_order Sample.info_pre Sample.info_lines
           Sample.info_post Sample.info_text).
  constructor.
  - reflexivity.
  - apply first_occurrence_scan. reflexivity.
  - discriminate.
  - repeat constructor; try discriminate; try reflexivity;
      eexists; eexists; split; reflexivity.
  - reflexivity.
Defined.

(** C1 on the copy of the parser in mining_buggy_code_logs.py: on the same
    well-formed text the exception-detail lines come back as tests. *)
Theorem mining_parser_keeps_detail_lines :
  exists i, MiningBuggyCodeLogs._parse_bug_info Sample.info_text = Ok i
            /\ info_triggering_tests i
               = [ chars "org.Foo::testBar"; chars "-> java.lang.Exc: boom";
                   chars "org.Foo::testBaz";
                   chars "-> junit.framework.Failure" ]
            /\ info_triggering_tests i <> test_names Sample.info_lines.
Proof.
  eexists. split; [vm_compute; reflexivity|]. split; [reflexivity|].
  discriminate.
Qed.

(* ----------------------------------------------------------------- *)
(** ** Searching a text line by line *)





(* ----------------------------------------------------------------- *)
(** ** The header pattern on the lines of a report *)

Unset Implicit Arguments.





Lemma rmatch_Eol_no st k : at_eol st = false -> rmatch Eol st k = None.
Proof. intros H. cbn. now rewrite H. Qed.




(* ----------------------------------------------------------------- *)
(** ** Trimming *)

Lemma lstrip_by_head p c (s : str) :
  p c = false -> lstrip_by p (c :: s) = c :: s.
Proof. intros H. cbn. now rewrite H. Qed.




Lemma unlines_join (ls : list str) :
  ls <> [] -> unlines ls = join [NL] ls ++ [NL].
Proof.
  induction ls as [|l ls IH]; intros Hne; [now elim Hne|].
  unfold unlines in *. cbn [map concat].
  destruct ls as [|l' ls].
  - cbn. now rewrite app_nil_r.
  - rewrite IH by discriminate. cbn [join].
    now rewrite <- !app_assoc.
Qed.

(* ----------------------------------------------------------------- *)
(** ** The lines of a report *)




(* ----------------------------------------------------------------- *)
(** ** The entries of a report *)






(* ----------------------------------------------------------------- *)
(** ** The three names the look-up tries *)

Lemma split_head_whole (sep t : str) :
  contains sep t = false -> split_head sep t = t.
Proof.
  induction t as [|c t IH]; [reflexivity|].
  cbn [contains split_head]. intros H.
  apply orb_false_elim in H as [Hs Hc]. rewrite Hs. now rewrite IH.
Qed.

(** The third name is the part before the first separator. *)
Lemma third_variant (t : str) :
  (if contains (chars "::") t then split_head (chars "::") t else t)
  = class_part t.
Proof.
  unfold class_part. destruct (contains (chars "::") t) eqn:H;
    [reflexivity | now rewrite split_head_whole].
Qed.





(* ----------------------------------------------------------------- *)
(** ** Strings written by [json.dumps] and read back *)

Lemma parse_chars_escape (c : ascii) (tail : str) :
  parse_chars (escape_char c ++ tail) = cons_char c (parse_chars tail).
Proof.
  destruct c as [b0 b1 b2 b3 b4 b5 b6 b7].
  destruct b0, b1, b2, b3, b4, b5, b6, b7; reflexivity.
Qed.

Lemma parse_chars_encode (s rest : str) :
  parse_chars (flat_map escape_char s ++ DQ :: rest) = Some (s, rest).
Proof.
  induction s as [|c s IH]; [reflexivity|].
  cbn [flat_map]. rewrite <- app_assoc, parse_chars_escape, IH. reflexivity.
Qed.

Lemma escape_char_one_line (c : ascii) : one_line (escape_char c).
Proof.
  destruct c as [b0 b1 b2 b3 b4 b5 b6 b7].
  destruct b0, b1, b2, b3, b4, b5, b6, b7; reflexivity.
Qed.

Lemma encode_str_one_line (s : str) : one_line (encode_str s).
Proof.
  unfold encode_str. apply one_line_cons; [reflexivity|].
  apply one_line_app; [|reflexivity].
  induction s as [|c s IH]; [reflexivity|].
  cbn [flat_map]. apply one_line_app; [apply escape_char_one_line | exact IH].
Qed.

(* ----------------------------------------------------------------- *)
(** ** Integers written and read back *)

Lemma uint_chars (d : Decimal.uint) :
  forallb is_digit (list_ascii_of_string (NilEmpty.string_of_uint d)) = true.
Proof. induction d; cbn; try reflexivity; exact IHd. Qed.

Lemma pos_to_uint_nonnil (p : positive) : Pos.to_uint p <> Decimal.Nil.
Proof.
  intros Hn. pose proof (DecimalPos.Unsigned.of_to p) as H.
  rewrite Hn in H. discriminate H.
Qed.

Lemma str_of_int_shape (z : Z) :
  exists c w, str_of_int z = c :: w /\ is_int_char c = true
              /\ forallb is_digit w = true.
Proof.
  unfold str_of_int.
  assert (Hu : forall d, d <> Decimal.Nil ->
             exists c w,
               list_ascii_of_string (NilEmpty.string_of_uint d) = c :: w
               /\ is_digit c = true /\ forallb is_digit w = true).
  { intros d Hd. pose proof (uint_chars d) as H.
    destruct d; try (now elim Hd); cbn in *;
      eexists; eexists; (split; [reflexivity|]); split;
      (reflexivity || exact H). }
  pose proof pos_to_uint_nonnil as Hp.
  destruct z as [|p|p]; cbn [Z.to_int NilZero.string_of_int].
  - exists "0"%char, []. repeat split.
  - unfold NilZero.string_of_uint.
    destruct (Hu (Pos.to_uint p) (Hp p)) as (c & w & E & Hc & Hw).
    destruct (Pos.to_uint p) eqn:Ep; try (now elim (Hp p));
      rewrite E; exists c, w; repeat split; try assumption;
      unfold is_int_char; now rewrite Hc.
  - unfold NilZero.string_of_uint. cbn [list_ascii_of_string].
    exists "-"%char.
    destruct (Hu (Pos.to_uint p) (Hp p)) as (c & w & E & Hc & Hw).
    destruct (Pos.to_uint p) eqn:Ep; try (now elim (Hp p));
      rewrite E; exists (c :: w); repeat split; cbn [forallb];
      now rewrite Hc, Hw.
Qed.

Lemma int_of_str_of_int (z : Z) : int_of_str (str_of_int z) = Some z.
Proof.
  unfold int_of_str, str_of_int.
  rewrite string_of_list_ascii_of_string, NilZero.isi.
  - cbn. now rewrite DecimalZ.of_to.
  - destruct z as [|p|p]; cbn [Z.to_int]; try discriminate.
    intros H. injection H as H. now apply pos_to_uint_nonnil in H.
  - destruct z as [|p|p]; cbn [Z.to_int]; try discriminate.
    intros H. injection H as H. now apply pos_to_uint_nonnil in H.
Qed.

(* ----------------------------------------------------------------- *)
(** ** Values written by [json.dumps] and read back *)

Lemma span_token (p : ascii -> bool) (tok rest : str) :
  forallb p tok = true -> stops p rest -> span p (tok ++ rest) = (tok, rest).
Proof.
  intros Ht Hr. induction tok as [|c tok IH].
  - destruct rest as [|c rest]; [reflexivity|]. cbn in *. now rewrite Hr.
  - cbn [forallb] in Ht. apply andb_prop in Ht as [Hc Ht].
    cbn [app span]. now rewrite Hc, (IH Ht).
Qed.

Lemma digit_num_char (c : ascii) : is_digit c = true -> is_num_char c = true.
Proof. unfold is_num_char. now intros ->. Qed.

Lemma int_char_num (c : ascii) :
  is_int_char c = true -> is_num_char c = true /\ is_num_start c = true.
Proof.
  unfold is_int_char, is_num_char, is_num_start.
  destruct (is_digit c); [now split|]. cbn [orb].
  intros H. apply Ascii.eqb_eq in H. now subst c.
Qed.

(** A character a number begins with is none of those that begin another
    value, close an array or an object, or are white space. *)
Lemma num_start_other (c : ascii) :
  is_num_start c = true ->
  is_json_ws c = false /\ Ascii.eqb c DQ = false
  /\ Ascii.eqb c "["%char = false /\ Ascii.eqb c "{"%char = false
  /\ Ascii.eqb c "]"%char = false /\ Ascii.eqb c "}"%char = false
  /\ Ascii.eqb c "n"%char = false.
Proof.
  destruct c as [b0 b1 b2 b3 b4 b5 b6 b7].
  destruct b0, b1, b2, b3, b4, b5, b6, b7; intros H;
    try discriminate H; repeat split.
Qed.

Section RoundTrip.

Variable pyfloat : Type.
Variable float_repr : pyfloat -> str.
Variable float_of_str : str -> option pyfloat.
Hypothesis float_ok : float_text_ok float_repr float_of_str.

Lemma pyval_induction (P : pyval pyfloat -> Prop) :
  P PNone -> (forall s, P (PStr s)) -> (forall z, P (PInt z)) ->
  (forall x, P (PFloat x)) ->
  (forall l, Forall P l -> P (PList l)) ->
  (forall d, Forall (fun kv => P (snd kv)) d -> P (PDict d)) ->
  forall v, P v.
Proof.
  intros HNone HStr HInt HFloat HList HDict.
  refine (fix IH (v : pyval pyfloat) : P v :=
            match v with
            | PNone => HNone
            | PStr s => HStr s
            | PInt z => HInt z
            | PFloat x => HFloat x
            | PList l =>
                HList l ((fix go (l : list (pyval pyfloat)) : Forall P l :=
                            match l with
                            | [] => Forall_nil P
                            | x :: l' => Forall_cons x (IH x) (go l')
                            end) l)
            | PDict d =>
                HDict d
                  ((fix go (d : list (str * pyval pyfloat))
                    : Forall (fun kv => P (snd kv)) d :=
                      match d with
                      | [] => Forall_nil _
                      | kv :: d' => Forall_cons kv (IH (snd kv)) (go d')
                      end) d)
            end).
Qed.

Lemma parse_number_int (z : Z) (rest : str) :
  delimited rest ->
  parse_number float_of_str (str_of_int z ++ rest) = Some (PInt z, rest).
Proof.
  intros Hr. unfold parse_number.
  destruct (str_of_int_shape z) as (c & w & E & Hc & Hw).
  rewrite span_token; [now rewrite int_of_str_of_int | | exact Hr].
  rewrite E. cbn [forallb]. rewrite (proj1 (int_char_num c Hc)).
  apply forallb_forall. intros x Hx. apply digit_num_char.
  now apply (proj1 (forallb_forall _ _) Hw).
Qed.

Lemma parse_number_float (x : pyfloat) (rest : str) :
  delimited rest ->
  parse_number float_of_str (float_repr x ++ rest) = Some (PFloat x, rest).
Proof.
  intros Hr. unfold parse_number.
  destruct (float_ok x) as (Hround & Hint & Hchars & _).
  rewrite span_token by assumption. now rewrite Hint, Hround.
Qed.

Lemma dumps_head (v : pyval pyfloat) :
  exists c w, dumps float_repr v = c :: w /\ begins_value c.
Proof.
  destruct v as [|s|z|x|l|d]; cbn [dumps].
  - exists "n"%char, (chars "ull"). now repeat split.
  - exists DQ, (flat_map escape_char s ++ [DQ]). now repeat split.
  - destruct (str_of_int_shape z) as (c & w & E & Hc & _).
    exists c, w. split; [exact E|].
    destruct (num_start_other c (proj2 (int_char_num c Hc)))
      as (H1 & _ & _ & _ & H2 & H3 & _). now repeat split.
  - destruct (float_ok x) as (_ & _ & _ & c & w & E & Hc).
    exists c, w. split; [exact E|].
    destruct (num_start_other c Hc) as (H1 & _ & _ & _ & H2 & H3 & _).
    now repeat split.
  - eexists; eexists. split; [reflexivity | now repeat split].
  - eexists; eexists. split; [reflexivity | now repeat split].
Qed.

Lemma skip_ws_head (c : ascii) (s : str) :
  is_json_ws c = false -> skip_ws (c :: s) = c :: s.
Proof. intros H. unfold skip_ws. now apply lstrip_by_head. Qed.


(** The equations of the reader. *)
Lemma parse_value_string (fuel : nat) (s1 : str) :
  parse_value float_of_str (S fuel) (DQ :: s1)
  = match parse_chars s1 with
    | Some (w, rest) => Some (PStr w, rest)
    | None => None
    end.
Proof. reflexivity. Qed.

Lemma parse_value_array (fuel : nat) (s1 : str) :
  parse_value float_of_str (S fuel) ("["%char :: s1)
  = match skip_ws s1 with
    | c1 :: s2 =>
        if Ascii.eqb c1 "]"%char then Some (PList [], s2)
        else match parse_elems float_of_str fuel (c1 :: s2) with
             | Some (l, rest) => Some (PList l, rest)
             | None => None
             end
    | [] => None
    end.
Proof. reflexivity. Qed.

Lemma parse_value_object (fuel : nat) (s1 : str) :
  parse_value float_of_str (S fuel) ("{"%char :: s1)
  = match skip_ws s1 with
    | c1 :: s2 =>
        if Ascii.eqb c1 "}"%char then Some (PDict [], s2)
        else match parse_members float_of_str fuel (c1 :: s2) with
             | Some (d, rest) => Some (PDict d, rest)
             | None => None
             end
    | [] => None
    end.
Proof. reflexivity. Qed.

Lemma parse_value_number (fuel : nat) (c : ascii) (s1 : str) :
  is_num_start c = true ->
  parse_value float_of_str (S fuel) (c :: s1)
  = parse_number float_of_str (c :: s1).
Proof.
  intros Hc.
  destruct (num_start_other c Hc) as (_ & H1 & H2 & H3 & _ & _ & H4).
  cbn [parse_value starts_with chars list_ascii_of_string].
  rewrite H1, H2, H3, Ascii.eqb_sym, H4. cbn [andb]. now rewrite Hc.
Qed.

Lemma parse_elems_eq (fuel : nat) (s : str) :
  parse_elems float_of_str (S fuel) s
  = match parse_value float_of_str fuel s with
    | Some (v, rest) =>
        match skip_ws rest with
        | c :: s1 =>
            if Ascii.eqb c ","%char then
              match parse_elems float_of_str fuel (skip_ws s1) with
              | Some (l, rest') => Some (v :: l, rest')
              | None => None
              end
            else if Ascii.eqb c "]"%char then Some ([v], s1)
            else None
        | [] => None
        end
    | None => None
    end.
Proof. reflexivity. Qed.

Lemma parse_members_eq (fuel : nat) (s1 : str) :
  parse_members float_of_str (S fuel) (DQ :: s1)
  = match parse_chars s1 with
    | Some (k, rest) =>
        match skip_ws rest with
        | c1 :: s2 =>
            if Ascii.eqb c1 ":"%char then
              match parse_value float_of_str fuel (skip_ws s2) with
              | Some (v, rest') =>
                  match skip_ws rest' with
                  | c2 :: s3 =>
                      if Ascii.eqb c2 ","%char then
                        match parse_members float_of_str fuel (skip_ws s3)
                        with
                        | Some (d, rest'') => Some ((k, v) :: d, rest'')
                        | None => None
                        end
                      else if Ascii.eqb c2 "}"%char
                           then Some ([(k, v)], s3)
                           else None
                  | [] => None
                  end
              | None => None
              end
            else None
        | [] => None
        end
    | None => None
    end.
Proof. reflexivity. Qed.

Lemma skip_ws_space (c : ascii) (s : str) :
  is_json_ws c = false -> skip_ws (" "%char :: c :: s) = c :: s.
Proof.
  intros H. unfold skip_ws. cbn [lstrip_by].
  change (is_json_ws " ") with true. cbn iota. now rewrite H.
Qed.

Lemma join_cons2 (sep p q : str) (ps : list str) :
  join sep (p :: q :: ps) = p ++ sep ++ join sep (q :: ps).
Proof. reflexivity. Qed.

Lemma parse_elems_dumps (l : list (pyval pyfloat)) :
  Forall (reads_back float_repr float_of_str) l -> l <> [] ->
  forall fuel rest,
    length (join (chars ", ") (map (dumps float_repr) l)) < fuel ->
    parse_elems float_of_str fuel
      (join (chars ", ") (map (dumps float_repr) l) ++ "]"%char :: rest)
    = Some (l, rest).
Proof.
  intros Hl. induction Hl as [|v l Hv Hl IH]; intros Hne fuel rest Hfuel;
    [now elim Hne|].
  destruct fuel as [|fuel]; [lia|].
  destruct l as [|v' l].
  - cbn [map join] in *. rewrite parse_elems_eq.
    rewrite Hv by (lia || reflexivity).
    rewrite skip_ws_head by reflexivity. reflexivity.
  - cbn [map] in *. rewrite join_cons2 in *.
    rewrite !length_app in Hfuel.
    change (length (chars ", ")) with 2 in Hfuel.
    rewrite parse_elems_eq. rewrite <- !app_assoc.
    rewrite Hv by (lia || reflexivity).
    match goal with
    | |- context [chars ", " ++ ?X] =>
        change (chars ", " ++ X) with (","%char :: " "%char :: X)
    end.
    rewrite skip_ws_head by reflexivity.
    change (Ascii.eqb "," ",") with true. cbn iota.
    destruct (dumps_head v') as (c & w & E & Hc & _).
    assert (Hskip : skip_ws (" "%char :: join (chars ", ")
                               (dumps float_repr v' :: map (dumps float_repr) l)
                             ++ "]"%char :: rest)
                    = join (chars ", ")
                        (dumps float_repr v' :: map (dumps float_repr) l)
                      ++ "]"%char :: rest).
    { unfold skip_ws. cbn [lstrip_by]. change (is_json_ws " ") with true.
      cbn iota. destruct (map (dumps float_repr) l);
        cbn [join]; rewrite E; cbn [app]; now apply lstrip_by_head. }
    rewrite Hskip, IH by (discriminate || lia). reflexivity.
Qed.

Lemma parse_members_dumps (d : list (str * pyval pyfloat)) :
  Forall (fun kv => reads_back float_repr float_of_str (snd kv)) d ->
  d <> [] ->
  forall fuel rest,
    length (join (chars ", ") (map (member_text float_repr) d)) < fuel ->
    parse_members float_of_str fuel
      (join (chars ", ") (map (member_text float_repr) d)
         ++ "}"%char :: rest)
    = Some (d, rest).
Proof.
  intros Hd. induction Hd as [|[k v] d Hv Hd IH]; intros Hne fuel rest Hfuel;
    [now elim Hne|].
  destruct fuel as [|fuel]; [lia|].
  cbn [snd] in Hv.
  assert (Hmember : forall tail,
             parse_members float_of_str (S fuel)
               (member_text float_repr (k, v) ++ tail)
             = match parse_value float_of_str fuel
                       (dumps float_repr v ++ tail) with
               | Some (v0, rest') =>
                   match skip_ws rest' with
                   | c2 :: s3 =>
                       if Ascii.eqb c2 ","%char then
                         match parse_members float_of_str fuel (skip_ws s3)
                         with
                         | Some (d0, rest'') => Some ((k, v0) :: d0, rest'')
                         | None => None
                         end
                       else if Ascii.eqb c2 "}"%char
                            then Some ([(k, v0)], s3)
                            else None
                   | [] => None
                   end
               | None => None
               end).
  { intros tail. unfold member_text, encode_str.
    cbn [app]. rewrite parse_members_eq.
    rewrite <- !app_assoc. cbn [app].
    rewrite parse_chars_encode.
    change (chars ": " ++ dumps float_repr v ++ tail)
      with (":"%char :: " "%char :: dumps float_repr v ++ tail).
    rewrite skip_ws_head by reflexivity.
    change (Ascii.eqb ":" ":") with true. cbn iota.
    destruct (dumps_head v) as (c & w & E & Hc & _).
    rewrite E. cbn [app]. rewrite skip_ws_space by exact Hc.
    reflexivity. }
  destruct d as [|kv' d].
  - cbn [map join] in *. rewrite Hmember.
    unfold member_text in Hfuel. rewrite !length_app in Hfuel.
    rewrite Hv by (lia || reflexivity).
    rewrite skip_ws_head by reflexivity. reflexivity.
  - cbn [map] in *. rewrite join_cons2 in *.
    rewrite !length_app in Hfuel.
    change (length (chars ", ")) with 2 in Hfuel.
    rewrite <- !app_assoc. rewrite Hmember.
    assert (Hlen : length (dumps float_repr v)
                   <= length (member_text float_repr (k, v)))
      by (unfold member_text; rewrite !length_app; lia).
    rewrite Hv by (lia || reflexivity).
    match goal with
    | |- context [chars ", " ++ ?X] =>
        change (chars ", " ++ X) with (","%char :: " "%char :: X)
    end.
    rewrite skip_ws_head by reflexivity.
    change (Ascii.eqb "," ",") with true. cbn iota.
    assert (Hskip : forall X,
               skip_ws (" "%char :: join (chars ", ")
                          (member_text float_repr kv'
                             :: map (member_text float_repr) d) ++ X)
               = join (chars ", ")
                   (member_text float_repr kv'
                      :: map (member_text float_repr) d) ++ X).
    { intros X. unfold skip_ws. cbn [lstrip_by].
      change (is_json_ws " ") with true. cbn iota.
      destruct kv' as [k' v'].
      destruct (map (member_text float_repr) d);
        cbn [join]; unfold member_text, encode_str; cbn [app];
        now apply lstrip_by_head. }
    rewrite Hskip, IH by (discriminate || lia). reflexivity.
Qed.

(** Every value reads back. *)
Lemma all_read_back (v : pyval pyfloat) : reads_back float_repr float_of_str v.
Proof.
  induction v as [|s|z|x|l IH|d IH] using pyval_induction;
    intros fuel rest Hfuel Hrest.
  - destruct fuel as [|fuel]; [cbn in Hfuel; lia | reflexivity].
  - destruct fuel as [|fuel]; [cbn in Hfuel; lia|].
    cbn [dumps encode_str app]. rewrite parse_value_string.
    rewrite <- app_assoc. cbn [app]. now rewrite parse_chars_encode.
  - cbn [dumps] in *.
    destruct (str_of_int_shape z) as (c & w & E & Hc & _).
    destruct fuel as [|fuel]; [rewrite E in Hfuel; cbn in Hfuel; lia|].
    rewrite <- parse_number_int by exact Hrest.
    rewrite E. cbn [app]. apply parse_value_number.
    apply (int_char_num c Hc).
  - cbn [dumps] in *.
    destruct (float_ok x) as (_ & _ & _ & c & w & E & Hc).
    destruct fuel as [|fuel]; [rewrite E in Hfuel; cbn in Hfuel; lia|].
    rewrite <- parse_number_float by exact Hrest.
    rewrite E. cbn [app]. now apply parse_value_number.
  - cbn [dumps] in *. destruct fuel as [|fuel]; [cbn in Hfuel; lia|].
    cbn [length] in Hfuel. rewrite length_app in Hfuel. cbn [length] in Hfuel.
    cbn [app]. rewrite parse_value_array.
    destruct l as [|v l]; [reflexivity|].
    rewrite <- app_assoc. cbn [app].
    destruct (dumps_head v) as (c & w & E & Hws & Hc & _).
    assert (Hjoin : exists w',
               join (chars ", ") (map (dumps float_repr) (v :: l))
               = c :: w').
    { cbn [map]. destruct (map (dumps float_repr) l);
        cbn [join]; rewrite E; eexists; reflexivity. }
    destruct Hjoin as [w' Hjoin].
    pose proof (parse_elems_dumps (v :: l) IH ltac:(discriminate) fuel rest
                  ltac:(lia)) as Helems.
    rewrite Hjoin in *. cbn [app] in *.
    rewrite skip_ws_head by exact Hws. rewrite Hc, Helems. reflexivity.
  - cbn [dumps] in *. destruct fuel as [|fuel]; [cbn in Hfuel; lia|].
    cbn [length] in Hfuel. rewrite length_app in Hfuel. cbn [length] in Hfuel.
    cbn [app]. rewrite parse_value_object.
    change (S (length (join (chars ", ") (map (member_text float_repr) d))
               + 1) <= S fuel) in Hfuel.
    change (match
               skip_ws ((join (chars ", ") (map (member_text float_repr) d)
                           ++ ["}"%char]) ++ rest)
             with
             | c1 :: s2 =>
                 if Ascii.eqb c1 "}"%char then Some (PDict [], s2)
                 else match parse_members float_of_str fuel (c1 :: s2) with
                      | Some (d0, rest0) => Some (PDict d0, rest0)
                      | None => None
                      end
             | [] => None
             end = Some (PDict d, rest)).
    destruct d as [|[k v] d]; [reflexivity|].
    rewrite <- app_assoc. cbn [app].
    assert (Hjoin : exists w',
               join (chars ", ") (map (member_text float_repr) ((k, v) :: d))
               = DQ :: w').
    { cbn [map]. destruct (map (member_text float_repr) d);
        cbn [join]; unfold member_text, encode_str; eexists; reflexivity. }
    destruct Hjoin as [w' Hjoin].
    pose proof (parse_members_dumps ((k, v) :: d) IH ltac:(discriminate)
                  fuel rest ltac:(lia)) as Hmembers.
    rewrite Hjoin in *. cbn [app] in *.
    rewrite skip_ws_head by reflexivity.
    change (Ascii.eqb DQ "}") with false. cbn iota.
    rewrite Hmembers. reflexivity.
Qed.

End RoundTrip.

(* ----------------------------------------------------------------- *)
(** ** The lines of the exported file *)

Lemma lines_of_line (l rest : str) :
  one_line l -> lines_of (l ++ NL :: rest) = l :: lines_of rest.
Proof.
  intros Hl. induction l as [|c l IH].
  - reflexivity.
  - unfold one_line in Hl. cbn [forallb] in Hl.
    apply andb_prop in Hl as [Hc Hl].
    cbn [app lines_of]. rewrite (IH Hl).
    unfold not_newline in Hc. apply negb_true_iff in Hc. now rewrite Hc.
Qed.

Lemma lines_of_unlines (ls : list str) :
  Forall one_line ls -> lines_of (unlines ls) = ls.
Proof.
  intros H. induction H as [|l ls Hl _ IH]; [reflexivity|].
  unfold unlines in *. cbn [map concat]. rewrite <- app_assoc. cbn [app].
  now rewrite lines_of_line, IH.
Qed.

Lemma one_line_join (sep : str) (parts : list str) :
  one_line sep -> Forall one_line parts -> one_line (join sep parts).
Proof.
  intros Hsep H. induction H as [|p ps Hp Hps IH]; [reflexivity|].
  destruct ps as [|q ps]; [exact Hp|].
  rewrite join_cons2. apply one_line_app; [exact Hp|].
  apply one_line_app; [exact Hsep | exact IH].
Qed.

Lemma num_char_not_newline (c : ascii) :
  is_num_char c = true -> not_newline c = true.
Proof.
  destruct c as [b0 b1 b2 b3 b4 b5 b6 b7].
  destruct b0, b1, b2, b3, b4, b5, b6, b7; intros H;
    try discriminate H; reflexivity.
Qed.

Lemma num_chars_one_line (w : str) :
  forallb is_num_char w = true -> one_line w.
Proof.
  unfold one_line. rewrite !forallb_forall. intros H c Hc.
  apply num_char_not_newline. now apply H.
Qed.

Lemma str_of_int_one_line (z : Z) : one_line (str_of_int z).
Proof.
  destruct (str_of_int_shape z) as (c & w & -> & Hc & Hw).
  apply num_chars_one_line. cbn [forallb].
  rewrite (proj1 (int_char_num c Hc)). apply forallb_forall.
  intros x Hx. apply digit_num_char.
  now apply (proj1 (forallb_forall _ _) Hw).
Qed.

Section Jsonl.

Variable pyfloat : Type.
Variable float_repr : pyfloat -> str.
Variable float_of_str : str -> option pyfloat.
Hypothesis float_ok : float_text_ok float_repr float_of_str.

(** [json.dumps] writes no newline. *)
Lemma dumps_one_line (v : pyval pyfloat) : one_line (dumps float_repr v).
Proof.
  induction v as [|s|z|x|l IH|d IH] using pyval_induction; cbn [dumps].
  - reflexivity.
  - apply encode_str_one_line.
  - apply str_of_int_one_line.
  - apply num_chars_one_line. apply (float_ok x).
  - apply one_line_cons; [reflexivity|].
    apply one_line_app; [|reflexivity].
    apply one_line_join; [reflexivity|].
    induction IH; cbn [map]; constructor; assumption.
  - apply one_line_cons; [reflexivity|].
    apply one_line_app; [|reflexivity].
    apply one_line_join; [reflexivity|].
    induction IH as [|[k v] d Hv _ IHd]; cbn [map]; constructor;
      [|assumption].
    apply one_line_app; [apply encode_str_one_line|].
    apply one_line_app; [reflexivity | exact Hv].
Qed.

(** [json.loads] of a line that [json.dumps] wrote gives the value. *)
Lemma loads_dumps (v : pyval pyfloat) :
  loads float_of_str (dumps float_repr v) = Some v.
Proof.
  unfold loads.
  destruct (dumps_head pyfloat float_repr float_of_str float_ok v) as (c & w & E & Hws & _).
  rewrite E at 2. rewrite skip_ws_head by exact Hws. rewrite <- E.
  rewrite <- (app_nil_r (dumps float_repr v)) at 2.
  rewrite (all_read_back pyfloat float_repr float_of_str float_ok v)
    by (lia || exact I).
  reflexivity.
Qed.

Lemma export_to_jsonl_unlines (sessions : list (SyntheticDebugSession pyfloat)) :
  export_to_jsonl float_repr sessions
  = unlines (map (fun s => dumps float_repr (jsonl_entry s)) sessions).
Proof.
  unfold export_to_jsonl.
  assert (H : forall acc,
             fold_left (fun f session =>
                          f ++ dumps float_repr (jsonl_entry session) ++ [NL])
                       sessions acc
             = acc ++ unlines (map (fun s => dumps float_repr (jsonl_entry s))
                                   sessions)).
  { induction sessions as [|s sessions IH]; intros acc.
    - cbn. now rewrite app_nil_r.
    - cbn [fold_left map]. rewrite IH. unfold unlines. cbn [map concat].
      now rewrite <- !app_assoc. }
  apply (H []).
Qed.

(** C8. The JSONL export of N sessions is N lines, one per session in the
    order of the list, each ended by a newline.  Each line is one JSON
    record; read back, the file gives for every session the record of
    that session, whose fields are exactly bug_id, project, logs,
    timeline and root_cause: the test outcomes are not in it. *)
Theorem jsonl_round_trip (sessions : list (SyntheticDebugSession pyfloat)) :
  let content := export_to_jsonl float_repr sessions in
  content = unlines (map (fun s => dumps float_repr (jsonl_entry s)) sessions)
  /\ lines_of content
     = map (fun s => dumps float_repr (jsonl_entry s)) sessions
  /\ length (lines_of content) = length sessions
  /\ read_jsonl float_of_str content
     = map (fun s => Some (jsonl_entry s)) sessions
  /\ Forall (fun s => keys_of (jsonl_entry s)
                      = Some [ chars "bug_id"; chars "project"; chars "logs";
                               chars "timeline"; chars "root_cause" ])
            sessions.
Proof.
  intros content.
  assert (Hlines : lines_of content
                   = map (fun s => dumps float_repr (jsonl_entry s)) sessions).
  { subst content. rewrite export_to_jsonl_unlines.
    apply lines_of_unlines. apply Forall_forall. intros l Hl.
    apply in_map_iff in Hl as (s & <- & _). apply dumps_one_line. }
  split; [apply export_to_jsonl_unlines|].
  split; [exact Hlines|].
  split; [now rewrite Hlines, length_map|].
  split.
  - unfold read_jsonl. rewrite Hlines, map_map.
    apply map_ext. intros s. apply loads_dumps.
  - apply Forall_forall. intros s _. reflexivity.
Qed.

End Jsonl.

Lemma sample_float_ok :
  float_text_ok Sample.float0_repr Sample.float0_of_str.
Proof.
  intros []. repeat split. now exists "0"%char, (chars ".0").
Qed.

Lemma jsonl_round_trip_witness :
  read_jsonl Sample.float0_of_str
    (export_to_jsonl Sample.float0_repr Sample.sessions)
  = map (fun s => Some (jsonl_entry s)) Sample.sessions.
Proof.
  apply (jsonl_round_trip Sample.float0 Sample.float0_repr
           Sample.float0_of_str sample_float_ok Sample.sessions).
Defined.

(* ----------------------------------------------------------------- *)
(** ** Chronology, levels and trace excerpts of a log *)

Lemma ascending_shift (t : datetime) (l : list Z) :
  ascending (map (plus_seconds t) l) = ascending l.
Proof.
  induction l as [|x [|y l] IH]; [reflexivity | reflexivity |].
  change (((plus_seconds t x <=? plus_seconds t y)%Z
           && ascending (map (plus_seconds t) (y :: l)))
          = ((x <=? y)%Z && ascending (y :: l))).
  rewrite IH. f_equal. unfold plus_seconds.
  destruct (Z.leb_spec x y), (Z.leb_spec (t + x * 1000000) (t + y * 1000000));
    try reflexivity; lia.
Qed.

Section Chronology.
Variable pyfloat : Type.
Variable isoformat : datetime -> str.

Implicit Types (self : SyntheticLogGenerator) (bug : Defects4JBug)
         (outs : list (TestOutput pyfloat)).

Lemma count_traces_le outs : count_traces outs <= count_fail outs.
Proof.
  unfold count_traces, count_fail, has_trace.
  induction outs as [|o outs IH]; [reflexivity|].
  cbn [filter]. destruct (is_fail o); cbn [andb]; [|exact IH].
  destruct (truthy_opt (stack_trace o)); cbn [length]; lia.
Qed.

Lemma count_fail_cons o outs :
  count_fail (o :: outs)
  = if is_fail o then S (count_fail outs) else count_fail outs.
Proof. unfold count_fail. cbn [filter]. now destruct (is_fail o). Qed.

Lemma count_traces_cons o outs :
  count_traces (o :: outs)
  = if is_fail o && truthy_opt (stack_trace o)
    then S (count_traces outs) else count_traces outs.
Proof.
  unfold count_traces. cbn [filter]. unfold has_trace at 1.
  now destruct (is_fail o && truthy_opt (stack_trace o)).
Qed.

Lemma failure_offsets_ascending outs (hi : Z) (rest : list Z) :
  forall d x,
    (x <= d)%Z ->
    ascending (x :: failure_offsets d outs ++ hi :: rest)
    = (if count_fail outs =? 0 then (x <=? hi)%Z
       else (d + 2 * Z.of_nat (count_fail outs)
             + Z.of_nat (count_traces outs) <=? hi)%Z)
      && ascending (hi :: rest).
Proof.
  induction outs as [|o outs IH]; intros d x Hx; [reflexivity|].
  rewrite count_fail_cons, count_traces_cons. cbn [failure_offsets].
  pose proof (count_traces_le outs) as Hle.
  destruct (is_fail o); cbn [andb]; [|now apply IH].
  destruct (truthy_opt (stack_trace o)).
  - change (((x <=? d + 2)%Z
             && ((d + 2 <=? d + 3)%Z
                 && ascending ((d + 3)%Z :: failure_offsets (d + 3) outs
                               ++ hi :: rest)))
            = (d + 2 * Z.of_nat (S (count_fail outs))
               + Z.of_nat (S (count_traces outs)) <=? hi)%Z
              && ascending (hi :: rest)).
    rewrite IH by lia.
    replace (x <=? d + 2)%Z with true by (symmetry; apply Z.leb_le; lia).
    replace (d + 2 <=? d + 3)%Z with true by (symmetry; apply Z.leb_le; lia).
    cbn [andb]. f_equal.
    destruct (Nat.eqb_spec (count_fail outs) 0) as [E|E].
    + f_equal. lia.
    + f_equal. lia.
  - change (((x <=? d + 2)%Z
             && ascending ((d + 2)%Z :: failure_offsets (d + 2) outs
                           ++ hi :: rest))
            = (d + 2 * Z.of_nat (S (count_fail outs))
               + Z.of_nat (count_traces outs) <=? hi)%Z
              && ascending (hi :: rest)).
    rewrite IH by lia.
    replace (x <=? d + 2)%Z with true by (symmetry; apply Z.leb_le; lia).
    cbn [andb]. f_equal.
    destruct (Nat.eqb_spec (count_fail outs) 0) as [E|E].
    + f_equal. lia.
    + f_equal. lia.
Qed.

(** The instants of the stamps of a session. *)
Lemma session_stamps self bug outs :
  map (@log_timestamp pyfloat)
      (log_sequence (generate_debug_session isoformat self bug outs))
  = map isoformat (map (plus_seconds (base_time self)) (schedule bug outs)).
Proof.
  destruct (session_phases isoformat self bug outs) as [Hl _].
  cbv zeta in Hl. rewrite Hl, map_map.
  rewrite failure_phase_spec, investigation_phase_spec.
  unfold schedule.
  cbn [app map _generate_setup_phase fst log_timestamp].
  rewrite plus_seconds_0. do 2 f_equal.
  rewrite !map_app. f_equal; [apply failure_entries_stamps|].
  cbn [app map start_entry log_timestamp]. f_equal.
  rewrite !map_app, class_entries_stamps, length_firstn. f_equal.
  cbn. now rewrite !plus_seconds_plus.
Qed.

(** X13. The entries of a session are stamped with the
    session start moved by the offsets of [schedule], and these instants
    never go back exactly when twice the number of outcomes with status
    FAIL plus the number of stack traces among them is at most 50: from
    there on the failure phase, which starts 10 seconds in, runs past
    the start of the investigation phase at 60 seconds. *)
Theorem log_chronological self bug outs :
  let s := generate_debug_session isoformat self bug outs in
  let instants := map (plus_seconds (base_time self)) (schedule bug outs) in
  map (@log_timestamp pyfloat) (log_sequence s) = map isoformat instants
  /\ (ascending instants = true
      <-> 2 * count_fail outs + count_traces outs <= 50).
Proof.
  intros s instants. split; [apply session_stamps|].
  subst instants. rewrite ascending_shift. unfold schedule.
  change ([0; 5] ++ failure_offsets 10 outs
          ++ 60 :: class_offsets 60 (Nat.min 3 (length (modified_classes bug)))
          ++ [120; 125] ++ [180; 190; 195])%Z
    with (0 :: 5 :: failure_offsets 10 outs
          ++ 60 :: class_offsets 60 (Nat.min 3 (length (modified_classes bug)))
          ++ [120; 125; 180; 190; 195])%Z.
  change (ascending (0 :: 5 :: ?l)%Z) with ((0 <=? 5)%Z && ascending (5%Z :: l)).
  rewrite failure_offsets_ascending by lia.
  assert (Htail : ascending
                    (60 :: class_offsets 60
                             (Nat.min 3 (length (modified_classes bug)))
                     ++ [120; 125; 180; 190; 195])%Z = true).
  { assert (Hn : Nat.min 3 (length (modified_classes bug)) <= 3) by lia.
    destruct (Nat.min 3 (length (modified_classes bug))) as [|[|[|[|n]]]];
      [reflexivity | reflexivity | reflexivity | reflexivity | lia]. }
  rewrite Htail. change (0 <=? 5)%Z with true. cbn [andb]. rewrite andb_true_r.
  pose proof (count_traces_le outs) as Hle.
  destruct (Nat.eqb_spec (count_fail outs) 0) as [E|E].
  - split; [lia | reflexivity].
  - rewrite Z.leb_le. lia.
Qed.

End Chronology.

Section Levels.
Variable pyfloat : Type.
Variable isoformat : datetime -> str.

Implicit Types (self : SyntheticLogGenerator) (bug : Defects4JBug)
         (outs : list (TestOutput pyfloat)).

Lemma failure_entries_errors outs :
  forall t,
    filter (@is_error pyfloat) (failure_entries isoformat t outs)
    = failure_entries isoformat t outs
    /\ Forall (@level_ok pyfloat) (failure_entries isoformat t outs).
Proof.
  induction outs as [|o outs IH]; intros t; [split; [reflexivity|constructor]|].
  cbn [failure_entries].
  destruct (is_fail o); [|apply IH].
  destruct (stack_trace o) as [[|c trace]|].
  - destruct (IH (plus_seconds t 2)) as [IHf IHl].
    split.
    + cbn [filter]. change (is_error (failure_entry isoformat (plus_seconds t 2) o)) with true.
      cbn iota. now rewrite IHf.
    + constructor; [|exact IHl].
      split; [right; right; left; reflexivity | discriminate].
  - destruct (IH (plus_seconds t 3)) as [IHf IHl].
    split.
    + cbn [filter].
      change (is_error (failure_entry isoformat (plus_seconds t 2) o)) with true.
      change (is_error (trace_entry isoformat (plus_seconds t 3) o (c :: trace)))
        with true.
      cbn iota. now rewrite IHf.
    + constructor; [|constructor; [|exact IHl]];
        (split; [right; right; left; reflexivity | discriminate]).
  - destruct (IH (plus_seconds t 2)) as [IHf IHl].
    split.
    + cbn [filter]. change (is_error (failure_entry isoformat (plus_seconds t 2) o)) with true.
      cbn iota. now rewrite IHf.
    + constructor; [|exact IHl].
      split; [right; right; left; reflexivity | discriminate].
Qed.

Lemma class_entries_debug (classes : list str) :
  forall t,
    filter (@is_error pyfloat) (class_entries isoformat t classes) = []
    /\ Forall (@level_ok pyfloat) (class_entries isoformat t classes).
Proof.
  induction classes as [|c classes IH]; intros t;
    [split; [reflexivity|constructor]|].
  cbn [class_entries]. destruct (IH (plus_seconds t 10)) as [IHf IHl].
  split.
  - cbn [filter].
    change (is_error (class_entry isoformat (plus_seconds t 10) c)) with false.
    cbn iota. exact IHf.
  - constructor; [|exact IHl].
    split; [right; left; reflexivity | discriminate].
Qed.

(** X14. The entries of level ERROR of a session
    are exactly the entries of the failure phase, in their order; every
    entry has level INFO, DEBUG or ERROR (none has WARNING) and carries a
    metadata dictionary. *)
Theorem error_entries_are_failures self bug outs :
  let s := generate_debug_session isoformat self bug outs in
  filter (@is_error pyfloat) (log_sequence s)
  = fst (_generate_failure_phase isoformat self bug outs)
  /\ Forall (@level_ok pyfloat) (log_sequence s).
Proof.
  intros s.
  destruct (session_phases isoformat self bug outs) as [Hl _].
  fold s in Hl. rewrite Hl.
  rewrite failure_phase_spec, investigation_phase_spec.
  cbn [fst].
  destruct (failure_entries_errors outs (plus_seconds (base_time self) 10))
    as [Hf1 Hf2].
  destruct (class_entries_debug (firstn 3 (modified_classes bug))
              (plus_seconds (base_time self) 60)) as [Hc1 Hc2].
  split.
  - rewrite !filter_app, Hf1.
    change (filter (@is_error pyfloat)
              (start_entry isoformat self bug
               :: class_entries isoformat (plus_seconds (base_time self) 60)
                    (firstn 3 (modified_classes bug))))
      with (filter (@is_error pyfloat)
              (class_entries isoformat (plus_seconds (base_time self) 60)
                 (firstn 3 (modified_classes bug)))).
    rewrite Hc1. cbn. now rewrite app_nil_r.
  - assert (Hfixed : forall (l : str) (src msg ts : str) md,
               In l [chars "INFO"; chars "DEBUG"; chars "ERROR"] ->
               @level_ok pyfloat
                 {| log_timestamp := ts; level := l; source := src;
                    message := msg; metadata := Some md |}).
    { intros l src msg ts md Hin. split; [exact Hin | discriminate]. }
    apply Forall_app. split.
    { repeat constructor; apply Hfixed; cbn; tauto. }
    apply Forall_app. split; [exact Hf2|].
    apply Forall_app. split.
    { constructor; [|exact Hc2]. apply Hfixed. cbn; tauto. }
    apply Forall_app. split.
    { repeat constructor; apply Hfixed; cbn; tauto. }
    repeat constructor; apply Hfixed; cbn; tauto.
Qed.

End Levels.


Section TraceExcerpt.
Variable pyfloat : Type.
Variable isoformat : datetime -> str.

Implicit Types (self : SyntheticLogGenerator) (bug : Defects4JBug)
         (outs : list (TestOutput pyfloat)).

Lemma failure_entries_quote outs :
  forall t e w,
    In e (failure_entries isoformat t outs) -> quotes_trace e w ->
    exists o trace,
      In o outs /\ is_fail o = true /\ stack_trace o = Some trace
      /\ w = firstn 500 trace
      /\ message e = chars "Stack trace for " ++ test_name o.
Proof.
  induction outs as [|o outs IH]; intros t e w Hin Hq; [destruct Hin|].
  cbn [failure_entries] in Hin.
  assert (Hrest : forall t', In e (failure_entries isoformat t' outs) ->
            exists o' trace,
              In o' (o :: outs) /\ is_fail o' = true
              /\ stack_trace o' = Some trace /\ w = firstn 500 trace
              /\ message e = chars "Stack trace for " ++ test_name o').
  { intros t' Hin'. destruct (IH t' e w Hin' Hq) as (o' & tr & Ho' & H).
    exists o', tr. split; [now right | exact H]. }
  assert (Hfail : forall t', e = failure_entry isoformat t' o -> False).
  { intros t' ->. destruct Hq as (md & Hmd & Hw). injection Hmd as <-.
    destruct Hw as [Hw | [Hw | [Hw | []]]]; discriminate Hw. }
  destruct (is_fail o) eqn:Hf; [|now apply (Hrest t)].
  destruct (stack_trace o) as [[|c trace]|] eqn:Hs.
  - destruct Hin as [<- | Hin]; [now destruct (Hfail _ eq_refl) | eauto].
  - destruct Hin as [<- | [<- | Hin]];
      [now destruct (Hfail _ eq_refl) | | eauto].
    destruct Hq as (md & Hmd & Hw). injection Hmd as <-.
    destruct Hw as [Hw | []]. injection Hw as <-.
    exists o, (c :: trace).
    split; [now left|]. split; [exact Hf|]. split; [exact Hs|].
    split; reflexivity.
  - destruct Hin as [<- | Hin]; [now destruct (Hfail _ eq_refl) | eauto].
Qed.

Lemma class_entries_no_quote (classes : list str) :
  forall t e w,
    In e (class_entries (pyfloat:=pyfloat) isoformat t classes) ->
    ~ quotes_trace e w.
Proof.
  induction classes as [|c classes IH]; intros t e w Hin Hq; [destruct Hin|].
  destruct Hin as [<- | Hin]; [|exact (IH _ _ _ Hin Hq)].
  destruct Hq as (md & Hmd & Hw). injection Hmd as <-.
  destruct Hw as [Hw | [Hw | []]]; discriminate Hw.
Qed.

(** X15. An entry of a session that carries text under the
    key [stack_trace] carries at most 500 characters: the first 500 of
    the stack trace of an outcome with status FAIL, which the message of
    the entry names. *)
Theorem stack_trace_excerpt self bug outs (e : LogEntry pyfloat) (w : str) :
  In e (log_sequence (generate_debug_session isoformat self bug outs)) ->
  quotes_trace e w ->
  length w <= 500
  /\ exists o trace,
       In o outs /\ is_fail o = true /\ stack_trace o = Some trace
       /\ w = firstn 500 trace
       /\ message e = chars "Stack trace for " ++ test_name o.
Proof.
  intros Hin Hq.
  assert (H : exists o trace,
             In o outs /\ is_fail o = true /\ stack_trace o = Some trace
             /\ w = firstn 500 trace
             /\ message e = chars "Stack trace for " ++ test_name o).
  { destruct (session_phases isoformat self bug outs) as [Hl _].
    cbv zeta in Hl. rewrite Hl in Hin. clear Hl.
    rewrite failure_phase_spec, investigation_phase_spec in Hin.
    cbn [fst] in Hin.
    assert (Hno : forall l src msg ts k (v : pyval pyfloat),
               e = {| log_timestamp := ts; level := l; source := src;
                      message := msg; metadata := Some [(k, v)] |} ->
               k <> chars "stack_trace" -> False).
    { intros l src msg ts k v -> Hk.
      destruct Hq as (md & Hmd & Hw). injection Hmd as <-.
      destruct Hw as [Hw | []]. injection Hw as Hk' _. now apply Hk. }
    apply in_app_or in Hin as [Hin | Hin].
    { destruct Hin as [<- | [<- | []]].
      - exfalso. destruct Hq as (md & Hmd & Hw). injection Hmd as <-.
        destruct Hw as [Hw | [Hw | []]]; discriminate Hw.
      - exfalso. eapply Hno; [reflexivity | discriminate]. }
    apply in_app_or in Hin as [Hin | Hin].
    { exact (failure_entries_quote outs _ e w Hin Hq). }
    apply in_app_or in Hin as [Hin | Hin].
    { exfalso. destruct Hin as [<- | Hin].
      - eapply Hno; [reflexivity | discriminate].
      - exact (class_entries_no_quote _ _ _ _ Hin Hq). }
    apply in_app_or in Hin as [Hin | Hin].
    { exfalso. destruct Hin as [<- | [<- | []]];
        (eapply Hno; [reflexivity | discriminate]). }
    exfalso. destruct Hin as [<- | [<- | [<- | []]]];
      (eapply Hno; [reflexivity | discriminate]). }
  split; [|exact H].
  destruct H as (o & trace & _ & _ & _ & -> & _).
  rewrite length_firstn. lia.
Qed.

End TraceExcerpt.

Lemma stack_trace_excerpt_witness :
  length (chars "at a.b(C.java:1)") <= 500
  /\ exists o trace,
       In o Sample.traced /\ is_fail o = true /\ stack_trace o = Some trace
       /\ chars "at a.b(C.java:1)" = firstn 500 trace
       /\ chars "Stack trace for org.Foo::testBar"
          = chars "Stack trace for " ++ test_name o.
Proof.
  apply (stack_trace_excerpt Sample.float0 Sample.iso Sample.generator
           (Sample.bug Sample.classes4) Sample.traced
           {| log_timestamp := Sample.iso 1700000013000000%Z;
              level := chars "ERROR"; source := chars "test";
              message := chars "Stack trace for org.Foo::testBar";
              metadata := Some [ (chars "stack_trace",
                                  PStr (chars "at a.b(C.java:1)")) ] |}
           (chars "at a.b(C.java:1)")).
  - vm_compute. right. right. right. left. reflexivity.
  - eexists. split; [reflexivity | left; reflexivity].
Defined.

(* ----------------------------------------------------------------- *)
(** ** Splitting and stripping *)

Lemma split_on_nonempty (c : ascii) (s : str) : split_on c s <> [].
Proof.
  destruct s as [|x s]; cbn [split_on]; [discriminate|].
  destruct (Ascii.eqb x c); [discriminate|].
  destruct (split_on c s); discriminate.
Qed.

Lemma join_cons_cons (sep p q : str) (ps : list str) :
  join sep (p :: q :: ps) = p ++ sep ++ join sep (q :: ps).
Proof. reflexivity. Qed.

Lemma join_split_on (c : ascii) (s : str) : join [c] (split_on c s) = s.
Proof.
  induction s as [|x s IH]; [reflexivity|].
  cbn [split_on]. destruct (Ascii.eqb_spec x c) as [->|Hx].
  - pose proof (split_on_nonempty c s) as Hne.
    destruct (split_on c s) as [|l ls]; [now elim Hne|].
    rewrite join_cons_cons, IH. reflexivity.
  - pose proof (split_on_nonempty c s) as Hne.
    destruct (split_on c s) as [|l ls]; [now elim Hne|].
    destruct ls as [|l' ls].
    + cbn [join] in *. now rewrite IH.
    + rewrite <- IH. reflexivity.
Qed.

Lemma split_on_one_line (s : str) : Forall one_line (split_on NL s).
Proof.
  induction s as [|x s IH]; [repeat constructor|].
  cbn [split_on]. destruct (Ascii.eqb x NL) eqn:Hx.
  - constructor; [reflexivity | exact IH].
  - destruct (split_on NL s) as [|l ls]; [repeat constructor|].
    + unfold one_line, not_newline. cbn. now rewrite Hx.
    + inversion IH as [|? ? Hl Hls]; subst. constructor; [|exact Hls].
      unfold one_line in *. cbn [forallb]. rewrite Hl.
      unfold not_newline. now rewrite Hx.
Qed.

Lemma split_on_line (l rest : str) :
  one_line l -> split_on NL (l ++ NL :: rest) = l :: split_on NL rest.
Proof.
  induction l as [|x l IH]; intros Hl; cbn [app split_on].
  - now rewrite Ascii.eqb_refl.
  - unfold one_line in Hl. cbn [forallb] in Hl.
    apply andb_prop in Hl as [Hx Hl].
    unfold not_newline in Hx. apply negb_true_iff in Hx. rewrite Hx.
    now rewrite (IH Hl).
Qed.

Lemma split_on_last_line (l : str) : one_line l -> split_on NL l = [l].
Proof.
  induction l as [|x l IH]; intros Hl; [reflexivity|].
  unfold one_line in Hl. cbn [forallb] in Hl.
  apply andb_prop in Hl as [Hx Hl].
  cbn [split_on]. unfold not_newline in Hx. apply negb_true_iff in Hx.
  now rewrite Hx, (IH Hl).
Qed.

Lemma split_on_join (ls : list str) :
  ls <> [] -> Forall one_line ls -> split_on NL (join [NL] ls) = ls.
Proof.
  induction ls as [|l ls IH]; intros Hne Hok; [now elim Hne|].
  inversion Hok as [|? ? Hl Hls]; subst.
  destruct ls as [|l' ls].
  - now apply split_on_last_line.
  - rewrite join_cons_cons. cbn [app].
    rewrite split_on_line by exact Hl.
    now rewrite IH.
Qed.

Lemma lstrip_by_stops (p : ascii -> bool) (s : str) :
  stops p (lstrip_by p s).
Proof.
  induction s as [|c s IH]; [exact I|].
  cbn [lstrip_by]. destruct (p c) eqn:Hc; [exact IH | exact Hc].
Qed.

Lemma lstrip_by_suffix (p : ascii -> bool) (s : str) :
  exists pre, s = pre ++ lstrip_by p s /\ forallb p pre = true.
Proof.
  induction s as [|c s IH]; [now exists []|].
  cbn [lstrip_by]. destruct (p c) eqn:Hc; [|now exists []].
  destruct IH as (pre & E & Hpre). exists (c :: pre).
  split; [cbn; now rewrite <- E | cbn; now rewrite Hc].
Qed.

Lemma rstrip_by_prefix (p : ascii -> bool) (s : str) :
  exists post, s = rstrip_by p s ++ post /\ forallb p post = true.
Proof.
  unfold rstrip_by.
  destruct (lstrip_by_suffix p (rev s)) as (pre & E & Hpre).
  exists (rev pre). split.
  - rewrite <- rev_app_distr, <- E. now rewrite rev_involutive.
  - rewrite forallb_forall in *. intros x Hx. apply Hpre.
    now apply in_rev.
Qed.

Lemma rstrip_by_last (p : ascii -> bool) (s : str) (d : ascii) :
  rstrip_by p s <> [] -> p (last (rstrip_by p s) d) = false.
Proof.
  unfold rstrip_by. pose proof (lstrip_by_stops p (rev s)) as Hs.
  destruct (lstrip_by p (rev s)) as [|c t]; [intros H; now elim H|].
  intros _. cbn [rev]. rewrite last_last. exact Hs.
Qed.

Lemma last_suffix (pre w : str) (d : ascii) :
  w <> [] -> last (pre ++ w) d = last w d.
Proof.
  intros Hw. induction pre as [|c pre IH]; [reflexivity|].
  cbn [app]. destruct (pre ++ w) eqn:E.
  - destruct pre; [now elim Hw | discriminate].
  - rewrite <- IH. reflexivity.
Qed.

(** What [s.strip()] leaves, when it leaves anything, neither begins
    nor ends with white space. *)
Lemma strip_stripped (s : str) : strip s <> [] -> stripped (strip s).
Proof.
  unfold strip, rstrip. intros Hne.
  destruct (lstrip_by_suffix is_space (rstrip_by is_space s))
    as (pre & E & _).
  pose proof (lstrip_by_stops is_space (rstrip_by is_space s)) as Hs.
  split.
  - assert (Hr : rstrip_by is_space s <> []).
    { intros H0. rewrite H0 in Hne. now elim Hne. }
    pose proof (rstrip_by_last is_space s NL Hr) as Hl.
    rewrite E in Hl. now rewrite last_suffix in Hl.
  - destruct (lstrip_by is_space (rstrip_by is_space s)) as [|c w];
      [now elim Hne|].
    now exists c, w.
Qed.

Lemma strip_one_line (s : str) : one_line s -> one_line (strip s).
Proof.
  unfold strip, rstrip. intros Hs.
  destruct (rstrip_by_prefix is_space s) as (post & E & _).
  destruct (lstrip_by_suffix is_space (rstrip_by is_space s))
    as (pre & E' & _).
  rewrite E, E' in Hs. unfold one_line in *.
  rewrite !forallb_app in Hs.
  apply andb_prop in Hs as [Hs _]. now apply andb_prop in Hs as [_ Hs].
Qed.

Lemma rstrip_by_clean (p : ascii -> bool) (w : str) (d : ascii) :
  w <> [] -> p (last w d) = false -> rstrip_by p w = w.
Proof.
  intros Hne Hl. unfold rstrip_by.
  destruct (exists_last Hne) as (w' & x & ->).
  rewrite last_last in Hl. rewrite rev_app_distr. cbn [rev app lstrip_by].
  rewrite Hl. cbn [rev]. now rewrite rev_involutive.
Qed.

Lemma strip_of_stripped (w : str) : stripped w -> strip w = w.
Proof.
  intros (Hl & c & w' & -> & Hc). unfold strip, rstrip.
  rewrite (rstrip_by_clean is_space (c :: w') NL) by (discriminate || exact Hl).
  cbn [lstrip_by]. now rewrite Hc.
Qed.

Lemma rstrip_by_drop (p : ascii -> bool) (w post : str) :
  forallb p post = true -> rstrip_by p (w ++ post) = rstrip_by p w.
Proof.
  intros Hp. unfold rstrip_by. f_equal. rewrite rev_app_distr.
  assert (H : forallb p (rev post) = true).
  { rewrite forallb_forall in *. intros x Hx. apply Hp. now apply in_rev. }
  induction (rev post) as [|x r IH]; [reflexivity|].
  cbn [forallb] in H. apply andb_prop in H as [Hx Hr].
  cbn [app lstrip_by]. rewrite Hx. now apply IH.
Qed.

(** The lines of a tool's output, each with its newline, stripped: the
    lines joined by newlines, when the first does not begin and the last
    does not end with white space. *)
Lemma strip_unlines (ls : list str) (l : str) :
  stripped (join [NL] (ls ++ [l])) ->
  strip (unlines (ls ++ [l])) = join [NL] (ls ++ [l]).
Proof.
  intros Hs. rewrite unlines_join by (destruct ls; discriminate).
  unfold strip, rstrip.
  rewrite (rstrip_by_drop is_space _ [NL]) by reflexivity.
  exact (strip_of_stripped _ Hs).
Qed.

Lemma join_stripped (ns : list str) :
  ns <> [] -> Forall stripped ns -> stripped (join [NL] ns).
Proof.
  induction ns as [|n ns IH]; intros Hne Hok; [now elim Hne|].
  inversion Hok as [|? ? Hn Hns]; subst.
  destruct ns as [|n' ns]; [exact Hn|].
  rewrite join_cons_cons.
  destruct (IH ltac:(discriminate) Hns) as (Hl & c & w' & E & Hc).
  destruct Hn as (_ & c0 & w0 & -> & Hc0).
  split.
  - rewrite app_assoc.
    rewrite last_suffix by (rewrite E; discriminate). exact Hl.
  - now exists c0, (w0 ++ [NL] ++ join [NL] (n' :: ns)).
Qed.

Lemma strip_all_stripped (xs : list str) :
  Forall stripped xs ->
  map strip (filter (fun p => truthy (strip p)) xs) = xs.
Proof.
  induction 1 as [|x xs Hx _ IH]; [reflexivity|].
  cbn [filter]. rewrite (strip_of_stripped x Hx).
  assert (Ht : truthy x = true)
    by (destruct Hx as (_ & c & x' & -> & _); reflexivity).
  rewrite Ht. cbn [map].
  now rewrite (strip_of_stripped x Hx), IH.
Qed.

(* ----------------------------------------------------------------- *)
(** ** The lists of bugs and of projects *)

(** X7. [get_all_bugs] returns the lines of the tool's
    output stripped of the white space around it: a list that is never
    empty, of texts without a newline, which joined by newlines are the
    stripped output.  When the tool prints nothing but white space the
    list holds one bug id, the empty one.  When the run of the tool
    raises, [get_all_bugs] raises. *)
Theorem get_all_bugs_lines (world : Type)
        (run : str -> world -> outcome CompletedProcess * world)
        (project : str) (w : world) :
  match run (chars "defects4j bids -p " ++ project) w with
  | (Ok result, w') =>
      let out := stdout result in
      exists ids,
        get_all_bugs run project w = (Ok ids, w')
        /\ ids <> []
        /\ Forall one_line ids
        /\ join [NL] ids = strip out
        /\ (ids = [[]] <-> strip out = [])
  | (Fault, w') => get_all_bugs run project w = (Fault, w')
  end.
Proof.
  unfold get_all_bugs.
  destruct (run (chars "defects4j bids -p " ++ project) w)
    as [[result|] w']; [|reflexivity].
  cbv zeta. eexists. split; [reflexivity|].
  split; [apply split_on_nonempty|].
  split; [apply split_on_one_line|].
  split; [apply join_split_on|].
  split.
  - intros H. rewrite <- (join_split_on NL (strip (stdout result))), H.
    reflexivity.
  - intros ->. reflexivity.
Qed.

(** X6. Every name [get_all_projects] returns is on one
    line, is not empty and neither begins nor ends with white space.
    When the tool fails the names are the six defaults; when it succeeds
    and prints names of that kind, one per line, the result is these
    names in their order.  When the run of the tool itself raises,
    [get_all_projects] raises. *)
Theorem get_all_projects_names (world : Type)
        (run : str -> world -> outcome CompletedProcess * world)
        (w : world) :
  match run (chars "defects4j pids") w with
  | (Ok result, w') =>
      exists names,
        get_all_projects run w = (Ok names, w')
        /\ Forall (fun n => one_line n /\ stripped n) names
        /\ (returncode result <> 0%Z -> names = default_projects)
        /\ (forall ns, returncode result = 0%Z ->
                       stdout result = unlines ns ->
                       Forall (fun n => one_line n /\ stripped n) ns ->
                       names = ns)
  | (Fault, w') => get_all_projects run w = (Fault, w')
  end.
Proof.
  unfold get_all_projects.
  destruct (run (chars "defects4j pids") w) as [[result|] w'];
    [|reflexivity].
  destruct (Z.eqb_spec (returncode result) 0) as [E|E];
    (eexists; split; [reflexivity|]).
  - split; [|split; [intros H; now elim H|]].
    + apply Forall_forall. intros n Hn.
      apply in_map_iff in Hn as (p & <- & Hp).
      apply filter_In in Hp as [Hp Ht].
      split.
      * apply strip_one_line.
        pose proof (split_on_one_line (strip (stdout result))) as Hall.
        rewrite Forall_forall in Hall. now apply Hall.
      * apply strip_stripped. intros H0. now rewrite H0 in Ht.
    + intros ns _ Hout Hns. rewrite Hout.
      destruct ns as [|n ns]; [reflexivity|].
      assert (Hs : Forall stripped (n :: ns)).
      { apply Forall_forall. intros x Hx.
        rewrite Forall_forall in Hns. now apply Hns. }
      assert (Ho : Forall one_line (n :: ns)).
      { apply Forall_forall. intros x Hx.
        rewrite Forall_forall in Hns. now apply Hns. }
      destruct (exists_last (l := n :: ns) ltac:(discriminate))
        as (ls & l & Els).
      rewrite Els in *.
      rewrite strip_unlines
        by (apply join_stripped; [destruct ls; discriminate | exact Hs]).
      rewrite split_on_join by (destruct ls; discriminate || exact Ho).
      now apply strip_all_stripped.
  - split; [|split; [reflexivity | intros ns H; now elim E]].
    repeat constructor; try reflexivity; eexists _, _; split; reflexivity.
Qed.

(* ----------------------------------------------------------------- *)
(** ** The failing tests in the output of a test run *)

Lemma starts_with_line (w l tail : str) :
  one_line w -> stops not_newline tail ->
  starts_with w (l ++ tail) = starts_with w l.
Proof.
  revert l. induction w as [|x w IH]; intros l Hw Ht; [reflexivity|].
  unfold one_line in Hw. cbn [forallb] in Hw.
  apply andb_prop in Hw as [Hx Hw].
  destruct l as [|y l]; cbn [app starts_with].
  - destruct tail as [|t tail]; [reflexivity|].
    cbn [stops] in Ht. cbn [starts_with].
    unfold not_newline in *. apply negb_false_iff in Ht.
    apply Ascii.eqb_eq in Ht. subst t.
    apply negb_true_iff in Hx. now rewrite Hx.
  - now rewrite IH.
Qed.

Lemma forallb_split (p : ascii -> bool) (n : str) :
  forallb p n = false ->
  exists run x rest,
    n = run ++ x :: rest /\ forallb p run = true /\ p x = false.
Proof.
  induction n as [|c n IH]; intros H; [discriminate|].
  cbn [forallb] in H. destruct (p c) eqn:Hc.
  - destruct (IH H) as (run & x & rest & -> & Hr & Hx).
    exists (c :: run), x, rest. cbn. now rewrite Hc.
  - now exists [], c, n.
Qed.

Lemma test_char_not_newline (c : ascii) :
  is_test_char c = true -> not_newline c = true.
Proof.
  intros H. unfold not_newline. destruct (Ascii.eqb_spec c NL) as [->|];
    [discriminate H | reflexivity].
Qed.

Lemma stops_test_char (tail : str) :
  stops not_newline tail -> stops is_test_char tail.
Proof.
  destruct tail as [|t tail]; [trivial|]. cbn [stops].
  intros H. destruct (is_test_char t) eqn:Ht; [|reflexivity].
  apply test_char_not_newline in Ht. congruence.
Qed.

Lemma stops_at_eol prev (tail : str) caps :
  stops not_newline tail -> at_eol (MState prev tail caps) = true.
Proof.
  destruct tail as [|t tail]; [reflexivity|]. cbn [stops at_eol ms_rest].
  unfold not_newline. intros H. now apply negb_false_iff in H.
Qed.

(** At the start of a line the pattern of [_parse_test_output] matches
    when the line has the form [failing_name] describes, up to the end
    of the line, and does not match otherwise. *)
Lemma rmatch_failing_line prev (l tail : str) :
  line_start prev -> one_line l -> stops not_newline tail ->
  rmatch failing_re (MState prev (l ++ tail) []) Some
  = match failing_name l with
    | Some n => Some (MState (Some (last n NL)) tail [(1, n)])
    | None => None
    end.
Proof.
  intros Hp Hl Ht. unfold failing_re. cbn [seqs fold_right].
  rewrite rmatch_Seq, rmatch_Bol_ok by now apply line_start_bol.
  rewrite rmatch_Seq. unfold failing_name.
  destruct (starts_with (chars "  - ") l) eqn:Hs.
  2:{ apply rmatch_Lit_fail. cbn [ms_rest].
      rewrite starts_with_line; [exact Hs | reflexivity | exact Ht]. }
  apply starts_with_iff in Hs as [name ->].
  rewrite <- app_assoc, rmatch_Lit_eq.
  change (skipn 4 (chars "  - " ++ name)) with name.
  unfold one_line in Hl. rewrite forallb_app in Hl.
  apply andb_prop in Hl as [_ Hname].
  rewrite rmatch_Seq, rmatch_Group, rmatch_Plus.
  destruct name as [|c n]; cbn [truthy andb app].
  { destruct tail as [|t tail]; [reflexivity|].
    apply rmatch_Chr_no. apply stops_test_char in Ht. exact Ht. }
  cbn [forallb] in *. apply andb_prop in Hname as [Hc Hn].
  destruct (is_test_char c) eqn:Hpc; cbn [andb];
    [|now apply rmatch_Chr_no].
  rewrite rmatch_Chr_ok by exact Hpc. rewrite rmatch_star_chr.
  destruct (forallb is_test_char n) eqn:Hpn.
  - apply backtrack_greedy; [exact Hpn | now apply stops_test_char |].
    rewrite rmatch_Seq, rmatch_Eol_ok by now apply stops_at_eol.
    rewrite rmatch_Eps. unfold set_cap. cbn [ms_prev ms_rest ms_caps].
    f_equal. f_equal.
    + exact (prev_after_last c n (prev_after prev (chars "  - ")) NL).
    + f_equal. f_equal.
      change (c :: n ++ tail) with ((c :: n) ++ tail).
      apply consumed_app.
  - destruct (forallb_split _ _ Hpn) as (run & x & rest & -> & Hrun & Hx).
    rewrite <- app_assoc. cbn [app].
    apply backtrack_none; [exact Hrun | exact Hx |].
    intros a1 a2 ->.
    rewrite rmatch_Seq. apply rmatch_Eol_no.
    unfold set_cap. cbn [at_eol ms_rest].
    rewrite !forallb_app in Hn. apply andb_prop in Hn as [Hn1 Hn2].
    apply andb_prop in Hn1 as [_ Ha2]. cbn [forallb] in Hn2.
    apply andb_prop in Hn2 as [Hxn _].
    destruct a2 as [|y a2]; cbn [app].
    + unfold not_newline in Hxn. now apply negb_true_iff in Hxn.
    + cbn [forallb] in Ha2. apply andb_prop in Ha2 as [Hy _].
      unfold not_newline in Hy. now apply negb_true_iff in Hy.
Qed.

Lemma rmatch_failing_stop p (tail : str) :
  stops not_newline tail ->
  rmatch failing_re (MState p tail []) Some = None.
Proof.
  intros Ht. unfold failing_re. cbn [seqs fold_right].
  rewrite rmatch_Seq. cbn [rmatch].
  destruct (at_bol (MState p tail [])); [|reflexivity].
  apply rmatch_Lit_fail. cbn [ms_rest].
  destruct tail as [|t tail]; [reflexivity|].
  cbn [stops] in Ht. unfold not_newline in Ht.
  apply negb_false_iff, Ascii.eqb_eq in Ht. now subst t.
Qed.

Lemma findall_rest_of_text r fuel (w : str) :
  forall c tail,
    not_newline c = true -> one_line w -> w <> [] ->
    findall_loop fuel (Seq Bol r) (Some c) (w ++ tail)
    = findall_loop fuel (Seq Bol r) (Some (last w NL)) tail.
Proof.
  induction w as [|x w IH]; intros c tail Hc Hw Hne; [now elim Hne|].
  cbn [app]. rewrite findall_skip by now apply rmatch_mid_line.
  unfold one_line in Hw. cbn [forallb] in Hw.
  apply andb_prop in Hw as [Hx Hw].
  destruct w as [|y w]; [reflexivity|].
  rewrite IH by (assumption || discriminate). reflexivity.
Qed.

(** What [re.findall] gives from the start of a line on: the identifier
    of the line when it has the form, and what it finds after the
    line. *)
Lemma findall_failing_line fuel prev (l tail : str) :
  line_start prev -> one_line l -> stops not_newline tail ->
  findall_loop (S fuel) failing_re prev (l ++ tail)
  = match failing_name l with
    | Some n => n :: findall_loop fuel failing_re (Some (last n NL)) tail
    | None =>
        findall_loop (S fuel) failing_re
          (match l with [] => prev | _ => Some (last l NL) end) tail
    end.
Proof.
  intros Hp Hl Ht.
  pose proof (rmatch_failing_line prev l tail Hp Hl Ht) as Hm.
  destruct (failing_name l) as [n|] eqn:Hn.
  - cbn [findall_loop]. erewrite search_at_hit by exact Hm.
    cbn [m_final m_start group ms_caps lookup_cap Nat.eqb skipn ms_rest
         ms_prev].
    assert (Hlen : length tail < length (l ++ tail)).
    { unfold failing_name in Hn.
      destruct (starts_with (chars "  - ") l) eqn:Hs; [|discriminate].
      apply starts_with_iff in Hs as [name ->].
      rewrite !length_app. cbn. lia. }
    apply Nat.ltb_lt in Hlen. rewrite Hlen. reflexivity.
  - destruct l as [|c l]; [reflexivity|].
    cbn [app]. rewrite findall_skip by exact Hm.
    unfold one_line in Hl. cbn [forallb] in Hl.
    apply andb_prop in Hl as [Hc Hl].
    destruct l as [|y l]; [reflexivity|].
    unfold failing_re. cbn [seqs fold_right].
    rewrite findall_rest_of_text by (assumption || discriminate).
    reflexivity.
Qed.

Lemma findall_failing_lines (ls : list str) :
  forall fuel prev,
    ls <> [] -> Forall one_line ls -> line_start prev ->
    length ls <= fuel ->
    findall_loop fuel failing_re prev (join [NL] ls) = failing_names ls.
Proof.
  induction ls as [|l ls IH]; intros fuel prev Hne Hok Hp Hfuel;
    [now elim Hne|].
  inversion Hok as [|? ? Hl Hls]; subst.
  destruct fuel as [|fuel]; [cbn in Hfuel; lia|].
  cbn [failing_names flat_map]. fold (failing_names ls).
  destruct ls as [|l' ls].
  - cbn [join failing_names flat_map]. rewrite app_nil_r.
    rewrite <- (app_nil_r l) at 1.
    rewrite findall_failing_line by (assumption || exact I).
    destruct (failing_name l) as [n|].
    + cbn [app]. f_equal. apply findall_end. now apply rmatch_failing_stop.
    + apply findall_end. now apply rmatch_failing_stop.
  - rewrite join_cons_cons. cbn [app].
    rewrite findall_failing_line by (assumption || reflexivity).
    destruct (failing_name l) as [n|].
    + cbn [app]. f_equal.
      rewrite findall_skip by now apply rmatch_failing_stop.
      apply IH; [discriminate | assumption | now right |].
      cbn [length] in *. lia.
    + rewrite findall_skip by now apply rmatch_failing_stop.
      apply IH; [discriminate | assumption | now right |].
      cbn [length] in *. lia.
Qed.

Lemma split_on_length (c : ascii) (s : str) :
  length (split_on c s) <= S (length s).
Proof.
  induction s as [|x s IH]; [cbn; lia|].
  cbn [split_on]. destruct (Ascii.eqb x c); [cbn [length]; lia|].
  destruct (split_on c s); cbn [length] in *; lia.
Qed.

(** [re.findall] with the pattern of [_parse_test_output] collects the
    identifiers of the lines of the form [  - identifier]. *)
Lemma findall_failing (s : str) :
  findall failing_re s = failing_names (split_on NL s).
Proof.
  unfold findall. rewrite <- (join_split_on NL s) at 2.
  apply findall_failing_lines.
  - apply split_on_nonempty.
  - apply split_on_one_line.
  - now left.
  - apply split_on_length.
Qed.

Section ParseTestOutput.
Variable pyfloat : Type.
Variable float_zero : pyfloat.
Variable world : Type.
Variable now : world -> datetime * world.

Lemma parse_test_output_loop (names : list str) :
  forall (acc : list (TestOutput pyfloat)) (w : world),
    let outs :=
      fst (fold_left
             (fun (st : list (TestOutput pyfloat) * world) test_name =>
                let '(outputs, w) := st in
                let '(t, w) := now w in
                (outputs ++ [ {| test_name := test_name;
                                 status := chars "FAIL";
                                 error_message := None;
                                 stack_trace := None;
                                 execution_time := float_zero;
                                 timestamp := t |} ], w))
             names (acc, w)) in
    map (@test_name pyfloat) outs = map (@test_name pyfloat) acc ++ names
    /\ (Forall (bare_failure float_zero) acc -> Forall (bare_failure float_zero) outs).
Proof.
  induction names as [|n names IH]; intros acc w; cbn [fold_left fst].
  - rewrite app_nil_r. now split.
  - destruct (now w) as [t w'].
    destruct (IH (acc ++ [ {| test_name := n; status := chars "FAIL";
                              error_message := None; stack_trace := None;
                              execution_time := float_zero;
                              timestamp := t |} ]) w') as [IH1 IH2].
    cbv zeta in IH1, IH2. split.
    + rewrite IH1, map_app, <- app_assoc. reflexivity.
    + intros Hacc. apply IH2. apply Forall_app. split; [exact Hacc|].
      repeat constructor.
Qed.

(** X8. [_parse_test_output] returns one outcome for
    each line of the tool's output that is two spaces, a dash, a space
    and a non-empty run of letters, digits and the characters [_.$:],
    in the order of the lines and named by that run; a line of any
    other form gives none.  Every outcome has status FAIL, no error
    message, no stack trace and the execution time 0.0. *)
Theorem parse_test_output_lines (stdout stderr : str) (w : world) :
  let outs := fst (_parse_test_output float_zero now stdout stderr w) in
  map (@test_name pyfloat) outs = failing_names (split_on NL stdout)
  /\ Forall (bare_failure float_zero) outs.
Proof.
  unfold _parse_test_output.
  destruct (parse_test_output_loop (findall failing_re stdout) [] w)
    as [H1 H2].
  cbv zeta in H1, H2. rewrite findall_failing in *.
  split; [exact H1 | apply H2; constructor].
Qed.

End ParseTestOutput.

(* ----------------------------------------------------------------- *)
(** ** Trimming at both ends *)















(* ----------------------------------------------------------------- *)
(** ** The header pattern at the header line of its name *)


(* ----------------------------------------------------------------- *)
(** ** The section of an entry *)






(* ----------------------------------------------------------------- *)
(** ** Looking an entry up in a well-formed report *)












(** Outside the well-formed reports the white space of the header
    pattern, which runs over line ends, shows: a block of one line comes
    back with a newline after it, and under a header with no block the
    look-up takes the next header line for the text of the entry. *)
Example one_line_block :
  _extract_error_from_failing_tests
    (chars "--- A" ++ NL :: chars "line1" ++ [NL]) (chars "A")
  = Some (chars "line1" ++ [NL]).
Proof. reflexivity. Qed.

Example empty_block :
  _extract_error_from_failing_tests
    (chars "--- A" ++ NL :: chars "--- B" ++ NL :: chars "boom" ++ [NL])
    (chars "A")
  = Some (chars "--- B" ++ NL :: chars "boom").
Proof. reflexivity. Qed.

(* ----------------------------------------------------------------- *)
(** ** What a look-up in the report returns *)

Lemma search_at_sound_prev (r : regex) (s : str) :
  forall off prev m,
    search_at r off prev s = Some m ->
    exists pre s1,
      s = pre ++ s1 /\ m_start m = off + length pre
      /\ matches r (MState (prev_after prev pre) s1 []) (m_final m).
Proof.
  induction s as [|c s IH]; intros off prev m H; cbn [search_at] in H.
  - destruct (rmatch r _ Some) as [e|] eqn:Hm; [|discriminate].
    injection H as <-. apply rmatch_sound in Hm as [st' [Hm [= ->]]].
    exists [], []. cbn. repeat split; [lia | assumption].
  - destruct (rmatch r _ Some) as [e|] eqn:Hm.
    + injection H as <-. apply rmatch_sound in Hm as [st' [Hm [= ->]]].
      exists [], (c :: s). cbn. repeat split; [lia | assumption].
    + apply IH in H as (pre & s1 & -> & Hs & Hm').
      exists (c :: pre), s1. cbn. repeat split; [lia | assumption].
Qed.

Lemma matches_Bol_inv st st' :
  matches Bol st st' -> st' = st /\ at_bol st = true.
Proof. intros H. inversion H; subst. now split. Qed.

Lemma matches_Star_chr_inv (p : ascii -> bool) st st' :
  matches (Star (Chr p)) st st' ->
  exists ws, ms_rest st = ws ++ ms_rest st' /\ forallb p ws = true.
Proof.
  intros H. remember (Star (Chr p)) as r eqn:Er.
  induction H; try discriminate.
  - now exists [].
  - injection Er as ->.
    destruct (IHmatches2 eq_refl) as (ws & E & Hws).
    apply matches_Chr_inv in H as (c & Hc & Hr & _).
    exists (c :: ws). rewrite Hr, E. cbn. now rewrite Hc, Hws.
Qed.

(** A match of the header pattern stands at the start of a line and
    reads three dashes, white space and the name. *)
Lemma search_header_shape (v content : str) (m : rmatch_obj) :
  search (header_re v) content = Some m ->
  exists pre ws post,
    content = pre ++ chars "---" ++ ws ++ v ++ post
    /\ forallb is_space ws = true
    /\ line_start (prev_after None pre).
Proof.
  intros H. apply search_at_sound_prev in H as (pre & s1 & -> & _ & H).
  unfold header_re, space in H. cbn [seqs fold_right] in H.
  apply matches_Seq_inv in H as (st1 & Hbol & H).
  apply matches_Bol_inv in Hbol as [-> Hbol].
  apply matches_Seq_inv in H as (st2 & Hlit & H).
  apply matches_Lit in Hlit as [Hlit _]. cbn [ms_rest] in Hlit.
  apply matches_Seq_inv in H as (st3 & Hstar & H).
  apply matches_Star_chr_inv in Hstar as (ws & Hws & Hsp).
  apply matches_Seq_inv in H as (st4 & Hv & _).
  apply matches_Lit in Hv as [Hv _].
  exists pre, ws, (ms_rest st4).
  split; [|split; [exact Hsp|]].
  - rewrite Hlit, Hws, Hv. reflexivity.
  - unfold at_bol in Hbol. cbn [ms_prev] in Hbol.
    destruct (prev_after None pre) as [c|]; [|now left].
    apply Ascii.eqb_eq in Hbol. subst c. now right.
Qed.

Lemma split_head_prefix (sep t : str) :
  exists rest, t = split_head sep t ++ rest.
Proof.
  induction t as [|c t IH]; [now exists []|].
  cbn [split_head]. destruct (starts_with sep (c :: t)).
  - now exists (c :: t).
  - destruct IH as [rest E]. exists rest. cbn. now rewrite <- E.
Qed.

Lemma replace_split_head (old new t : str) :
  exists rest, replace old new t = split_head old t ++ rest.
Proof.
  unfold replace. induction t as [|c t IH]; [now exists []|].
  cbn [replace_loop split_head]. destruct (starts_with old (c :: t)).
  - now eexists.
  - destruct IH as [rest E]. exists rest. cbn. now rewrite E.
Qed.

(** Each of the three names begins with the class part. *)
Lemma variants_begin_with_class (t v : str) :
  In v (test_name_variants t) -> exists rest, v = class_part t ++ rest.
Proof.
  unfold test_name_variants. rewrite third_variant.
  intros [<- | [<- | [<- | []]]].
  - apply split_head_prefix.
  - apply replace_split_head.
  - exists []. now rewrite app_nil_r.
Qed.

Lemma first_some_from (content : str) (vs : list str) (e : str) :
  first_some content vs = Some e ->
  exists v, In v vs /\ extract_variant content v = Some e.
Proof.
  induction vs as [|v vs IH]; [discriminate|].
  cbn [first_some]. destruct (extract_variant content v) as [e'|] eqn:Hv.
  - intros [= <-]. exists v. split; [now left | exact Hv].
  - intros H. destruct (IH H) as (v' & Hin & Hv').
    exists v'. split; [now right | exact Hv'].
Qed.

(** X10. When the look-up in the report returns a text, the
    text is not blank; one of the three names stands in the report after
    three dashes and white space at the start of a line; and the class
    part of the test name occurs in the report. *)
Theorem extract_error_some (content t e : str) :
  _extract_error_from_failing_tests content t = Some e ->
  strip e <> []
  /\ (exists v pre ws post,
        In v (test_name_variants t)
        /\ content = pre ++ chars "---" ++ ws ++ v ++ post
        /\ forallb is_space ws = true
        /\ line_start (prev_after None pre))
  /\ occurs (class_part t) content.
Proof.
  unfold _extract_error_from_failing_tests. intros H.
  apply first_some_from in H as (v & Hin & Hv).
  unfold extract_variant in Hv.
  destruct (search (header_re v) content) as [m|] eqn:Hm; [|discriminate].
  apply search_header_shape in Hm as (pre & ws & post & E & Hws & Hpre).
  match type of Hv with
  | (if truthy (strip ?x) then _ else _) = _ =>
      remember x as section eqn:Esec; clear Esec;
      destruct (truthy (strip section)) eqn:Ht; [|discriminate];
      injection Hv as <-
  end.
  split; [|split].
  - intros H0. now rewrite H0 in Ht.
  - now exists v, pre, ws, post.
  - destruct (variants_begin_with_class t v Hin) as [rest Ev].
    exists (pre ++ chars "---" ++ ws), (rest ++ post).
    rewrite E, Ev, <- !app_assoc. reflexivity.
Qed.

Lemma extract_error_some_witness :
  strip (chars "(flaky)" ++ NL :: chars "junit.framework.Failure") <> []
  /\ (exists v pre ws post,
        In v (test_name_variants (chars "org.Foo::testBaz"))
        /\ render_report Sample.report
           = pre ++ chars "---" ++ ws ++ v ++ post
        /\ forallb is_space ws = true
        /\ line_start (prev_after None pre))
  /\ occurs (class_part (chars "org.Foo::testBaz"))
            (render_report Sample.report).
Proof.
  apply (extract_error_some (render_report Sample.report)
           (chars "org.Foo::testBaz")).
  vm_compute. reflexivity.
Defined.

(* ----------------------------------------------------------------- *)
(** ** Running the tests *)

Lemma extract_variant_not_blank (content v e : str) :
  extract_variant content v = Some e -> truthy (strip e) = true.
Proof.
  unfold extract_variant.
  destruct (search (header_re v) content) as [m|]; [|discriminate].
  match goal with
  | |- (if truthy (strip ?x) then _ else _) = _ -> _ =>
      remember x as section eqn:Esec; clear Esec;
      destruct (truthy (strip section)) eqn:Ht; [|discriminate]
  end.
  now intros [= <-].
Qed.

Lemma extract_error_not_blank (content t e : str) :
  _extract_error_from_failing_tests content t = Some e ->
  truthy (strip e) = true.
Proof.
  unfold _extract_error_from_failing_tests. intros H.
  apply first_some_from in H as (v & _ & Hv).
  exact (extract_variant_not_blank _ _ _ Hv).
Qed.

Lemma strip_nil : strip [] = [].
Proof. reflexivity. Qed.

Lemma not_blank_truthy (e : str) : truthy (strip e) = true -> truthy e = true.
Proof. destruct e; [discriminate | reflexivity]. Qed.

Section RunningTests.
Variable pyfloat : Type.
Variable float_zero : pyfloat.
Variable world : Type.
Variable path : Type.
Variable path_str : path -> str.
Variable path_div : path -> str -> path.
Variable run : str -> world -> outcome CompletedProcess * world.
Variable now : world -> datetime * world.
Variable path_exists : path -> world -> bool.
Variable read_text : path -> world -> outcome str.

Implicit Types (o : TestOutput pyfloat) (outs : list (TestOutput pyfloat))
         (w : world).

(** X9. [_parse_single_test_result] gives the
    status PASS exactly when the tool's output contains the text
    [Failing tests: 0], and the status FAIL exactly when it does not;
    the outcome has the name of the test, no error message and no
    stack trace. *)
Theorem parse_single_test_result_status (t stdout stderr : str) w :
  let o := fst (_parse_single_test_result float_zero now t stdout stderr w) in
  (status o = chars "PASS" <-> occurs (chars "Failing tests: 0") stdout)
  /\ (status o = chars "FAIL" <-> ~ occurs (chars "Failing tests: 0") stdout)
  /\ test_name o = t /\ error_message o = None /\ stack_trace o = None.
Proof.
  unfold _parse_single_test_result. destruct (now w) as [time w'].
  cbn [fst status test_name error_message stack_trace].
  rewrite <- contains_iff.
  destruct (contains (chars "Failing tests: 0") stdout).
  - repeat split; try reflexivity; try discriminate.
    + intros H. now elim H.
  - repeat split; try reflexivity; try discriminate.
Qed.


Lemma enrich_output_idempotent (content : str) o :
  enrich_output content (enrich_output content o) = enrich_output content o.
Proof.
  destruct (is_fail o) eqn:Hf.
  2:{ unfold enrich_output. now rewrite Hf, Hf. }
  destruct (truthy_opt (error_message o)) eqn:Hm.
  { unfold enrich_output. rewrite Hf, Hm. cbn [negb]. now rewrite Hf, Hm. }
  assert (E : enrich_output content o
              = set_error_message o
                  (_extract_error_from_failing_tests content (test_name o))).
  { unfold enrich_output. now rewrite Hf, Hm. }
  rewrite E. unfold enrich_output.
  change (is_fail (set_error_message o ?r)) with (is_fail o).
  rewrite Hf. cbn [set_error_message error_message test_name].
  destruct (_extract_error_from_failing_tests content (test_name o))
    as [e|] eqn:He.
  - apply extract_error_not_blank, not_blank_truthy in He.
    cbn [truthy_opt]. rewrite He. reflexivity.
  - reflexivity.
Qed.

(** X11. [_enrich_with_failure_details] keeps the number, the
    order, the names, the statuses and the stack traces of the outcomes
    and leaves alone every outcome that has not the status FAIL or has
    an error message already; enriching a second time from the same
    file changes nothing more; when the file cannot be read the
    outcomes come back as they were. *)
Theorem enrich_idempotent outs (file : path) w :
  let outs' := _enrich_with_failure_details read_text outs file w in
  _enrich_with_failure_details read_text outs' file w = outs'
  /\ map (@test_name pyfloat) outs' = map (@test_name pyfloat) outs
  /\ map (@status pyfloat) outs' = map (@status pyfloat) outs
  /\ map (@stack_trace pyfloat) outs' = map (@stack_trace pyfloat) outs
  /\ Forall2 (fun o o' =>
                is_fail o = false \/ truthy_opt (error_message o) = true ->
                o' = o) outs outs'
  /\ (read_text file w = Fault -> outs' = outs).
Proof.
  unfold _enrich_with_failure_details.
  destruct (read_text file w) as [content|].
  - split; [|split; [|split; [|split; [|split; [|discriminate]]]]].
    + rewrite map_map. apply map_ext. intros o.
      apply enrich_output_idempotent.
    + rewrite map_map. apply map_ext. intros o. unfold enrich_output.
      destruct (is_fail o); [|reflexivity].
      now destruct (negb (truthy_opt (error_message o))).
    + rewrite map_map. apply map_ext. intros o. unfold enrich_output.
      destruct (is_fail o); [|reflexivity].
      now destruct (negb (truthy_opt (error_message o))).
    + rewrite map_map. apply map_ext. intros o. unfold enrich_output.
      destruct (is_fail o); [|reflexivity].
      now destruct (negb (truthy_opt (error_message o))).
    + induction outs as [|o outs IH]; cbn [map]; constructor; [|exact IH].
      unfold enrich_output. intros [H | H]; rewrite H; [reflexivity|].
      now destruct (is_fail o).
  - repeat split.
    induction outs as [|o outs IH]; constructor; [reflexivity | exact IH].
Qed.

Hypothesis readable :
  forall p w, path_exists p w = true -> read_text p w <> Fault.

Lemma run_single_test_ok (checkout_path : path) (t : str) w :
  fst (run (chars "cd " ++ path_str checkout_path
            ++ chars " && defects4j test -t " ++ t) w) <> Fault ->
  exists o w',
    _run_single_test float_zero path_str path_div run now path_exists
      read_text checkout_path t w = (Ok (Some o), w')
    /\ single_outcome t o.
Proof.
  intros Hrun. unfold _run_single_test.
  destruct (run _ w) as [[result|] w1]; [|now elim Hrun]. clear Hrun.
  unfold _parse_single_test_result. destruct (now w1) as [time w2].
  set (o := {| test_name := t;
               status := if contains (chars "Failing tests: 0")
                                     (stdout result)
                         then chars "PASS" else chars "FAIL";
               error_message := None; stack_trace := None;
               execution_time := float_zero; timestamp := time |}).
  assert (Ho : single_outcome t o).
  { repeat split; [|discriminate]. cbn.
    destruct (contains _ (stdout result)); [now left | now right]. }
  destruct (path_exists _ w2) eqn:He; [|now exists o, w2].
  pose proof (readable _ _ He) as Hr.
  destruct (read_text _ w2) as [content|]; [|now elim Hr].
  destruct (contains t content); [|now exists o, w2].
  cbn [error_message o truthy_opt negb].
  eexists _, w2. split; [reflexivity|].
  destruct Ho as (H1 & H2 & H3 & _).
  repeat split; try assumption.
  cbn [set_error_message error_message]. intros msg Hmsg.
  apply extract_error_not_blank in Hmsg. intros H0. now rewrite H0 in Hmsg.
Qed.

Lemma run_specific_tests_loop (checkout_path : path) (tests : list str) :
  (forall t w, In t tests ->
               fst (run (chars "cd " ++ path_str checkout_path
                         ++ chars " && defects4j test -t " ++ t) w)
               <> Fault) ->
  forall outs w,
    exists outs' w',
      fold_left
        (fun (st : outcome (list (TestOutput pyfloat)) * world) test =>
           match st with
           | (Ok outputs, w) =>
               match _run_single_test float_zero path_str path_div run now
                       path_exists read_text checkout_path test w with
               | (Ok (Some output), w) => (Ok (outputs ++ [output]), w)
               | (Ok None, w) => (Ok outputs, w)
               | (Fault, w) => (Fault, w)
               end
           | (Fault, w) => (Fault, w)
           end)
        tests (Ok outs, w)
      = (Ok (outs ++ outs'), w')
      /\ Forall2 single_outcome tests outs'.
Proof.
  induction tests as [|t tests IH]; intros Hruns outs w; cbn [fold_left].
  - exists [], w. rewrite app_nil_r. split; [reflexivity | constructor].
  - destruct (run_single_test_ok checkout_path t w (Hruns t w (or_introl eq_refl)))
      as (o & w1 & E & Ho).
    rewrite E.
    destruct (IH (fun t' w' H => Hruns t' w' (or_intror H)) (outs ++ [o]) w1)
      as (outs' & w' & E' & Hall).
    exists (o :: outs'), w'. rewrite E', <- app_assoc.
    split; [reflexivity | now constructor].
Qed.

Lemma enrich_output_single (content t : str) o :
  single_outcome t o -> single_outcome t (enrich_output content o).
Proof.
  intros (H1 & H2 & H3 & H4). unfold enrich_output.
  destruct (is_fail o); [|now repeat split].
  destruct (truthy_opt (error_message o)); cbn [negb]; [now repeat split|].
  repeat split; try assumption.
  cbn [set_error_message error_message]. intros msg Hmsg.
  apply extract_error_not_blank in Hmsg. intros H0. now rewrite H0 in Hmsg.
Qed.

Lemma enrich_outputs_single (content : str) (ts : list str) outs :
  Forall2 single_outcome ts outs ->
  Forall2 single_outcome ts (map (enrich_output content) outs).
Proof.
  induction 1 as [|t o ts os Ho _ IH]; cbn [map]; constructor;
    [now apply enrich_output_single | exact IH].
Qed.

(** X12. When the run of the tool for each of the tests returns and
    every file that exists can be read, [run_tests] given a non-empty
    list of tests returns, in either file, one outcome for each test in
    the order of the list; each outcome is named after its test, has
    status PASS or FAIL and no stack trace, and an error message that,
    when present, is not blank. *)
Theorem run_tests_one_per_test (checkout_path : path) (tests : list str) w :
  tests <> [] ->
  (forall t w, In t tests ->
               fst (run (chars "cd " ++ path_str checkout_path
                         ++ chars " && defects4j test -t " ++ t) w)
               <> Fault) ->
  (exists outs,
     fst (run_tests float_zero path_str path_div run now path_exists
            read_text checkout_path (Some tests) w) = Ok outs
     /\ Forall2 single_outcome tests outs)
  /\ (exists outs,
        fst (mining_run_tests float_zero path_str path_div run now
               path_exists read_text checkout_path (Some tests) w) = Ok outs
        /\ Forall2 single_outcome tests outs).
Proof.
  intros Hne Hruns. destruct tests as [|t tests]; [now elim Hne|].
  unfold mining_run_tests, run_tests, run_specific_tests.
  destruct (run_specific_tests_loop checkout_path (t :: tests) Hruns [] w)
    as (outs & w' & E & Hall).
  rewrite E. cbn [app fst]. split; [now exists outs|].
  destruct (path_exists _ w'); cbn [fst]; [|now exists outs].
  unfold _enrich_with_failure_details.
  destruct (read_text _ w') as [content|]; [|now exists outs].
  eexists. split; [reflexivity|].
  now apply enrich_outputs_single.
Qed.

End RunningTests.

Lemma run_tests_one_per_test_witness :
  (exists outs,
     fst (run_tests tt (fun p : str => p) Sample.path_div0 Sample.run0
            Sample.now0 Sample.exists0 Sample.read0 (chars "work/Lang_1_b")
            (Some [chars "org.Foo::testBar"; chars "org.Foo::testBaz"]) 0)
     = Ok outs
     /\ Forall2 single_outcome
          [chars "org.Foo::testBar"; chars "org.Foo::testBaz"] outs)
  /\ (exists outs,
        fst (mining_run_tests tt (fun p : str => p) Sample.path_div0
               Sample.run0 Sample.now0 Sample.exists0 Sample.read0
               (chars "work/Lang_1_b")
               (Some [chars "org.Foo::testBar"; chars "org.Foo::testBaz"]) 0)
        = Ok outs
        /\ Forall2 single_outcome
             [chars "org.Foo::testBar"; chars "org.Foo::testBaz"] outs).
Proof.
  apply (run_tests_one_per_test unit tt Sample.world0 str (fun p : str => p)
           Sample.path_div0 Sample.run0 Sample.now0 Sample.exists0
           Sample.read0).
  - intros p w _. discriminate.
  - discriminate.
  - intros t w [<- | [<- | []]]; discriminate.
Defined.

Lemma get_all_projects_names_witness :
  exists names,
    get_all_projects Sample.run0 0 = (Ok names, 1)
    /\ names = [chars "Lang"; chars "Math"].
Proof.
  destruct (get_all_projects_names Sample.world0 Sample.run0 0)
    as (names & E & _ & _ & H).
  exists names. split; [exact E|].
  apply (H [chars "Lang"; chars "Math"]).
  - reflexivity.
  - reflexivity.
  - repeat constructor; eexists _, _; split; reflexivity.
Defined.

(* ----------------------------------------------------------------- *)
(** ** The modified sources *)

(** On text with a well-formed block under [h] the search for the
    section finds the block, whole, as its group 1. *)
Lemma search_block (h pre : str) lines post text :
  well_formed_block h pre lines post text ->
  exists m,
    search (seqs [Lit h; Star space; ch NL; Group 1 indented_lines]) text
    = Some m
    /\ group1 m = Ok (render_block lines).
Proof.
  intros [-> Hfirst Hne Hlines Hpost].
  exists (MatchObj (0 + length pre)
            (MState (Some NL) post [(1, render_block lines)])).
  split; [|reflexivity].
  unfold search. rewrite search_at_skip.
  2:{ intros pre1 pre2 -> Hne2. cbn [seqs fold_right].
      rewrite rmatch_Seq. apply rmatch_Lit_fail. cbn [ms_rest].
      replace (NL :: render_block lines ++ post)
        with ([NL] ++ render_block lines ++ post) in * by reflexivity.
      eapply first_occurrence_no_earlier; [|assumption].
      rewrite <- !app_assoc in *. exact Hfirst. }
  apply search_at_hit.
  unfold space, ch. cbn [seqs fold_right].
  rewrite rmatch_Seq, rmatch_Lit_eq.
  destruct lines as [|l lines]; [now elim Hne|].
  inversion Hlines as [|? ? Hl Hlines']; subst.
  destruct (line_ok_dash _ Hl) as (indent & rest & Htext & Hindent).
  pose proof (line_ok_indented _ Hl) as (b & body & Hb & Hblank & Hbody).
  rewrite rmatch_Seq, rmatch_star_chr.
  unfold render_block, unlines. cbn [map concat].
  rewrite <- !app_assoc. cbn [app].
  set (tail := concat (map (fun l0 => l0 ++ [NL]) (map line_text lines))
               ++ post).
  assert (Hshape : line_text l ++ NL :: tail
                   = indent ++ "-"%char :: rest ++ NL :: tail)
    by (rewrite Htext, <- app_assoc; reflexivity).
  rewrite Hshape.
  change (NL :: indent ++ "-"%char :: rest ++ NL :: tail)
    with ((NL :: indent) ++ "-"%char :: rest ++ NL :: tail).
  rewrite backtrack_first.
  - cbn [app]. rewrite rmatch_Seq, rmatch_Chr_ok by apply Ascii.eqb_refl.
    rewrite <- Hshape.
    rewrite rmatch_Seq, rmatch_Group. unfold indented_lines.
    rewrite rmatch_Plus. rewrite Hb. cbn [app].
    rewrite rmatch_line; [|now right|assumption|assumption].
    cbn [rmatch ms_rest]. subst tail.
    apply (star_lines (ls := map line_text lines)).
    + clear -Hlines'. induction Hlines'; cbn; constructor;
        [now apply line_ok_indented | assumption].
    + now right.
    + assumption.
    + reflexivity.
    + cbn [rmatch]. f_equal. unfold set_cap. cbn [ms_prev ms_rest ms_caps].
      f_equal.
      * now destruct (map line_text lines).
      * f_equal. f_equal.
        fold (unlines (map line_text lines)).
        replace (b :: body ++ NL :: unlines (map line_text lines) ++ post)
          with ((b :: body ++ NL :: unlines (map line_text lines)) ++ post)
          by (cbn; now rewrite <- !app_assoc).
        apply consumed_app.
  - cbn [forallb]. rewrite (forallb_blank_space _ Hindent). reflexivity.
  - reflexivity.
  - intros a1 a2 Hsplit Ha1. rewrite rmatch_Seq.
    destruct a1 as [|c a1]; [now elim Ha1|].
    injection Hsplit as <- Hindent'. subst indent.
    rewrite forallb_app in Hindent. apply andb_prop in Hindent as [_ Ha2].
    destruct a2 as [|c2 a2]; cbn [app].
    + now apply rmatch_Chr_no.
    + apply rmatch_Chr_no. cbn in Ha2. apply andb_prop in Ha2 as [Hc2 _].
      now apply blank_not_NL.
Qed.

(** At the start of a line made of blanks, a dash, blanks and a text
    that begins with a character other than white space, the pattern
    [bullet_re] matches up to the end of the line with that text as
    group 1. *)
Lemma rmatch_bullet_line prev (indent sep : str) (c : ascii) (n s : str) :
  line_start prev -> forallb is_blank indent = true ->
  forallb is_blank sep = true -> is_space c = false -> one_line (c :: n) ->
  rmatch bullet_re
    (MState prev (indent ++ "-"%char :: sep ++ (c :: n) ++ NL :: s) []) Some
  = Some (MState (Some (last (c :: n) NL)) (NL :: s) [(1, c :: n)]).
Proof.
  intros Hp Hi Hs Hc Hone.
  unfold bullet_re, space, dot, ch. cbn [seqs fold_right].
  rewrite rmatch_Seq, rmatch_Bol_ok by now apply line_start_bol.
  rewrite rmatch_Seq, rmatch_star_chr.
  apply backtrack_greedy; [now apply forallb_blank_space | reflexivity |].
  rewrite rmatch_Seq, rmatch_Chr_ok by reflexivity.
  rewrite rmatch_Seq, rmatch_star_chr.
  apply backtrack_greedy; [now apply forallb_blank_space | exact Hc |].
  pose proof Hone as Hone'. unfold one_line in Hone'. cbn [forallb] in Hone'.
  apply andb_prop in Hone' as [Hc' Hn].
  rewrite rmatch_Seq, rmatch_Group, rmatch_Plus. cbn [app].
  rewrite rmatch_Chr_ok by exact Hc'.
  rewrite rmatch_star_chr.
  erewrite backtrack_greedy; [reflexivity | exact Hn | reflexivity |].
  rewrite rmatch_Seq, rmatch_Eol_ok by reflexivity.
  rewrite rmatch_Eps.
  unfold set_cap. cbn [ms_prev ms_rest ms_caps]. f_equal. f_equal.
  - exact (@prev_after_last c n None NL).
  - f_equal. f_equal.
    change (c :: n ++ NL :: s) with ((c :: n) ++ NL :: s).
    apply consumed_app.
Qed.

(** Every line of a well-formed block is such a line. *)
Lemma line_ok_bullet (l : block_line) :
  line_ok l ->
  exists indent sep c n,
    line_text l = indent ++ "-"%char :: sep ++ c :: n
    /\ bullet_text l = c :: n
    /\ forallb is_blank indent = true /\ forallb is_blank sep = true
    /\ is_space c = false /\ one_line (c :: n).
Proof.
  destruct l as [indent sep name | indent detail]; cbn [line_ok].
  - intros ([_ Hi] & [_ Hs] & Hone & _ & c & n & -> & Hc).
    now exists indent, sep, c, n.
  - intros ([_ Hi] & Hd).
    exists indent, [], "-"%char, (">"%char :: detail).
    repeat split; try assumption; try reflexivity.
Qed.

Lemma findall_bullets (lines : list block_line) :
  forall fuel prev,
    Forall line_ok lines -> line_start prev -> length lines < fuel ->
    findall_loop fuel bullet_re prev (render_block lines)
    = map bullet_text lines.
Proof.
  induction lines as [|l lines IH]; intros fuel prev Hok Hp Hfuel.
  - apply findall_end. destruct Hp as [-> | ->]; reflexivity.
  - inversion Hok as [|? ? Hl Hok']; subst.
    unfold render_block, unlines. cbn [map concat].
    fold (unlines (map line_text lines)). fold (render_block lines).
    destruct (line_ok_bullet l Hl)
      as (indent & sep & c & n & -> & -> & Hi & Hs & Hc & Hone).
    destruct fuel as [|fuel]; [lia|].
    cbn [findall_loop].
    assert (Hshape : ((indent ++ "-"%char :: sep ++ c :: n) ++ [NL])
                       ++ render_block lines
                     = indent ++ "-"%char :: sep ++ (c :: n)
                         ++ NL :: render_block lines)
      by (rewrite <- !app_assoc; cbn [app]; now rewrite <- !app_assoc).
    rewrite Hshape.
    erewrite search_at_hit by (apply rmatch_bullet_line; assumption).
    cbn [m_final m_start group ms_caps lookup_cap Nat.eqb skipn ms_rest
         ms_prev].
    match goal with
    | |- context [?a <? ?b] =>
        replace (a <? b) with true
          by (symmetry; apply Nat.ltb_lt; rewrite !length_app;
              cbn [length]; rewrite !length_app; cbn [length]; lia)
    end.
    f_equal.
    unfold bullet_re. cbn [seqs fold_right].
    rewrite findall_skip
      by (apply rmatch_mid_line; apply (one_line_last Hone)).
    apply IH; [assumption | now right | cbn in Hfuel; lia].
Qed.

Lemma parse_modified_classes (tests_bullet : regex)
      (pre : str) lines (post text : str) :
  well_formed_block sources_header pre lines post text ->
  exists i, parse_bug_info_with tests_bullet text = Ok i
            /\ info_modified_classes i = map bullet_text lines.
Proof.
  intros Hwf. unfold parse_bug_info_with.
  destruct (search_block _ _ _ _ _ Hwf) as (m & Hm & Hg).
  fold sources_re in Hm. rewrite Hm, Hg.
  assert (Ht : exists tests,
             match search tests_re text with
             | Some tests_match =>
                 block <- group1 tests_match ;; Ok (findall tests_bullet block)
             | None => Ok []
             end = Ok tests).
  { destruct (search tests_re text) as [m'|] eqn:Hs; [|now exists []].
    destruct (block_group_present _ _ Hs) as [w Hw]. rewrite Hw.
    now eexists. }
  assert (Hu : exists url,
             match search url_re text with
             | Some url_match => group1 url_match
             | None => Ok []
             end = Ok url).
  { destruct (search url_re text) as [m'|] eqn:Hs; [|now exists []].
    destruct (url_group_present _ Hs) as [w Hw]. rewrite Hw. now eexists. }
  destruct Ht as (tests & ->), Hu as (url & ->).
  eexists. split; [reflexivity|]. cbn [bind info_modified_classes].
  unfold findall. apply findall_bullets.
  - exact (wfb_lines Hwf).
  - now left.
  - pose proof (render_block_length lines). lia.
Qed.

(** X2. On tool-info text with a well-formed block
    under the header of the modified sources, either copy of the parser
    returns as modified classes the text after the dash of every line
    of the block, in the order of the lines. *)
Theorem modified_classes_in_order (pre : str) lines (post text : str) :
  well_formed_block sources_header pre lines post text ->
  (exists i, DefectsManager._parse_bug_info text = Ok i
             /\ info_modified_classes i = map bullet_text lines)
  /\ (exists i, MiningBuggyCodeLogs._parse_bug_info text = Ok i
                /\ info_modified_classes i = map bullet_text lines).
Proof.
  intros Hwf. split; now apply (parse_modified_classes _ pre lines post).
Qed.

Lemma modified_classes_in_order_witness :
  (exists i, DefectsManager._parse_bug_info Sample.info_text = Ok i
             /\ info_modified_classes i = [chars "org.Foo"])
  /\ (exists i, MiningBuggyCodeLogs._parse_bug_info Sample.info_text = Ok i
                /\ info_modified_classes i = [chars "org.Foo"]).
Proof.
  apply (modified_classes_in_order Sample.sources_pre Sample.sources_lines
           Sample.sources_post Sample.info_text).
  split.
  - vm_compute. reflexivity.
  - apply (first_occurrence_scan sources_header Sample.sources_pre
             (NL :: render_block Sample.sources_lines ++ Sample.sources_post)).
    vm_compute. reflexivity.
  - discriminate.
  - repeat constructor; try discriminate.
    eexists _, _. split; reflexivity.
  - reflexivity.
Defined.

(* ----------------------------------------------------------------- *)
(** ** The address of the bug report *)

(** Where the address stands: after the first header of the address and
    white space, which may go over line ends, on one line, beginning
    with a character other than white space and running up to the end
    of its line. *)
Lemma search_url (pre ws : str) (c : ascii) (u rest : str) :
  first_occurrence url_header pre
    (pre ++ url_header ++ ws ++ (c :: u) ++ rest) ->
  forallb is_space ws = true -> is_space c = false -> one_line (c :: u) ->
  stops not_newline rest ->
  exists m, search url_re (pre ++ url_header ++ ws ++ (c :: u) ++ rest)
            = Some m
            /\ group1 m = Ok (c :: u).
Proof.
  intros Hfirst Hws Hc Hone Hrest.
  exists (MatchObj (0 + length pre)
            (MState (Some (last (c :: u) NL)) rest [(1, c :: u)])).
  split; [|reflexivity].
  unfold search. rewrite search_at_skip.
  2:{ intros pre1 pre2 -> Hne2. unfold url_re. cbn [seqs fold_right].
      rewrite rmatch_Seq. apply rmatch_Lit_fail. cbn [ms_rest].
      eapply first_occurrence_no_earlier; [|assumption].
      rewrite <- !app_assoc in *. exact Hfirst. }
  apply search_at_hit.
  unfold url_re, space, dot. cbn [seqs fold_right].
  rewrite rmatch_Seq, rmatch_Lit_eq.
  rewrite rmatch_Seq, rmatch_star_chr.
  apply backtrack_greedy; [exact Hws | exact Hc |].
  pose proof Hone as Hone'. unfold one_line in Hone'. cbn [forallb] in Hone'.
  apply andb_prop in Hone' as [Hc' Hu].
  rewrite rmatch_Seq, rmatch_Group, rmatch_Plus. cbn [app].
  rewrite rmatch_Chr_ok by exact Hc'.
  rewrite rmatch_star_chr.
  erewrite backtrack_greedy; [reflexivity | exact Hu | exact Hrest |].
  rewrite rmatch_Eps.
  unfold set_cap. cbn [ms_prev ms_rest ms_caps]. f_equal. f_equal.
  - exact (@prev_after_last c u None NL).
  - f_equal. f_equal.
    change (c :: u ++ rest) with ((c :: u) ++ rest).
    apply consumed_app.
Qed.

Lemma parse_bug_report_url (tests_bullet : regex)
      (pre ws : str) (c : ascii) (u rest : str) :
  first_occurrence url_header pre
    (pre ++ url_header ++ ws ++ (c :: u) ++ rest) ->
  forallb is_space ws = true -> is_space c = false -> one_line (c :: u) ->
  stops not_newline rest ->
  exists i, parse_bug_info_with tests_bullet
              (pre ++ url_header ++ ws ++ (c :: u) ++ rest) = Ok i
            /\ info_bug_report_url i = c :: u.
Proof.
  intros Hfirst Hws Hc Hone Hrest. unfold parse_bug_info_with.
  destruct (search_url pre ws c u rest Hfirst Hws Hc Hone Hrest)
    as (m & Hm & Hg).
  rewrite Hm, Hg.
  set (text := pre ++ url_header ++ ws ++ (c :: u) ++ rest).
  assert (Ht : exists tests,
             match search tests_re text with
             | Some tests_match =>
                 block <- group1 tests_match ;; Ok (findall tests_bullet block)
             | None => Ok []
             end = Ok tests).
  { destruct (search tests_re text) as [m'|] eqn:Hs; [|now exists []].
    destruct (block_group_present _ _ Hs) as [w Hw]. rewrite Hw.
    now eexists. }
  assert (Hsrc : exists sources,
             match search sources_re text with
             | Some sources_match =>
                 sources_block <- group1 sources_match ;;
                 Ok (findall bullet_re sources_block)
             | None => Ok []
             end = Ok sources).
  { destruct (search sources_re text) as [m'|] eqn:Hs; [|now exists []].
    destruct (block_group_present _ _ Hs) as [w Hw]. rewrite Hw.
    now eexists. }
  destruct Ht as (tests & ->), Hsrc as (sources & ->).
  eexists. split; reflexivity.
Qed.

(** X3. When the first header of the address of the bug
    report is followed by white space, which may go over line ends, and
    then by a text that begins with a character other than white space,
    either copy of the parser returns as address that text up to the end
    of its line. *)
Theorem bug_report_url_line (pre ws : str) (c : ascii) (u rest : str) :
  first_occurrence url_header pre
    (pre ++ url_header ++ ws ++ (c :: u) ++ rest) ->
  forallb is_space ws = true -> is_space c = false -> one_line (c :: u) ->
  stops not_newline rest ->
  (exists i, DefectsManager._parse_bug_info
               (pre ++ url_header ++ ws ++ (c :: u) ++ rest) = Ok i
             /\ info_bug_report_url i = c :: u)
  /\ (exists i, MiningBuggyCodeLogs._parse_bug_info
                  (pre ++ url_header ++ ws ++ (c :: u) ++ rest) = Ok i
                /\ info_bug_report_url i = c :: u).
Proof.
  intros Hfirst Hws Hc Hone Hrest.
  split; now apply parse_bug_report_url.
Qed.

Lemma bug_report_url_line_witness :
  (exists i, DefectsManager._parse_bug_info Sample.url_text = Ok i
             /\ info_bug_report_url i
                = chars "https://issues.example.org/LANG-1")
  /\ (exists i, MiningBuggyCodeLogs._parse_bug_info Sample.url_text = Ok i
                /\ info_bug_report_url i
                   = chars "https://issues.example.org/LANG-1").
Proof.
  apply (bug_report_url_line
           (chars "Summary for Bug: Lang-1" ++ [NL]) [NL] "h"%char
           (chars "ttps://issues.example.org/LANG-1")
           (NL :: chars "--------" ++ [NL])).
  - apply (first_occurrence_scan url_header
             (chars "Summary for Bug: Lang-1" ++ [NL])).
    vm_compute. reflexivity.
  - reflexivity.
  - reflexivity.
  - reflexivity.
  - reflexivity.
Defined.

(* ----------------------------------------------------------------- *)
(** ** The characters of the exported lines *)

Lemma escape_char_printable (c : ascii) :
  forallb printable (escape_char c) = true.
Proof.
  destruct c as [b0 b1 b2 b3 b4 b5 b6 b7].
  destruct b0, b1, b2, b3, b4, b5, b6, b7; reflexivity.
Qed.

Lemma encode_str_printable (s : str) : forallb printable (encode_str s) = true.
Proof.
  unfold encode_str. cbn [forallb].
  change (printable DQ) with true. cbn [andb].
  rewrite forallb_app. cbn [forallb].
  change (printable DQ) with true. rewrite andb_true_r.
  induction s as [|c s IH]; [reflexivity|].
  cbn [flat_map]. now rewrite forallb_app, escape_char_printable, IH.
Qed.

Lemma int_char_printable (c : ascii) :
  is_int_char c = true -> printable c = true.
Proof.
  destruct c as [b0 b1 b2 b3 b4 b5 b6 b7].
  destruct b0, b1, b2, b3, b4, b5, b6, b7; (reflexivity || discriminate).
Qed.

Lemma digit_printable (c : ascii) : is_digit c = true -> printable c = true.
Proof.
  intros H. apply int_char_printable. unfold is_int_char. now rewrite H.
Qed.

Lemma str_of_int_printable (z : Z) : forallb printable (str_of_int z) = true.
Proof.
  destruct (str_of_int_shape z) as (c & w & -> & Hc & Hw).
  cbn [forallb]. rewrite (int_char_printable c Hc). cbn [andb].
  apply forallb_forall. intros x Hx. apply digit_printable.
  now apply (proj1 (forallb_forall _ _) Hw).
Qed.

Lemma join_printable (sep : str) (parts : list str) :
  forallb printable sep = true ->
  Forall (fun p => forallb printable p = true) parts ->
  forallb printable (join sep parts) = true.
Proof.
  intros Hsep. induction 1 as [|p ps Hp _ IH]; [reflexivity|].
  destruct ps as [|q ps]; [exact Hp|].
  rewrite join_cons_cons, !forallb_app, Hp, Hsep. exact IH.
Qed.

Section Printable.

Variable pyfloat : Type.
Variable float_repr : pyfloat -> str.
Hypothesis float_printable :
  forall x, forallb printable (float_repr x) = true.

Lemma dumps_printable (v : pyval pyfloat) :
  forallb printable (dumps float_repr v) = true.
Proof.
  induction v as [|s|z|x|l IH|d IH] using pyval_induction; cbn [dumps].
  - reflexivity.
  - apply encode_str_printable.
  - apply str_of_int_printable.
  - apply float_printable.
  - cbn [forallb]. change (printable "[") with true. cbn [andb].
    rewrite forallb_app. cbn [forallb]. change (printable "]") with true.
    rewrite andb_true_r.
    apply join_printable; [reflexivity|].
    induction IH; cbn [map]; constructor; assumption.
  - cbn [forallb]. change (printable "{") with true. cbn [andb].
    rewrite forallb_app. cbn [forallb]. change (printable "}") with true.
    rewrite andb_true_r.
    apply join_printable; [reflexivity|].
    induction IH as [|[k v] d Hv _ IHd]; cbn [map]; constructor;
      [|assumption].
    rewrite !forallb_app, encode_str_printable. cbn [snd] in Hv.
    now rewrite Hv.
Qed.

(** X16. When the text of a float is made of printable
    ASCII characters, so is every line [export_to_jsonl] writes: the
    file holds printable ASCII characters and newlines only, whatever
    characters the names, messages and stack traces of the sessions
    hold. *)
Theorem export_to_jsonl_ascii (sessions : list (SyntheticDebugSession pyfloat)) :
  forallb (fun c => printable c || Ascii.eqb c NL)
          (export_to_jsonl float_repr sessions) = true.
Proof.
  rewrite export_to_jsonl_unlines. unfold unlines.
  induction sessions as [|s sessions IH]; [reflexivity|].
  cbn [map concat]. rewrite !forallb_app, IH, andb_true_r.
  apply andb_true_intro. split; [|reflexivity].
  apply forallb_forall. intros c Hc.
  pose proof (dumps_printable (jsonl_entry s)) as H.
  rewrite forallb_forall in H. now rewrite (H c Hc).
Qed.

End Printable.

Lemma export_to_jsonl_ascii_witness :
  forallb (fun c => printable c || Ascii.eqb c NL)
          (export_to_jsonl Sample.float0_repr Sample.sessions) = true.
Proof.
  apply (export_to_jsonl_ascii Sample.float0 Sample.float0_repr).
  intros []. reflexivity.
Defined.

(* ----------------------------------------------------------------- *)
(** ** The JSON file written and read back *)

Lemma skip_ws_app (ws : str) (c : ascii) (s : str) :
  forallb is_json_ws ws = true -> is_json_ws c = false ->
  skip_ws (ws ++ c :: s) = c :: s.
Proof.
  intros Hws Hc. unfold skip_ws.
  induction ws as [|x ws IH]; cbn [app lstrip_by].
  - now rewrite Hc.
  - cbn [forallb] in Hws. apply andb_prop in Hws as [Hx Hws].
    rewrite Hx. now apply IH.
Qed.

Lemma newline_indent_ws (level : nat) :
  forallb is_json_ws (newline_indent level) = true.
Proof.
  unfold newline_indent. cbn [forallb]. change (is_json_ws NL) with true.
  cbn [andb]. induction (2 * level) as [|n IH]; [reflexivity|].
  cbn [repeat forallb]. now rewrite IH.
Qed.

Lemma delimited_ws (ws : str) (c : ascii) (s : str) :
  forallb is_json_ws ws = true -> is_num_char c = false ->
  delimited (ws ++ c :: s).
Proof.
  intros Hws Hc. destruct ws as [|x ws]; [exact Hc|].
  cbn [forallb] in Hws. apply andb_prop in Hws as [Hx _].
  unfold delimited. cbn [app stops].
  destruct x as [b0 b1 b2 b3 b4 b5 b6 b7].
  destruct b0, b1, b2, b3, b4, b5, b6, b7; (reflexivity || discriminate).
Qed.

Section RoundTripIndent.

Variable pyfloat : Type.
Variable float_repr : pyfloat -> str.
Variable float_of_str : str -> option pyfloat.
Hypothesis float_ok : float_text_ok float_repr float_of_str.

Local Abbreviation dumpi := (dumps_indent float_repr).
Local Abbreviation memberi := (member_indent float_repr).
Local Abbreviation reads := (reads_back_indent float_repr float_of_str).

Lemma dumps_indent_list (level : nat) (v : pyval pyfloat)
      (l : list (pyval pyfloat)) :
  dumpi level (PList (v :: l))
  = "["%char :: newline_indent (S level)
    ++ join (","%char :: newline_indent (S level))
         (map (dumpi (S level)) (v :: l))
    ++ newline_indent level ++ ["]"%char].
Proof. reflexivity. Qed.

Lemma dumps_indent_dict (level : nat) (kv : str * pyval pyfloat)
      (d : list (str * pyval pyfloat)) :
  dumpi level (PDict (kv :: d))
  = "{"%char :: newline_indent (S level)
    ++ join (","%char :: newline_indent (S level))
         (map (memberi (S level)) (kv :: d))
    ++ newline_indent level ++ ["}"%char].
Proof. reflexivity. Qed.

Lemma dumps_indent_head (level : nat) (v : pyval pyfloat) :
  exists c w, dumpi level v = c :: w /\ begins_value c.
Proof.
  destruct v as [|s|z|x|l|d].
  - exists "n"%char, (chars "ull"). now repeat split.
  - exists DQ, (flat_map escape_char s ++ [DQ]). now repeat split.
  - destruct (str_of_int_shape z) as (c & w & E & Hc & _).
    exists c, w. split; [exact E|].
    destruct (num_start_other c (proj2 (int_char_num c Hc)))
      as (H1 & _ & _ & _ & H2 & H3 & _). now repeat split.
  - destruct (float_ok x) as (_ & _ & _ & c & w & E & Hc).
    exists c, w. split; [exact E|].
    destruct (num_start_other c Hc) as (H1 & _ & _ & _ & H2 & H3 & _).
    now repeat split.
  - destruct l as [|v l].
    + exists "["%char, (chars "]"). now repeat split.
    + rewrite dumps_indent_list. eexists; eexists.
      split; [reflexivity | now repeat split].
  - destruct d as [|kv d].
    + exists "{"%char, (chars "}"). now repeat split.
    + rewrite dumps_indent_dict. eexists; eexists.
      split; [reflexivity | now repeat split].
Qed.

Lemma join_indent_head (level : nat) (v : pyval pyfloat)
      (l : list (pyval pyfloat)) :
  exists c w,
    join (","%char :: newline_indent level) (map (dumpi level) (v :: l))
    = c :: w
    /\ begins_value c.
Proof.
  destruct (dumps_indent_head level v) as (c & w & E & Hc).
  cbn [map]. destruct (map (dumpi level) l); cbn [join]; rewrite E;
    eexists; eexists; (split; [reflexivity | exact Hc]).
Qed.

Lemma parse_elems_indent (level : nat) (ws : str)
      (l : list (pyval pyfloat)) :
  Forall reads l -> l <> [] -> forallb is_json_ws ws = true ->
  forall fuel rest,
    length (join (","%char :: newline_indent level)
              (map (dumpi level) l)) < fuel ->
    parse_elems float_of_str fuel
      (join (","%char :: newline_indent level) (map (dumpi level) l)
         ++ ws ++ "]"%char :: rest)
    = Some (l, rest).
Proof.
  intros Hl. induction Hl as [|v l Hv Hl IH];
    intros Hne Hws fuel rest Hfuel; [now elim Hne|].
  destruct fuel as [|fuel]; [lia|].
  destruct l as [|v' l].
  - cbn [map join] in *. rewrite parse_elems_eq.
    rewrite Hv by (lia || now apply delimited_ws).
    rewrite skip_ws_app by (assumption || reflexivity). reflexivity.
  - cbn [map] in *. rewrite join_cons_cons in *.
    rewrite !length_app in Hfuel. cbn [length] in Hfuel.
    rewrite parse_elems_eq. rewrite <- !app_assoc.
    cbn [app]. rewrite Hv by (lia || reflexivity).
    rewrite skip_ws_head by reflexivity.
    change (Ascii.eqb "," ",") with true. cbn iota.
    destruct (join_indent_head level v' l) as (c & w & E & Hc & _).
    rewrite <- ?app_assoc. cbn [map] in E. rewrite E. cbn [app].
    rewrite skip_ws_app by (apply newline_indent_ws || exact Hc).
    change (c :: w ++ ws ++ "]"%char :: rest)
      with ((c :: w) ++ ws ++ "]"%char :: rest).
    rewrite <- E. rewrite IH by (discriminate || assumption || lia).
    reflexivity.
Qed.

Lemma member_indent_head (level : nat) (kv : str * pyval pyfloat)
      (d : list (str * pyval pyfloat)) :
  exists w,
    join (","%char :: newline_indent level) (map (memberi level) (kv :: d))
    = DQ :: w.
Proof.
  destruct kv as [k v]. cbn [map].
  destruct (map (memberi level) d); cbn [join];
    unfold member_indent, encode_str; eexists; reflexivity.
Qed.

Lemma parse_members_indent (level : nat) (ws : str)
      (d : list (str * pyval pyfloat)) :
  Forall (fun kv => reads (snd kv)) d -> d <> [] ->
  forallb is_json_ws ws = true ->
  forall fuel rest,
    length (join (","%char :: newline_indent level)
              (map (memberi level) d)) < fuel ->
    parse_members float_of_str fuel
      (join (","%char :: newline_indent level) (map (memberi level) d)
         ++ ws ++ "}"%char :: rest)
    = Some (d, rest).
Proof.
  intros Hd. induction Hd as [|[k v] d Hv Hd IH];
    intros Hne Hws fuel rest Hfuel; [now elim Hne|].
  destruct fuel as [|fuel]; [lia|].
  cbn [snd] in Hv.
  assert (Hmember : forall tail,
             parse_members float_of_str (S fuel)
               (memberi level (k, v) ++ tail)
             = match parse_value float_of_str fuel
                       (dumpi level v ++ tail) with
               | Some (v0, rest') =>
                   match skip_ws rest' with
                   | c2 :: s3 =>
                       if Ascii.eqb c2 ","%char then
                         match parse_members float_of_str fuel (skip_ws s3)
                         with
                         | Some (d0, rest'') => Some ((k, v0) :: d0, rest'')
                         | None => None
                         end
                       else if Ascii.eqb c2 "}"%char
                            then Some ([(k, v0)], s3)
                            else None
                   | [] => None
                   end
               | None => None
               end).
  { intros tail. unfold member_indent, encode_str.
    cbn [app]. rewrite parse_members_eq.
    rewrite <- !app_assoc. cbn [app].
    rewrite parse_chars_encode.
    change (chars ": " ++ dumpi level v ++ tail)
      with (":"%char :: " "%char :: dumpi level v ++ tail).
    rewrite skip_ws_head by reflexivity.
    change (Ascii.eqb ":" ":") with true. cbn iota.
    destruct (dumps_indent_head level v) as (c & w & E & Hc & _).
    rewrite E. cbn [app]. rewrite skip_ws_space by exact Hc.
    reflexivity. }
  assert (Hlen : length (dumpi level v) <= length (memberi level (k, v)))
    by (unfold member_indent; rewrite !length_app; lia).
  destruct d as [|kv' d].
  - cbn [map join] in *. rewrite Hmember.
    rewrite Hv by (lia || now apply delimited_ws).
    rewrite skip_ws_app by (assumption || reflexivity). reflexivity.
  - cbn [map] in *. rewrite join_cons_cons in *.
    rewrite !length_app in Hfuel. cbn [length] in Hfuel.
    rewrite <- !app_assoc. rewrite Hmember.
    cbn [app]. rewrite Hv by (lia || reflexivity).
    rewrite skip_ws_head by reflexivity.
    change (Ascii.eqb "," ",") with true. cbn iota.
    destruct (member_indent_head level kv' d) as (w & E).
    rewrite <- ?app_assoc. cbn [map] in E. rewrite E. cbn [app].
    rewrite skip_ws_app by (apply newline_indent_ws || reflexivity).
    change (DQ :: w ++ ws ++ "}"%char :: rest)
      with ((DQ :: w) ++ ws ++ "}"%char :: rest).
    rewrite <- E. rewrite IH by (discriminate || assumption || lia).
    reflexivity.
Qed.

(** Every value reads back from its indented text. *)
Lemma all_read_back_indent (v : pyval pyfloat) : reads v.
Proof.
  induction v as [|s|z|x|l IH|d IH] using pyval_induction;
    intros level fuel rest Hfuel Hrest.
  - destruct fuel as [|fuel]; [cbn in Hfuel; lia | reflexivity].
  - destruct fuel as [|fuel]; [cbn in Hfuel; lia|].
    cbn [dumps_indent encode_str app]. rewrite parse_value_string.
    rewrite <- app_assoc. cbn [app]. now rewrite parse_chars_encode.
  - cbn [dumps_indent] in *.
    destruct (str_of_int_shape z) as (c & w & E & Hc & _).
    destruct fuel as [|fuel]; [rewrite E in Hfuel; cbn in Hfuel; lia|].
    rewrite <- (parse_number_int pyfloat float_of_str) by exact Hrest.
    rewrite E. cbn [app]. apply parse_value_number.
    apply (int_char_num c Hc).
  - cbn [dumps_indent] in *.
    destruct (float_ok x) as (_ & _ & _ & c & w & E & Hc).
    destruct fuel as [|fuel]; [rewrite E in Hfuel; cbn in Hfuel; lia|].
    rewrite <- (parse_number_float pyfloat float_repr float_of_str float_ok)
      by exact Hrest.
    rewrite E. cbn [app]. now apply parse_value_number.
  - destruct l as [|v l].
    { destruct fuel as [|fuel]; [cbn in Hfuel; lia | reflexivity]. }
    rewrite dumps_indent_list in *.
    destruct fuel as [|fuel]; [cbn in Hfuel; lia|].
    cbn [length] in Hfuel. rewrite !length_app in Hfuel.
    cbn [length] in Hfuel.
    cbn [app]. rewrite parse_value_array.
    destruct (join_indent_head (S level) v l) as (c & w & E & Hws & Hc & _).
    rewrite <- ?app_assoc. rewrite E. cbn [app].
    rewrite skip_ws_app by (apply newline_indent_ws || exact Hws).
    rewrite Hc.
    change (c :: w ++ newline_indent level ++ "]"%char :: rest)
      with ((c :: w) ++ newline_indent level ++ "]"%char :: rest).
    rewrite <- E.
    rewrite (parse_elems_indent (S level) (newline_indent level) (v :: l) IH)
      by (discriminate || apply newline_indent_ws || lia).
    reflexivity.
  - destruct d as [|kv d].
    { destruct fuel as [|fuel]; [cbn in Hfuel; lia | reflexivity]. }
    rewrite dumps_indent_dict in *.
    destruct fuel as [|fuel]; [cbn in Hfuel; lia|].
    cbn [length] in Hfuel. rewrite !length_app in Hfuel.
    cbn [length] in Hfuel.
    cbn [app]. rewrite parse_value_object.
    destruct (member_indent_head (S level) kv d) as (w & E).
    rewrite <- ?app_assoc. rewrite E. cbn [app].
    rewrite skip_ws_app by (apply newline_indent_ws || reflexivity).
    change (Ascii.eqb DQ "}") with false. cbn iota.
    change (DQ :: w ++ newline_indent level ++ "}"%char :: rest)
      with ((DQ :: w) ++ newline_indent level ++ "}"%char :: rest).
    rewrite <- E.
    rewrite (parse_members_indent (S level) (newline_indent level)
               (kv :: d) IH)
      by (discriminate || apply newline_indent_ws || lia).
    reflexivity.
Qed.

End RoundTripIndent.

Section JsonFile.

Variable pyfloat : Type.
Variable float_repr : pyfloat -> str.
Variable float_of_str : str -> option pyfloat.
Variable datetime_str : datetime -> str.
Hypothesis float_ok : float_text_ok float_repr float_of_str.

Lemma loads_dumps_indent (v : pyval pyfloat) :
  loads float_of_str (dumps_indent float_repr 0 v) = Some v.
Proof.
  unfold loads.
  destruct (dumps_indent_head pyfloat float_repr float_of_str float_ok 0 v)
    as (c & w & E & Hws & _).
  rewrite E at 2. rewrite skip_ws_head by exact Hws. rewrite <- E.
  rewrite <- (app_nil_r (dumps_indent float_repr 0 v)) at 2.
  rewrite (all_read_back_indent pyfloat float_repr float_of_str float_ok v)
    by (lia || exact I).
  reflexivity.
Qed.

Lemma export_to_json_data (sessions : list (SyntheticDebugSession pyfloat)) :
  export_to_json float_repr datetime_str sessions
  = dumps_indent float_repr 0
      (PList (map (json_entry datetime_str) sessions)).
Proof.
  unfold export_to_json. f_equal. f_equal.
  assert (H : forall acc,
             fold_left (fun data session =>
                          data ++ [json_entry datetime_str session])
                       sessions acc
             = acc ++ map (json_entry datetime_str) sessions).
  { induction sessions as [|s sessions IH]; intros acc.
    - cbn. now rewrite app_nil_r.
    - cbn [fold_left map]. rewrite IH, <- app_assoc. reflexivity. }
  apply (H []).
Qed.

(** X17. The JSON file [export_to_json] writes for N sessions
    reads back as a list of N records, one per session in the order of
    the list, each the record of its session with the seven fields
    bug_id, project, bug_info, logs, timeline, root_cause and
    test_failures; for no session the file is an empty list. *)
Theorem json_round_trip (sessions : list (SyntheticDebugSession pyfloat)) :
  let content := export_to_json float_repr datetime_str sessions in
  loads float_of_str content
  = Some (PList (map (json_entry datetime_str) sessions))
  /\ Forall (fun s => keys_of (json_entry datetime_str s)
                      = Some [ chars "bug_id"; chars "project";
                               chars "bug_info"; chars "logs";
                               chars "timeline"; chars "root_cause";
                               chars "test_failures" ])
            sessions
  /\ (sessions = [] <-> content = chars "[]").
Proof.
  intros content. subst content. rewrite export_to_json_data.
  split; [apply loads_dumps_indent|].
  split; [apply Forall_forall; intros s _; reflexivity|].
  split.
  - intros ->. reflexivity.
  - destruct sessions as [|s sessions]; [reflexivity|].
    cbn [map]. rewrite dumps_indent_list. discriminate.
Qed.

End JsonFile.

Lemma json_round_trip_witness :
  loads Sample.float0_of_str
    (export_to_json Sample.float0_repr Sample.iso Sample.sessions)
  = Some (PList (map (json_entry Sample.iso) Sample.sessions)).
Proof.
  apply (json_round_trip Sample.float0 Sample.float0_repr
           Sample.float0_of_str Sample.iso sample_float_ok Sample.sessions).
Defined.

(* ----------------------------------------------------------------- *)
(** ** The bug record of a bug *)

Lemma get_bug_info_with_record (world : Type)
      (run : str -> world -> outcome CompletedProcess * world)
      (tests_bullet : regex) (name id : str) (w : world) :
  match run (chars "defects4j info -p " ++ name ++ chars " -b " ++ id) w with
  | (Ok result, w') =>
      let out := stdout result in
      exists bug,
        get_bug_info_with run (parse_bug_info_with tests_bullet) name id w
        = (Ok bug, w')
        /\ project bug = name /\ bug_id bug = id
        /\ patch bug = [] /\ checkout_path bug = None
        /\ (occurs tests_header out \/ triggering_tests bug = [])
        /\ (occurs url_header out \/ bug_report_url bug = [])
        /\ (occurs sources_header out \/ modified_classes bug = [])
  | (Fault, w') =>
      get_bug_info_with run (parse_bug_info_with tests_bullet) name id w
      = (Fault, w')
  end.
Proof.
  unfold get_bug_info_with.
  destruct (run _ w) as [[result|] w']; [|reflexivity]. cbv zeta.
  destruct (parse_bug_info_with_total tests_bullet (stdout result))
    as (i & -> & Ht & Hu & Hs & Hp).
  exists (bug_of_info name id i). cbn [bind].
  split; [reflexivity|]. split; [reflexivity|]. split; [reflexivity|].
  split; [exact Hp|]. split; [reflexivity|].
  cbn [bug_of_info triggering_tests bug_report_url modified_classes].
  split; [|split].
  - destruct (contains tests_header (stdout result)) eqn:E.
    + left. now apply contains_iff.
    + right. apply Ht. now apply contains_false_iff.
  - destruct (contains url_header (stdout result)) eqn:E.
    + left. now apply contains_iff.
    + right. apply Hu. now apply contains_false_iff.
  - destruct (contains sources_header (stdout result)) eqn:E.
    + left. now apply contains_iff.
    + right. apply Hs. now apply contains_false_iff.
Qed.

(** X5. [get_bug_info] of either file raises when the run of the tool
    raises, as it does on output that does not decode, and only then:
    when the run returns, whatever the text of its output,
    [get_bug_info] returns a bug record with the project and the bug id
    it was given, an empty patch and no checkout path; a section whose
    header the output does not hold leaves its field empty. *)
Theorem get_bug_info_record (world : Type)
        (run : str -> world -> outcome CompletedProcess * world)
        (name id : str) (w : world) :
  match run (chars "defects4j info -p " ++ name ++ chars " -b " ++ id) w with
  | (Ok result, w') =>
      let out := stdout result in
      let found (bug : Defects4JBug) :=
        project bug = name /\ bug_id bug = id
        /\ patch bug = [] /\ checkout_path bug = None
        /\ (occurs tests_header out \/ triggering_tests bug = [])
        /\ (occurs url_header out \/ bug_report_url bug = [])
        /\ (occurs sources_header out \/ modified_classes bug = []) in
      (exists bug, get_bug_info run name id w = (Ok bug, w') /\ found bug)
      /\ (exists bug, mining_get_bug_info run name id w = (Ok bug, w')
                      /\ found bug)
  | (Fault, w') =>
      get_bug_info run name id w = (Fault, w')
      /\ mining_get_bug_info run name id w = (Fault, w')
  end.
Proof.
  pose proof (get_bug_info_with_record world run test_bullet_re name id w)
    as H1.
  pose proof (get_bug_info_with_record world run bullet_re name id w) as H2.
  destruct (run _ w) as [[result|] w']; split; assumption.
Qed.

(* ----------------------------------------------------------------- *)
(** ** The triggering tests in mining_buggy_code_logs.py *)

(** X4. On well-formed tool-info text the parser of
    mining_buggy_code_logs.py returns as triggering tests the text after
    the dash of every line of the block, in the order of the lines: the
    identifier of a bulleted line and, for an exception-detail line,
    the detail with its arrow. *)
Theorem mining_triggering_tests (pre : str) (lines : list block_line)
        (post text : str) :
  well_formed_info pre lines post text ->
  exists i, MiningBuggyCodeLogs._parse_bug_info text = Ok i
            /\ info_triggering_tests i = map bullet_text lines.
Proof.
  intros Hwf.
  destruct (search_tests_block Hwf) as (m & Hm & Hg).
  unfold MiningBuggyCodeLogs._parse_bug_info, parse_bug_info_with.
  rewrite Hm, Hg. cbn [bind].
  assert (Hu : exists url,
             match search url_re text with
             | Some url_match => group1 url_match
             | None => Ok []
             end = Ok url).
  { destruct (search url_re text) as [m'|] eqn:Hs; [|now exists []].
    destruct (url_group_present _ Hs) as [w Hw]. rewrite Hw. now eexists. }
  assert (Hsrc : exists sources,
             match search sources_re text with
             | Some sources_match =>
                 sources_block <- group1 sources_match ;;
                 Ok (findall bullet_re sources_block)
             | None => Ok []
             end = Ok sources).
  { destruct (search sources_re text) as [m'|] eqn:Hs; [|now exists []].
    destruct (block_group_present _ _ Hs) as [w Hw]. rewrite Hw.
    now eexists. }
  destruct Hu as (url & ->), Hsrc as (sources & ->).
  eexists. split; [reflexivity|]. cbn [bind info_triggering_tests].
  unfold findall. apply findall_bullets.
  - exact (wf_lines Hwf).
  - now left.
  - pose proof (render_block_length lines). lia.
Qed.

Lemma mining_triggering_tests_witness :
  exists i, MiningBuggyCodeLogs._parse_bug_info Sample.info_text = Ok i
            /\ info_triggering_tests i
               = [ chars "org.Foo::testBar"; chars "-> java.lang.Exc: boom";
                   chars "org.Foo::testBaz";
                   chars "-> junit.framework.Failure" ].
Proof.
  apply (mining_triggering_tests Sample.info_pre Sample.info_lines
           Sample.info_post Sample.info_text).
  split.
  - reflexivity.
  - apply (first_occurrence_scan tests_header Sample.info_pre
             (NL :: render_block Sample.info_lines ++ Sample.info_post)).
    vm_compute. reflexivity.
  - discriminate.
  - repeat constructor; try discriminate;
      try (eexists _, _; split; reflexivity).
  - reflexivity.
Defined.

(* ----------------------------------------------------------------- *)
(** ** The pipeline of mining_buggy_code_logs.py *)

Lemma built_app (pyfloat : Type)
      (a b : list (str * outcome (SyntheticDebugSession pyfloat))) :
  built (a ++ b) = built a ++ built b.
Proof. unfold built. apply flat_map_app. Qed.

Lemma built_length (pyfloat : Type)
      (tried : list (str * outcome (SyntheticDebugSession pyfloat))) :
  length (built tried) <= length tried.
Proof.
  unfold built.
  induction tried as [|[id [s|]] tried IH]; cbn [flat_map snd length app];
    [lia | | ]; cbn [length] in *; lia.
Qed.

Section MainProperties.

Variable pyfloat : Type.
Variable float_zero : pyfloat.
Variable isoformat : datetime -> str.
Variable world : Type.
Variable path : Type.
Variable path_of : str -> path.
Variable path_str : path -> str.
Variable path_div : path -> str -> path.
Variable run : str -> world -> outcome CompletedProcess * world.
Variable now : world -> datetime * world.
Variable path_exists : path -> world -> bool.
Variable read_text : path -> world -> outcome str.
Variable mkdir : path -> world -> outcome unit * world.
Variable mkdir_exist_ok : path -> world -> outcome unit * world.

Local Abbreviation process_bug' :=
  (process_bug float_zero isoformat path_str path_div run now path_exists
     read_text mkdir).
Local Abbreviation attempts' :=
  (attempts float_zero isoformat path_str path_div run now path_exists
     read_text mkdir).

Lemma process_bug_session (generator : SyntheticLogGenerator)
      (name : str) (work_dir : path) (id : str) (w w' : world)
      (s : SyntheticDebugSession pyfloat) :
  process_bug' generator name work_dir id w = (Ok s, w') ->
  session_of isoformat generator name s /\ bug_id (bug_info s) = id.
Proof.
  unfold process_bug, mining_get_bug_info, get_bug_info_with.
  destruct (run _ w) as [[result|] w1]; [|discriminate].
  destruct (MiningBuggyCodeLogs._parse_bug_info (stdout result)) as [i|];
    cbn [bind]; [|discriminate].
  destruct (checkout_bug _ _ _ _ _ _ _ _ w1) as [[p|] w2]; [|discriminate].
  destruct (mining_run_tests _ _ _ _ _ _ _ _ _ w2) as [[outs|] w3];
    [|discriminate].
  destruct (export_patch _ _ _ w3) as [[patch_text|] w4]; [|discriminate].
  intros [= <- _]. split; [|reflexivity].
  split; [reflexivity|]. split; [discriminate | reflexivity].
Qed.

Lemma attempts_ok (generator : SyntheticLogGenerator) (name : str)
      (work_dir : path) (bug_ids : list str) :
  forall w,
    map fst (attempts' generator name work_dir bug_ids w) = bug_ids
    /\ Forall (attempt_ok isoformat generator name)
              (attempts' generator name work_dir bug_ids w).
Proof.
  induction bug_ids as [|id bug_ids IH]; intros w; cbn [attempts].
  - split; [reflexivity | constructor].
  - destruct (process_bug' generator name work_dir id w) as [r w'] eqn:E.
    destruct (IH w') as [IH1 IH2]. cbn [map fst]. rewrite IH1.
    split; [reflexivity|]. constructor; [|exact IH2].
    unfold attempt_ok. cbn [snd fst]. destruct r as [s|]; [|exact I].
    exact (process_bug_session _ _ _ _ _ _ _ E).
Qed.

(** The loop keeps the sessions of the attempts that did not raise. *)
Lemma process_bugs_loop (generator : SyntheticLogGenerator)
      (name : str) (work_dir : path) (bug_ids : list str) :
  forall (acc : list (SyntheticDebugSession pyfloat)) (w : world),
    fst (fold_left
           (fun (st : list (SyntheticDebugSession pyfloat) * world) id =>
              let '(sessions, w) := st in
              match process_bug' generator name work_dir id w with
              | (Ok session, w) => (sessions ++ [session], w)
              | (Fault, w) => (sessions, w)
              end)
           bug_ids (acc, w))
    = acc ++ built (attempts' generator name work_dir bug_ids w).
Proof.
  induction bug_ids as [|id bug_ids IH]; intros acc w;
    cbn [fold_left fst attempts].
  - cbn. now rewrite app_nil_r.
  - destruct (process_bug' generator name work_dir id w) as [[s|] w'].
    + rewrite IH. unfold built. cbn [flat_map snd]. rewrite <- app_assoc.
      reflexivity.
    + rewrite IH. reflexivity.
Qed.

(** X18. Let [main] have made its two directories and started the
    manager, let [t] be the reading of the clock that follows, and let
    [ids] be what [get_all_bugs] then returns for the project Lang,
    after the bugs of every project were listed.  Then [main] gets as
    far as exporting, and the sessions it has built are those of the
    attempts for the first five of [ids], in the order of the ids, that
    did not raise: a bug whose processing raises leaves no session and
    does not stop the loop.  The sessions are at most five; each is of
    its bug id and of the project Lang, was generated by the generator
    that was made at [t] from the bug record and the outcomes it holds,
    and its bug record carries a checkout path. *)
Theorem main_sessions_of_bugs (w w1 w2 w3 w4 w5 w6 : world) (u1 u2 u3 : unit)
        (d4j : Defects4JManager) (t : datetime) (ids : list str) :
  mkdir_exist_ok (path_of (chars "./defects4j_work")) w = (Ok u1, w1) ->
  mkdir_exist_ok (path_of (chars "./synthetic_logs")) w1 = (Ok u2, w2) ->
  manager_init run None w2 = (Ok d4j, w3) ->
  now w3 = (t, w4) ->
  show_projects run (projects d4j) w4 = (Ok u3, w5) ->
  get_all_bugs run (chars "Lang") w5 = (Ok ids, w6) ->
  let tried :=
    attempts' (init t) (chars "Lang") (path_of (chars "./defects4j_work"))
      (firstn 5 ids) w6 in
  fst (main_sessions float_zero isoformat path_of path_str path_div run now
         path_exists read_text mkdir mkdir_exist_ok w)
  = Ok (built tried)
  /\ length (built tried) <= 5
  /\ map fst tried = firstn 5 ids
  /\ Forall (attempt_ok isoformat (init t) (chars "Lang")) tried
  /\ Forall (session_of isoformat (init t) (chars "Lang")) (built tried).
Proof.
  intros H1 H2 H3 H4 H5 H6 tried.
  destruct (attempts_ok (init t) (chars "Lang")
              (path_of (chars "./defects4j_work")) (firstn 5 ids) w6)
    as [Hids Hok].
  fold tried in Hids, Hok.
  split; [|split; [|split; [exact Hids | split; [exact Hok|]]]].
  - unfold main_sessions. rewrite H1, H2, H3, H4, H5, H6.
    unfold process_bugs.
    pose proof (process_bugs_loop (init t) (chars "Lang")
                  (path_of (chars "./defects4j_work")) (firstn 5 ids)
                  [] w6) as H.
    destruct (fold_left _ (firstn 5 ids) ([], w6)) as [ss w7].
    cbn [fst app] in H. rewrite H. reflexivity.
  - etransitivity; [apply built_length|].
    rewrite <- (length_map fst), Hids, length_firstn. lia.
  - unfold built. apply Forall_forall. intros s Hs.
    apply in_flat_map in Hs as (a & Ha & Hs).
    rewrite Forall_forall in Hok. specialize (Hok a Ha).
    unfold attempt_ok in Hok. destruct (snd a) as [s'|]; [|destruct Hs].
    destruct Hs as [<- | []]. apply Hok.
Qed.

End MainProperties.

Lemma main_sessions_of_bugs_witness :
  let tried :=
    attempts tt Sample.iso (fun p : str => p) Sample.path_div0
      Sample.run0 Sample.now0 Sample.exists0 Sample.read0 Sample.mkdir0
      (init 1%Z) (chars "Lang") (chars "./defects4j_work")
      (firstn 5 [chars "1"; chars "2"]) 5 in
  fst Sample.main_result = Ok (built tried)
  /\ length (built tried) <= 5
  /\ map fst tried = firstn 5 [chars "1"; chars "2"]
  /\ Forall (attempt_ok Sample.iso (init 1%Z) (chars "Lang")) tried
  /\ Forall (session_of Sample.iso (init 1%Z) (chars "Lang")) (built tried).
Proof.
  apply (main_sessions_of_bugs Sample.float0 tt Sample.iso Sample.world0 str
           (fun p : str => p) (fun p : str => p) Sample.path_div0
           Sample.run0 Sample.now0 Sample.exists0 Sample.read0
           Sample.mkdir0 Sample.mkdir0 0 0 0 1 2 4 5 tt tt tt
           {| defects4j_home := chars "/path/to/defects4j";
              projects := [chars "Lang"; chars "Math"] |}
           1%Z [chars "1"; chars "2"]); reflexivity.
Defined.

(* ----------------------------------------------------------------- *)
(** ** The timeline of a session *)

(** X20. The timeline of a session is: the two steps of the setup; one
    step for every outcome with status FAIL, in the order of the
    outcomes, naming its test; the start of the investigation and one
    step for each of the first three modified classes; the root cause
    inferred from the patch and the review of the patch; and the three
    steps of the resolution, which end with all tests passing whatever
    the outcomes were.  No step depends on the session start. *)
Theorem timeline_steps (pyfloat : Type) (isoformat : datetime -> str)
        (self : SyntheticLogGenerator) (bug : Defects4JBug)
        (outs : list (TestOutput pyfloat)) :
  investigation_timeline (generate_debug_session isoformat self bug outs)
  = [ chars "Started investigating " ++ project bug ++ chars " bug #"
      ++ bug_id bug;
      chars "Executed test suite to reproduce issue" ]
    ++ map (fun o => chars "Identified failing test: " ++ test_name o)
           (filter (@is_fail pyfloat) outs)
    ++ chars "Began examining modified classes"
       :: map (fun c => chars "Analyzed " ++ c)
              (firstn 3 (modified_classes bug))
    ++ [ chars "Discovered root cause: "
         ++ _infer_root_cause_from_patch (patch bug);
         chars "Reviewed patch to understand fix" ]
    ++ [ chars "Applied patch from fixed version";
         chars "Verified fix by re-running tests";
         chars "Confirmed all tests now pass" ].
Proof.
  destruct (session_phases isoformat self bug outs) as [_ Ht].
  cbv zeta in Ht. rewrite Ht.
  rewrite failure_phase_spec, investigation_phase_spec.
  reflexivity.
Qed.

(* ----------------------------------------------------------------- *)
(** ** Running every test *)

Section RunningAllTests.
Variable pyfloat : Type.
Variable float_zero : pyfloat.
Variable world : Type.
Variable path : Type.
Variable path_str : path -> str.
Variable path_div : path -> str -> path.
Variable run : str -> world -> outcome CompletedProcess * world.
Variable now : world -> datetime * world.
Variable path_exists : path -> world -> bool.
Variable read_text : path -> world -> outcome str.

Lemma enrich_output_failure (content : str) (o : TestOutput pyfloat) :
  bare_failure float_zero o ->
  test_name (enrich_output content o) = test_name o
  /\ enriched_failure (enrich_output content o).
Proof.
  intros (Hs & Hm & Ht & _). unfold enrich_output, is_fail.
  rewrite Hs, Hm. cbn [str_eqb chars list_ascii_of_string Ascii.eqb
                        Bool.eqb andb truthy_opt negb].
  split; [reflexivity|]. unfold enriched_failure.
  cbn [set_error_message status stack_trace error_message].
  split; [exact Hs|]. split; [exact Ht|].
  intros msg Hmsg. apply extract_error_not_blank in Hmsg.
  intros H0. now rewrite H0 in Hmsg.
Qed.

(** X19. Given no tests ([None] or the empty list) [run_tests] runs
    every test, once.  When that run of the tool raises, as it does on
    output that does not decode, [run_tests] raises.  When it returns,
    [run_tests] returns one outcome for each line of the tool's output
    of the form [  - identifier], in the order of the lines and named by
    the identifier, with status FAIL and no stack trace.  In
    defects_manager.py no outcome has an error message; in
    mining_buggy_code_logs.py an outcome has none or one that is not
    blank. *)
Theorem run_tests_all (checkout_path : path) (w : world) :
  let run_tests' :=
    run_tests float_zero path_str path_div run now path_exists read_text in
  let mining_run_tests' :=
    mining_run_tests float_zero path_str path_div run now path_exists
      read_text in
  match run (chars "cd " ++ path_str checkout_path
             ++ chars " && defects4j test") w with
  | (Ok result, _) =>
      let names := failing_names (split_on NL (stdout result)) in
      (exists outs,
         fst (run_tests' checkout_path None w) = Ok outs
         /\ map (@test_name pyfloat) outs = names
         /\ Forall (bare_failure float_zero) outs)
      /\ (exists outs,
            fst (mining_run_tests' checkout_path None w) = Ok outs
            /\ map (@test_name pyfloat) outs = names
            /\ Forall (@enriched_failure pyfloat) outs)
  | (Fault, w') =>
      run_tests' checkout_path None w = (Fault, w')
      /\ mining_run_tests' checkout_path None w = (Fault, w')
  end
  /\ run_tests' checkout_path (Some []) w = run_tests' checkout_path None w
  /\ mining_run_tests' checkout_path (Some []) w
     = mining_run_tests' checkout_path None w.
Proof.
  cbv zeta. split; [|split; reflexivity].
  unfold mining_run_tests, run_tests, _parse_test_output.
  destruct (run _ w) as [[result|] w1]; [|split; reflexivity].
  destruct (parse_test_output_loop pyfloat float_zero world now
              (findall failing_re (stdout result)) [] w1) as [H1 H2].
  cbv zeta in H1, H2. rewrite findall_failing in *.
  specialize (H2 (Forall_nil _)). cbn [map app] in H1.
  destruct (fold_left _ _ ([], w1)) as [outs w2]. cbn [fst] in *.
  split; [now exists outs|].
  assert (Hbare : Forall (@enriched_failure pyfloat) outs).
  { apply Forall_forall. intros o Ho. rewrite Forall_forall in H2.
    destruct (H2 o Ho) as (Hs & Hm & Ht & _).
    split; [exact Hs|]. split; [exact Ht|]. intros msg Hmsg. congruence. }
  destruct (path_exists _ w2); cbn [fst]; [|now exists outs].
  unfold _enrich_with_failure_details.
  destruct (read_text _ w2) as [content|]; [|now exists outs].
  eexists. split; [reflexivity|]. rewrite <- H1. clear H1 Hbare.
  induction H2 as [|o outs Ho _ IH]; [split; [reflexivity | constructor]|].
  destruct IH as [IH1 IH2].
  destruct (enrich_output_failure content o Ho) as [Hn He].
  cbn [map]. rewrite Hn, IH1. split; [reflexivity | now constructor].
Qed.

End RunningAllTests.

(* ----------------------------------------------------------------- *)
(** ** A run of the tool that raises *)

Section RaisingRuns.
Variable pyfloat : Type.
Variable float_zero : pyfloat.
Variable world : Type.
Variable path : Type.
Variable path_str : path -> str.
Variable path_div : path -> str -> path.
Variable run : str -> world -> outcome CompletedProcess * world.
Variable now : world -> datetime * world.
Variable path_exists : path -> world -> bool.
Variable read_text : path -> world -> outcome str.

Local Abbreviation run_round checkout_path :=
  (fun (st : outcome (list (TestOutput pyfloat)) * world) test =>
     match st with
     | (Ok outputs, w) =>
         match _run_single_test float_zero path_str path_div run now
                 path_exists read_text checkout_path test w with
         | (Ok (Some output), w) => (Ok (outputs ++ [output]), w)
         | (Ok None, w) => (Ok outputs, w)
         | (Fault, w) => (Fault, w)
         end
     | (Fault, w) => (Fault, w)
     end).

Lemma run_specific_tests_raised (checkout_path : path) (tests : list str) :
  forall w, fst (fold_left (run_round checkout_path) tests (Fault, w)) = Fault.
Proof. induction tests as [|t tests IH]; intros w; [reflexivity | apply IH]. Qed.

Lemma run_specific_tests_raise (checkout_path : path) (t : str)
      (tests : list str) :
  In t tests ->
  (forall w, fst (run (chars "cd " ++ path_str checkout_path
                       ++ chars " && defects4j test -t " ++ t) w) = Fault) ->
  forall outs w,
    fst (fold_left (run_round checkout_path) tests (Ok outs, w)) = Fault.
Proof.
  intros Hin Hrun. induction tests as [|t0 tests IH]; [destruct Hin|].
  intros outs w. cbn [fold_left].
  destruct Hin as [-> | Hin].
  - unfold _run_single_test. specialize (Hrun w).
    destruct (run _ w) as [[result|] w1]; [discriminate Hrun|].
    apply run_specific_tests_raised.
  - destruct (_run_single_test _ _ _ _ _ _ _ _ t0 w) as [[[o|]|] w1].
    + now apply IH.
    + now apply IH.
    + apply run_specific_tests_raised.
Qed.

(** X21. When the run of the tool for one of the tests it is given
    raises, as it does on output that does not decode, [run_tests]
    raises, in either file: it returns no outcome, not those of the
    tests that were run before either. *)
Theorem run_tests_raises (checkout_path : path) (t : str)
        (tests : list str) (w : world) :
  In t tests ->
  (forall w', fst (run (chars "cd " ++ path_str checkout_path
                        ++ chars " && defects4j test -t " ++ t) w')
              = Fault) ->
  fst (run_tests float_zero path_str path_div run now path_exists read_text
         checkout_path (Some tests) w) = Fault
  /\ fst (mining_run_tests float_zero path_str path_div run now path_exists
            read_text checkout_path (Some tests) w) = Fault.
Proof.
  intros Hin Hrun.
  assert (H : fst (run_tests float_zero path_str path_div run now
                     path_exists read_text checkout_path (Some tests) w)
              = Fault).
  { destruct tests as [|t0 tests]; [destruct Hin|].
    unfold run_tests, run_specific_tests.
    now apply run_specific_tests_raise with t. }
  split; [exact H|]. unfold mining_run_tests.
  destruct (run_tests _ _ _ _ _ _ _ _ _ w) as [[outs|] w1];
    [discriminate H | reflexivity].
Qed.

End RaisingRuns.

Lemma run_tests_raises_witness :
  fst (run_tests tt (fun p : str => p) Sample.path_div0 Sample.run0
         Sample.now0 Sample.exists0 Sample.read0 (chars "work/Lang_1_b")
         (Some [chars "org.Foo::testBar"; chars "org.Foo::testUndecodable";
                chars "org.Foo::testBaz"]) 0) = Fault
  /\ fst (mining_run_tests tt (fun p : str => p) Sample.path_div0
            Sample.run0 Sample.now0 Sample.exists0 Sample.read0
            (chars "work/Lang_1_b")
            (Some [chars "org.Foo::testBar";
                   chars "org.Foo::testUndecodable";
                   chars "org.Foo::testBaz"]) 0) = Fault.
Proof.
  apply (run_tests_raises unit tt Sample.world0 str (fun p : str => p)
           Sample.path_div0 Sample.run0 Sample.now0 Sample.exists0
           Sample.read0 (chars "work/Lang_1_b")
           (chars "org.Foo::testUndecodable")).
  - right. left. reflexivity.
  - intros w'. reflexivity.
Defined.
